(** * A11y: the checker / orchestration pipeline

    A shallow embedding of the JavaScript sources of the accessibility
    testing framework (utils/asyncUtils, checkers/*, core/testEngine,
    core/legacyScanner, core/axeScanner, core/appManager and the
    reporters) together with the properties its specification states about them and
    further properties read off the code.

    Conventions of the embedding.
    - JavaScript strings are [string]; a field that may be [undefined] is an
      [option]; truthiness of such a field is [truthy].
    - Integer-valued numbers (counters, pixel measurements, milliseconds) are
      [nat] or [Z]; zoom multipliers are rationals [Q]; the one place where
      the source relies on binary64 division ([successRate]) uses Rocq's
      primitive floats.
    - A call that may throw returns an [outcome]; the state an object
      mutates is threaded explicitly.
    - Everything the framework drives but does not implement (the page, the
      rule engine, the hosted application) is a parameter or a script of
      answers supplied by the caller of the embedded function. *)

From Stdlib Require Import ZArith List String Ascii Bool Arith Lia.
From Stdlib Require Import QArith Qround Floats Uint63 DecimalString Permutation
  Sorted.
Import ListNotations.

Local Close Scope Q_scope.
Local Open Scope string_scope.
Local Open Scope list_scope.
Local Open Scope nat_scope.

(* ================================================================== *)
(** * Part I: the embedding of the sources                              *)
(* ================================================================== *)

(** ** JavaScript basics shared by all modules *)
Module JS.

(** A settled call: it returned a value or threw an error. *)
Inductive outcome (V E : Type) : Type :=
| Return (v : V)
| Throw (e : E).
Arguments Return {V E} v.
Arguments Throw {V E} e.

(** [try { body } catch (e) { handler(e) }] *)
Definition try_catch {V E E' : Type} (body : outcome V E)
    (handler : E -> outcome V E') : outcome V E' :=
  match body with
  | Return v => Return v
  | Throw e => handler e
  end.

(** [const x = await first; rest(x)]: a rejection of [first] propagates. *)
Definition and_then {A B E : Type} (first : outcome A E)
    (rest : A -> outcome B E) : outcome B E :=
  match first with
  | Return a => rest a
  | Throw e => Throw e
  end.

(** [!!s] for a string: only the empty string is falsy. *)
Definition truthy_string (s : string) : bool :=
  match s with
  | EmptyString => false
  | String _ _ => true
  end.

(** [!!x] for a field holding a string or [undefined]. *)
Definition truthy (x : option string) : bool :=
  match x with
  | None => false
  | Some s => truthy_string s
  end.

(** White space removed by [String.prototype.trim], restricted to the
    one-byte characters (TAB, LF, VT, FF, CR, SPACE). *)
Definition is_white_space (c : ascii) : bool :=
  let n := nat_of_ascii c in
  ((9 <=? n) && (n <=? 13)) || (n =? 32).

(** [s.trim().length === 0] *)
Fixpoint trim_is_empty (s : string) : bool :=
  match s with
  | EmptyString => true
  | String c s' => is_white_space c && trim_is_empty s'
  end.

(** [arr.includes(x)] on an array of strings. *)
Definition includes (arr : list string) (x : string) : bool :=
  existsb (String.eqb x) arr.

(** [Math.max(lo, Math.min(hi, x))] *)
Definition clamp (lo hi x : Z) : Z := Z.max lo (Z.min hi x).

(** A thrown value, as the [catch (error)] clauses of the framework read
    it: through [error.message].  An [Error] carries a string; a thrown
    value of another kind (a string, a number, a plain object) has no
    [message] and the read gives [undefined]. *)
Inductive thrown : Type :=
| AnError (message : string)
| NotAnError.

(** [error.message] *)
Definition message_of (e : thrown) : option string :=
  match e with
  | AnError message => Some message
  | NotAnError => None
  end.

(** *** Plain objects used as maps

    The own properties of an object created by [{}], in the order of
    their creation. *)
Definition is_digit (c : ascii) : bool :=
  let n := nat_of_ascii c in (48 <=? n) && (n <=? 57).

Fixpoint digits_value (s : string) (acc : N) : option N :=
  match s with
  | EmptyString => Some acc
  | String c s' =>
      if is_digit c
      then digits_value s' (acc * 10 + N.of_nat (nat_of_ascii c - 48))%N
      else None
  end.

(** The array index a property name stands for: a decimal numeral
    without leading zero, below 2^32 - 1. *)
Definition array_index (k : string) : option N :=
  match k with
  | EmptyString => None
  | String c rest =>
      if Ascii.eqb c "0" && negb (String.eqb rest "") then None
      else match digits_value k 0 with
           | Some n => if (n <? 4294967295)%N then Some n else None
           | None => None
           end
  end.

Definition is_array_index (k : string) : bool :=
  match array_index k with Some _ => true | None => false end.

Definition index_of (k : string) : N :=
  match array_index k with Some n => n | None => 0%N end.

Fixpoint insert_by_index (k : string) (sorted : list string) : list string :=
  match sorted with
  | [] => [k]
  | k' :: rest =>
      if (index_of k <? index_of k')%N then k :: k' :: rest
      else k' :: insert_by_index k rest
  end.

(** [Object.keys(o)], also the order of [JSON.stringify] and [for...in]:
    the array indices in ascending order, then the other names in the
    order of their creation. *)
Definition keys {A : Type} (o : list (string * A)) : list string :=
  fold_left (fun sorted k => insert_by_index k sorted)
            (filter is_array_index (map fst o)) []
  ++ filter (fun k => negb (is_array_index k)) (map fst o).

(** [o[k] = v] where [k] is not [__proto__]: the value of an own
    property is replaced where it stands, a new property comes last. *)
Fixpoint put {A : Type} (o : list (string * A)) (k : string) (v : A)
  : list (string * A) :=
  match o with
  | [] => [(k, v)]
  | (k', v') :: rest =>
      if String.eqb k' k then (k', v) :: rest
      else (k', v') :: put rest k v
  end.

(** [o[k] = v] for an object [v].  The name [__proto__] reaches the
    setter of [Object.prototype], which makes [v] the prototype of [o] and
    creates no property. *)
Definition assign {A : Type} (o : list (string * A)) (k : string) (v : A)
  : list (string * A) :=
  if String.eqb k "__proto__" then o else put o k v.

(** The names [Object.prototype] defines: a read of [o[k]] finds a value
    under them although [o] has no such property of its own. *)
Definition object_prototype_names : list string :=
  ["constructor"; "hasOwnProperty"; "isPrototypeOf"; "propertyIsEnumerable";
   "toLocaleString"; "toString"; "valueOf"; "__proto__";
   "__defineGetter__"; "__defineSetter__"; "__lookupGetter__";
   "__lookupSetter__"].

Definition inherited (k : string) : bool := includes object_prototype_names k.

End JS.

(** ** checkers/accessibilityTreeChecker.js *)
Module AccessibilityTreeChecker.
Import JS.

#[local] Set Warnings "-register-all".

(** A node of the accessibility snapshot: [{role, name, level, children}],
    every field possibly [undefined]. *)
Inductive axNode : Type :=
| AxNode (role : option string) (name : option string)
         (level : option Z) (children : option (list axNode)).

(** The entry [extractLandmarks] pushes for a landmark node. *)
Record landmark : Type := mkLandmark {
  lm_role : string;
  lm_name : option string;
  lm_level : Z;
  lm_children : nat
}.

Record landmarkIssue : Type := mkIssue {
  li_type : string;
  li_landmark : string;
  li_severity : string;
  li_description : string
}.

Record landmarkReport : Type := mkReport {
  present : list landmark;
  missing : list string;
  multiples : list (string * nat);
  issues : list landmarkIssue;
  score : Z
}.

(** [this.requiredLandmarks] *)
Definition requiredLandmarks : list string :=
  ["banner"; "main"; "navigation"; "complementary"; "contentinfo"].

Definition landmarkRoles : list string :=
  ["banner"; "main"; "navigation"; "complementary"; "contentinfo";
   "region"; "search"; "form"].

(** [axTree.level || 0] *)
Definition level_or_zero (l : option Z) : Z :=
  match l with Some z => z | None => 0%Z end.

(** [axTree.children?.length || 0] *)
Definition children_count (cs : option (list axNode)) : nat :=
  match cs with Some l => List.length l | None => 0 end.

(** [extractLandmarks(axTree, result)]: pre-order walk pushing onto the
    shared [result] array. *)
Fixpoint extractLandmarks (axTree : axNode) (result : list landmark)
  : list landmark :=
  match axTree with
  | AxNode role name level children =>
      let result1 :=
        match role with
        | Some r =>
            if truthy_string r && includes landmarkRoles r
            then result ++ [mkLandmark r name (level_or_zero level)
                                       (children_count children)]
            else result
        | None => result
        end in
      match children with
      | Some cs => fold_left (fun acc child => extractLandmarks child acc) cs result1
      | None => result1
      end
  end.

(** [extractLandmarks(axTree)] with the [if (!axTree) return result] guard
    for a missing snapshot. *)
Definition extractLandmarks_root (axTree : option axNode) : list landmark :=
  match axTree with
  | None => []
  | Some t => extractLandmarks t []
  end.

(** [checkLandmarkAccessibility(landmark)] *)
Definition checkLandmarkAccessibility (l : landmark) : list landmarkIssue :=
  let issues1 :=
    if negb (truthy (lm_name l))
       || match lm_name l with Some n => trim_is_empty n | None => true end
    then [mkIssue "missing-name" (lm_role l) "high"
                  (lm_role l ++ " landmark missing accessible name")%string]
    else [] in
  let issues2 :=
    if String.eqb (lm_role l) "main" && (lm_children l =? 0)
    then [mkIssue "empty-main" (lm_role l) "medium"
                  "Main landmark appears to be empty"]
    else [] in
  issues1 ++ issues2.

(** [landmarkCounts[role] = (landmarkCounts[role] || 0) + 1], the object
    kept as an association list in insertion order. *)
Fixpoint count_role (counts : list (string * nat)) (role : string)
  : list (string * nat) :=
  match counts with
  | [] => [(role, 1)]
  | (r, c) :: rest =>
      if String.eqb r role then (r, S c) :: rest
      else (r, c) :: count_role rest role
  end.

(** [calculateLandmarkScore(landmarks, missing, issues)] *)
Definition calculateLandmarkScore {A B C : Type}
    (landmarks : list A) (missing : list B) (issues : list C) : Z :=
  let score := 100%Z in
  let score := (score - Z.of_nat (List.length missing) * 20)%Z in
  let score := (score - Z.of_nat (List.length issues) * 10)%Z in
  let score := if 3 <=? List.length landmarks then (score + 10)%Z else score in
  Z.max 0 (Z.min 100 score).

(** [checkLandmarks(page, axTree)]; the [catch] arm of the source is
    unreachable for a snapshot of this shape, every step being pure. *)
Definition checkLandmarks (axTree : option axNode) : landmarkReport :=
  let landmarks := extractLandmarks_root axTree in
  let presentLandmarks := map lm_role landmarks in
  let missingRequired :=
    filter (fun role => negb (includes presentLandmarks role)) requiredLandmarks in
  let landmarkCounts := fold_left count_role presentLandmarks [] in
  let multipleLandmarks :=
    filter (fun rc => (1 <? snd rc) && negb (String.eqb (fst rc) "navigation"))
           landmarkCounts in
  let landmarkIssues := flat_map checkLandmarkAccessibility landmarks in
  mkReport landmarks missingRequired multipleLandmarks landmarkIssues
           (calculateLandmarkScore landmarks missingRequired landmarkIssues).

End AccessibilityTreeChecker.

(** ** checkers/zoomChecker.js *)
Module ZoomChecker.
Import JS.

(** What the measuring script reads from [document.body],
    [document.documentElement] and [window]. *)
Record metrics : Type := mkMetrics {
  bodyScrollWidth : Z;
  bodyScrollHeight : Z;
  bodyClientWidth : Z;
  bodyClientHeight : Z;
  htmlScrollWidth : Z;
  htmlScrollHeight : Z;
  htmlClientWidth : Z;
  htmlClientHeight : Z;
  windowInnerWidth : Z;
  windowInnerHeight : Z
}.

(** The object the measuring script returns. *)
Record layoutData : Type := mkLayoutData {
  measured : metrics;
  hasHorizontalScrollbar : bool;
  hasVerticalScrollbar : bool
}.

(** The [page.evaluate] scripts [testZoomLevel] sends to the page. *)
Inductive pageCall : Type :=
| ApplyZoom (zoom : Q)
| MeasureLayout
| CountOffScreen
| ResetZoom
| BreakageDetails.

(** The page under test.  [style_zoom] is [document.body.style.zoom]
    ([None] for the empty string); [faults] scripts the coming
    [page.evaluate] calls ([Some msg]: the call throws an error with that
    message and has no effect; the calls after the script succeed);
    [metrics_at], [offScreenCount_at] and [brokenElements_at] are what the
    page shows at a given zoom; [calls] records every [page.evaluate]
    issued and whether it succeeded. *)
Record page : Type := mkPage {
  style_zoom : option Q;
  faults : list (option string);
  metrics_at : option Q -> metrics;
  offScreenCount_at : option Q -> nat;
  brokenElements_at : option Q -> list string;
  calls : list (pageCall * bool)
}.

Definition set_zoom (z : option Q) (p : page) : page :=
  mkPage z (faults p) (metrics_at p) (offScreenCount_at p)
         (brokenElements_at p) (calls p).

Definition next_call (c : pageCall) (ok : bool) (p : page) : page :=
  mkPage (style_zoom p) (tl (faults p)) (metrics_at p) (offScreenCount_at p)
         (brokenElements_at p) (calls p ++ [(c, ok)]).

(** [await page.evaluate(script)]: the script runs in the page unless the
    call is scripted to throw. *)
Definition evaluate {A : Type} (c : pageCall) (script : page -> A * page)
    (p : page) : outcome A string * page :=
  match faults p with
  | Some msg :: _ => (Throw msg, next_call c false p)
  | _ => let (a, p') := script (next_call c true p) in (Return a, p')
  end.

(** [{ zoomLevel, success, error, layoutData, overflow, overflowData,
      layoutBroken, layoutBreakageData }] *)
Record zoomTest : Type := mkZoomTest {
  zoomLevel : Q;
  success : bool;
  error : option string;
  zt_layoutData : option layoutData;
  overflow : bool;
  overflowData : option (Z * Z);
  layoutBroken : bool;
  layoutBreakageData : option (outcome (list string) string)
}.

(** The measuring script of [testZoomLevel]. *)
Definition measure_script (p : page) : layoutData * page :=
  let m := metrics_at p (style_zoom p) in
  (mkLayoutData m
     (bodyScrollWidth m >? windowInnerWidth m)%Z
     (bodyScrollHeight m >? windowInnerHeight m)%Z, p).

(** [checkLayoutBreakage(page, layoutData)]: more than five elements
    significantly off screen; [false] when the page call throws. *)
Definition checkLayoutBreakage (p : page) : bool * page :=
  match evaluate CountOffScreen
          (fun q => (5 <? offScreenCount_at q (style_zoom q), q)) p with
  | (Return significantBreakage, p') => (significantBreakage, p')
  | (Throw _, p') => (false, p')
  end.

(** [getLayoutBreakageDetails(page)]: at most ten broken elements, or
    [{ error }]. *)
Definition getLayoutBreakageDetails (p : page)
  : outcome (list string) string * page :=
  evaluate BreakageDetails
    (fun q => (firstn 10 (brokenElements_at q (style_zoom q)), q)) p.

(** The [catch] arm of [testZoomLevel]: reset the zoom, ignoring a failure
    of the reset itself, and report the failed test. *)
Definition testZoomLevel_catch (zoomLevel : Q) (message : string) (p : page)
  : zoomTest * page :=
  let (_, p') := evaluate ResetZoom (fun q => (tt, set_zoom None q)) p in
  (mkZoomTest zoomLevel false (Some message) None false None false None, p').

(** [testZoomLevel(page, zoomLevel)] *)
Definition testZoomLevel (p : page) (zoomLevel : Q) : zoomTest * page :=
  match evaluate (ApplyZoom zoomLevel)
          (fun q => (tt, set_zoom (Some zoomLevel) q)) p with
  | (Throw msg, p1) => testZoomLevel_catch zoomLevel msg p1
  | (Return _, p1) =>
    match evaluate MeasureLayout measure_script p1 with
    | (Throw msg, p2) => testZoomLevel_catch zoomLevel msg p2
    | (Return layout, p2) =>
      let m := measured layout in
      let overflow :=
        ((bodyScrollWidth m >? windowInnerWidth m + 10)
         || (bodyScrollHeight m >? windowInnerHeight m + 10))%Z in
      let (layoutBroken, p3) := checkLayoutBreakage p2 in
      match evaluate ResetZoom (fun q => (tt, set_zoom None q)) p3 with
      | (Throw msg, p4) => testZoomLevel_catch zoomLevel msg p4
      | (Return _, p4) =>
        let overflowData :=
          if overflow
          then Some (Z.max 0 (bodyScrollWidth m - windowInnerWidth m),
                     Z.max 0 (bodyScrollHeight m - windowInnerHeight m))%Z
          else None in
        let (details, p5) :=
          if layoutBroken
          then let (d, q) := getLayoutBreakageDetails p4 in (Some d, q)
          else (None, p4) in
        (mkZoomTest zoomLevel true None (Some layout) overflow overflowData
                    layoutBroken details, p5)
      end
    end
  end.

(** [Math.max(...zs)] for a non-empty argument list, as a left fold. *)
Definition Qmax2 (a b : Q) : Q := if Qle_bool a b then b else a.

Definition max_of (z : Q) (zs : list Q) : Q := fold_left Qmax2 zs z.

(** [{ maxSupportedZoom, supports200Percent, supports150Percent,
      supports125Percent, meetsWCAG }] *)
Record recommendation : Type := mkRecommendation {
  maxSupportedZoom : Q;
  supports200Percent : bool;
  supports150Percent : bool;
  supports125Percent : bool;
  meetsWCAG : bool
}.

(** The filter of [calculateRecommendedZoom]. *)
Definition clean (t : zoomTest) : bool :=
  success t && negb (overflow t) && negb (layoutBroken t).

(** [calculateRecommendedZoom(results)] *)
Definition calculateRecommendedZoom (zoomTests : list zoomTest)
  : recommendation :=
  let successfulZooms := map zoomLevel (filter clean zoomTests) in
  let maxSuccessfulZoom :=
    match successfulZooms with
    | [] => 1%Q
    | z :: zs => max_of z zs
    end in
  mkRecommendation maxSuccessfulZoom
    (Qle_bool 2 maxSuccessfulZoom)
    (Qle_bool (3 # 2)%Q maxSuccessfulZoom)
    (Qle_bool (5 # 4)%Q maxSuccessfulZoom)
    (Qle_bool 2 maxSuccessfulZoom).

Record options : Type := mkOptions {
  zoomLevels : list Q;
  maxZoom : Q;
  checkOverflow : bool;
  checkLayout : bool
}.

(** [this.zoomLevels = [1.0, 1.25, 1.5, 2.0]] and the defaults of
    [executeCheck]. *)
Definition default_zoomLevels : list Q := [1%Q; (5 # 4)%Q; (3 # 2)%Q; 2%Q].

Definition default_options : options :=
  mkOptions default_zoomLevels 2 true true.

Record summary : Type := mkSummary {
  totalTests : nat;
  layoutIssuesCount : nat;
  overflowIssuesCount : nat;
  maxZoomTested : option Q;
  recommendedZoomSupport : recommendation
}.

Record results : Type := mkResults {
  zoomTests : list zoomTest;
  layoutIssues : list (Q * option layoutData);
  overflowIssues : list (Q * option (Z * Z));
  res_summary : option summary
}.

(** The [for (const zoomLevel of zoomLevels)] loop of [executeCheck]; the
    three arrays of [results] are the accumulator. *)
Fixpoint zoom_loop (o : options) (levels : list Q) (acc : results) (p : page)
  : results * page :=
  match levels with
  | [] => (acc, p)
  | zoomLevel :: rest =>
      if negb (Qle_bool zoomLevel (maxZoom o)) then zoom_loop o rest acc p
      else
        let (zoomResult, p') := testZoomLevel p zoomLevel in
        let tests := zoomTests acc ++ [zoomResult] in
        let layouts :=
          if checkLayout o && layoutBroken zoomResult
          then layoutIssues acc ++ [(zoomLevel, zt_layoutData zoomResult)]
          else layoutIssues acc in
        let overflows :=
          if checkOverflow o && overflow zoomResult
          then overflowIssues acc ++ [(zoomLevel, overflowData zoomResult)]
          else overflowIssues acc in
        zoom_loop o rest (mkResults tests layouts overflows None) p'
  end.

(** [executeCheck(page, pageName, options)].  [testZoomLevel] catches
    every error of the page, so the outer [catch] arm is never taken. *)
Definition executeCheck (p : page) (o : options) : results * page :=
  let (r, p') := zoom_loop o (zoomLevels o) (mkResults [] [] [] None) p in
  let tested := filter (fun z => Qle_bool z (maxZoom o)) (zoomLevels o) in
  (mkResults (zoomTests r) (layoutIssues r) (overflowIssues r)
     (Some (mkSummary (List.length (zoomTests r))
                      (List.length (layoutIssues r))
                      (List.length (overflowIssues r))
                      match tested with
                      | [] => None
                      | z :: zs => Some (max_of z zs)
                      end
                      (calculateRecommendedZoom (zoomTests r)))), p').

End ZoomChecker.

(** ** JavaScript numbers where binary64 matters *)
Module JSNumber.

(** A counter as a JavaScript number (exact below 2^53). *)
Definition of_nat (n : nat) : float :=
  PrimFloat.of_uint63 (Uint63.of_Z (Z.of_nat n)).

(** [Math.round(x)]: the integer nearest to [x], ties towards plus
    infinity, computed exactly on the binary expansion of [x]; the result
    for NaN and the infinities (never reached by a percentage) is [0]. *)
Definition Math_round (x : float) : Z :=
  match Prim2SF x with
  | S754_finite s m e =>
      let sm := if s then Z.neg m else Z.pos m in
      match e with
      | Zneg k => ((2 * sm + 2 ^ Zpos k) / (2 * 2 ^ Zpos k))%Z
      | _ => (sm * 2 ^ e)%Z
      end
  | _ => 0%Z
  end.

(** [Math.round((passed / total) * 100)] *)
Definition percentage (passed total : nat) : Z :=
  Math_round (PrimFloat.mul (PrimFloat.div (of_nat passed) (of_nat total))
                            (of_nat 100)).

(** The rounded percentage over the rationals, ties upwards. *)
Definition exact_percentage (passed total : nat) : Z :=
  ((200 * Z.of_nat passed + Z.of_nat total) / (2 * Z.of_nat total))%Z.

End JSNumber.

(** ** checkers/baseChecker.js *)
Module BaseChecker.
Import JS.

Section Run.
(** The checker-specific payload of a result. *)
Variable Data : Type.

(** What [executeCheck] resolves to: the payload with an optional
    [error] field. *)
Record checkOutput : Type := mkOutput {
  out_error : option string;
  out_data : Data
}.

(** The envelope [run] hands to the manager.  [success] is [None] when the
    object carries no such field (only a checker that does not derive
    from [BaseChecker] can produce that). *)
Record checkResult : Type := mkResult {
  checker : string;
  pageName : string;
  timestamp : nat;
  success : option bool;
  error : option string;
  data : option Data
}.

(** The message of the [TypeError] raised by [result.checker = ...] when
    [executeCheck] resolved to [undefined] or [null]. *)
Definition type_error_message : string :=
  "Cannot set properties of undefined (setting 'checker')".

(** [run(page, pageName, options)] for a checker called [name] whose
    [executeCheck] settled with [executed]; [now] is [Date.now()].  The
    [catch] arm stores [error.message] as it reads it. *)
Definition run (name : string) (page_name : string) (now : nat)
    (executed : outcome (option checkOutput) thrown) : checkResult :=
  match executed with
  | Return (Some result) =>
      mkResult name page_name now
               (Some (negb (truthy (out_error result))))
               (out_error result) (Some (out_data result))
  | Return None =>
      mkResult name page_name now (Some false) (Some type_error_message) None
  | Throw error =>
      mkResult name page_name now (Some false) (message_of error) None
  end.

End Run.

Arguments mkOutput {Data}.
Arguments out_error {Data}.
Arguments out_data {Data}.
Arguments mkResult {Data}.
Arguments checker {Data}.
Arguments pageName {Data}.
Arguments timestamp {Data}.
Arguments success {Data}.
Arguments error {Data}.
Arguments data {Data}.
Arguments run {Data}.

End BaseChecker.

(** ** checkers/checkerManager.js *)
Module CheckerManager.
Import JS.
Import BaseChecker.

Section Manager.
Variable Data : Type.

(** A registered checker: anything with a [name], a [getPriority()] and a
    [run] method, which settles with a result or throws. *)
Record checker_obj : Type := mkChecker {
  name : string;
  getPriority : Z;
  run_method : string -> nat -> outcome (checkResult Data) thrown
}.

(** A checker deriving from [BaseChecker]: its [run] is the inherited
    one, around its own [executeCheck]. *)
Definition derived (n : string) (priority : Z)
    (executeCheck : string -> outcome (option (checkOutput Data)) thrown)
  : checker_obj :=
  mkChecker n priority
    (fun page_name now => Return (BaseChecker.run n page_name now
                                    (executeCheck page_name))).

Record summary : Type := mkSummary {
  totalChecks : nat;
  passed : nat;
  failed : nat;
  errors : nat;
  successRate : option Z
}.

(** [{ pageName, timestamp, checks, summary }]; [checks] is the object
    keyed by checker name: its own properties, in the order of their
    creation ([keys] gives the order in which they are enumerated). *)
Record results : Type := mkResults {
  res_pageName : string;
  res_timestamp : nat;
  checks : list (string * checkResult Data);
  res_summary : summary
}.

(** [results.checks[checkerName] = result] *)
Definition set_check (cs : list (string * checkResult Data))
    (k : string) (v : checkResult Data)
  : list (string * checkResult Data) :=
  assign cs k v.

(** [runSingleCheck(checker, page, pageName, options)] *)
Definition runSingleCheck (c : checker_obj) (page_name : string) (now : nat)
  : checkResult Data :=
  match run_method c page_name now with
  | Return result => result
  | Throw error =>
      mkResult (name c) page_name now (Some false) (message_of error) None
  end.

(** [processCheckResult(results, checkerName, result)] *)
Definition processCheckResult (r : results) (checkerName : string)
    (result : checkResult Data) : results :=
  let s := res_summary r in
  let s' :=
    match success result with
    | Some false =>
        if truthy (error result)
        then mkSummary (totalChecks s) (passed s) (failed s) (S (errors s))
                       (successRate s)
        else mkSummary (totalChecks s) (passed s) (S (failed s)) (errors s)
                       (successRate s)
    | _ => mkSummary (totalChecks s) (S (passed s)) (failed s) (errors s)
                     (successRate s)
    end in
  mkResults (res_pageName r) (res_timestamp r)
            (set_check (checks r) checkerName result) s'.

(** [this.checkers.sort((a, b) => a.getPriority() - b.getPriority())]:
    a stable sort by ascending priority. *)
Fixpoint insert_by_priority (c : checker_obj) (sorted : list checker_obj)
  : list checker_obj :=
  match sorted with
  | [] => [c]
  | d :: rest =>
      if (getPriority c <? getPriority d)%Z then c :: d :: rest
      else d :: insert_by_priority c rest
  end.

Definition sort_by_priority (cs : list checker_obj) : list checker_obj :=
  fold_left (fun sorted c => insert_by_priority c sorted) cs [].

(** The two branches of [runAllChecks].  With [concurrency > 1] the
    checks go through [concurrentLimit], whose result array is in task
    order, and are processed by [forEach]; otherwise each check is
    processed as soon as it has run.  [runSingleCheck] never rejects, so
    both visit the sorted checkers in order. *)
Definition process_all (r : results) (sortedCheckers : list checker_obj)
    (page_name : string) (now : nat) (concurrency : nat) : results :=
  if 1 <? concurrency then
    let checkResults :=
      map (fun c => runSingleCheck c page_name now) sortedCheckers in
    fold_left (fun acc cr => processCheckResult acc (name (fst cr)) (snd cr))
              (combine sortedCheckers checkResults) r
  else
    fold_left (fun acc c =>
                 processCheckResult acc (name c) (runSingleCheck c page_name now))
              sortedCheckers r.

(** [runAllChecks(page, pageName, options)] on the manager's [checkers],
    with [config.maxConcurrency || 3]. *)
Definition runAllChecks (checkers : list checker_obj) (maxConcurrency : nat)
    (page_name : string) (now : nat) : results :=
  let r0 := mkResults page_name now []
              (mkSummary (List.length checkers) 0 0 0 None) in
  let sortedCheckers := sort_by_priority checkers in
  let concurrency := if maxConcurrency =? 0 then 3 else maxConcurrency in
  let r := process_all r0 sortedCheckers page_name now concurrency in
  let s := res_summary r in
  mkResults (res_pageName r) (res_timestamp r) (checks r)
    (mkSummary (totalChecks s) (passed s) (failed s) (errors s)
       (Some (if 0 <? totalChecks s
              then JSNumber.percentage (passed s) (totalChecks s)
              else 0%Z))).

End Manager.

Arguments mkChecker {Data}.
Arguments name {Data}.
Arguments getPriority {Data}.
Arguments run_method {Data}.
Arguments derived {Data}.
Arguments res_summary {Data}.
Arguments checks {Data}.
Arguments runSingleCheck {Data}.
Arguments processCheckResult {Data}.
Arguments sort_by_priority {Data}.
Arguments runAllChecks {Data}.

End CheckerManager.

(** ** utils/asyncUtils.js: [retry] *)
Module Retry.
Import JS.

Section Loop.
Variables V E : Type.

(** The destructured [options] of [retry].  [maxAttempts] is a number
    like any other, which the loop compares with its counter; the three
    delay parameters are whole numbers of milliseconds. *)
Record options : Type := mkOptions {
  maxAttempts : Q;
  baseDelay : Z;
  maxDelay : Z;
  backoffFactor : Z;
  retryCondition : E -> bool
}.

(** [{ maxAttempts = 3, baseDelay = 1000, maxDelay = 10000,
       backoffFactor = 2, retryCondition = () => true }] *)
Definition default_options : options :=
  mkOptions 3 1000 10000 2 (fun _ => true).

(** What [retry] does to the outside world, in order: it invokes [fn]
    (for the attempt of that number) and it sleeps ([this.delay(ms)]). *)
Inductive effect : Type :=
| Invoke (attempt : nat)
| Delay (ms : Z).

(** [Math.min(baseDelay * Math.pow(backoffFactor, attempt - 1), maxDelay)],
    in whole numbers.  The source computes it in binary64, with the same
    result as long as the parameters are in the range [RetryProps.exact_delays]
    describes. *)
Definition backoff (o : options) (attempt : nat) : Z :=
  Z.min (baseDelay o * backoffFactor o ^ Z.of_nat (attempt - 1)) (maxDelay o).

(** [attempt === maxAttempts] *)
Definition is_last (o : options) (attempt : nat) : bool :=
  Qeq_bool (inject_Z (Z.of_nat attempt)) (maxAttempts o).

(** The number of values of [attempt], counted from 1, for which the
    loop condition [attempt <= maxAttempts] holds: the integer part of
    [maxAttempts]. *)
Definition rounds (o : options) : nat := Z.to_nat (Qfloor (maxAttempts o)).

(** The [for (let attempt = 1; attempt <= maxAttempts; attempt++)] loop,
    entered at [attempt] with [remaining] iterations to go.  [fn n] is how
    the [n]-th invocation of the operation settles.  The loop ends by
    returning the operation's value, or by throwing: the error just
    caught, or [lastError], which is [undefined] ([None]) when the loop
    body never ran. *)
Fixpoint retry_loop (fn : nat -> outcome V E) (o : options)
    (attempt remaining : nat) (lastError : option E) (done : list effect)
  : outcome V (option E) * list effect :=
  match remaining with
  | 0 => (Throw lastError, done)
  | S remaining' =>
      match fn attempt with
      | Return v => (Return v, done ++ [Invoke attempt])
      | Throw error =>
          if negb (retryCondition o error)
          then (Throw (Some error), done ++ [Invoke attempt])
          else if is_last o attempt
          then (Throw (Some error), done ++ [Invoke attempt])
          else retry_loop fn o (S attempt) remaining' (Some error)
                          (done ++ [Invoke attempt; Delay (backoff o attempt)])
      end
  end.

(** [retry(fn, options)] *)
Definition retry (fn : nat -> outcome V E) (o : options)
  : outcome V (option E) * list effect :=
  retry_loop fn o 1 (rounds o) None [].

(** Number of invocations of the operation in a trace. *)
Definition invocations (t : list effect) : nat :=
  List.length (filter (fun e => match e with Invoke _ => true | _ => false end) t).

(** The delays of a trace, in order. *)
Definition delays (t : list effect) : list Z :=
  flat_map (fun e => match e with Delay d => [d] | _ => [] end) t.

End Loop.

Arguments mkOptions {E}.
Arguments maxAttempts {E}.
Arguments baseDelay {E}.
Arguments maxDelay {E}.
Arguments backoffFactor {E}.
Arguments retryCondition {E}.
Arguments default_options {E}.
Arguments backoff {E}.
Arguments is_last {E}.
Arguments rounds {E}.
Arguments retry_loop {V E}.
Arguments retry {V E}.

End Retry.

(** ** utils/asyncUtils.js: [withTimeout] *)
Module WithTimeout.
Import JS.

Section Race.
Variables V E : Type.

Inductive promise (A B : Type) : Type :=
| Pending
| Fulfilled (v : A)
| Rejected (e : B).

(** The error a wrapper can reject with: the operation's own error or
    [new Error(timeoutMessage)]. *)
Inductive raceError : Type :=
| OperationError (e : E)
| TimeoutError (message : string).

(** The three promises of [withTimeout]: the caller's [promise], the
    timer promise, and the [Promise.race] of the two. *)
Record state : Type := mkState {
  operation : promise V E;
  timer : promise unit string;
  wrapper : promise V raceError
}.

(** What can happen after the call, in the order the event loop delivers
    it: the operation settles, or the [setTimeout] callback runs. *)
Inductive event : Type :=
| OperationSettles (o : outcome V E)
| TimerFires.

Definition settle_with (o : outcome V E) : promise V E :=
  match o with
  | Return v => Fulfilled V E v
  | Throw e => Rejected V E e
  end.

Definition adopt (p : promise V E) : promise V raceError :=
  match p with
  | Pending _ _ => Pending _ _
  | Fulfilled _ _ v => Fulfilled _ _ v
  | Rejected _ _ e => Rejected _ _ (OperationError e)
  end.

(** [withTimeout(promise, timeoutMs, timeoutMessage)] at the moment of
    the call: nothing has settled. *)
Definition withTimeout : state :=
  mkState (Pending _ _) (Pending _ _) (Pending _ _).

(** One event.  A promise settles once; the race takes the outcome of
    whichever input settles first and ignores the other. *)
Definition step (timeoutMessage : string) (s : state) (ev : event) : state :=
  match ev with
  | OperationSettles o =>
      match operation s with
      | Pending _ _ =>
          mkState (settle_with o) (timer s)
                  match wrapper s with
                  | Pending _ _ => adopt (settle_with o)
                  | w => w
                  end
      | _ => s
      end
  | TimerFires =>
      match timer s with
      | Pending _ _ =>
          mkState (operation s) (Rejected _ _ timeoutMessage)
                  match wrapper s with
                  | Pending _ _ => Rejected _ _ (TimeoutError timeoutMessage)
                  | w => w
                  end
      | _ => s
      end
  end.

Definition run (timeoutMessage : string) (evs : list event) : state :=
  fold_left (step timeoutMessage) evs withTimeout.

End Race.

Arguments Pending {A B}.
Arguments Fulfilled {A B}.
Arguments Rejected {A B}.
Arguments OperationError {E}.
Arguments TimeoutError {E}.
Arguments operation {V E}.
Arguments timer {V E}.
Arguments wrapper {V E}.
Arguments OperationSettles {V E}.
Arguments TimerFires {V E}.
Arguments settle_with {V E}.
Arguments adopt {V E}.
Arguments withTimeout {V E}.
Arguments step {V E}.
Arguments run {V E}.

End WithTimeout.

(** ** utils/asyncUtils.js: [concurrentLimit] *)
Module ConcurrentLimit.
Import JS.

Section Runner.
Variables V E : Type.

(** A deferred task is given by the way the promise it returns settles;
    when it settles is decided by the event loop (see [event]). *)
Definition task : Type := outcome V E.

(** Where the [async] function stands. *)
Inductive phase : Type :=
| Looping                          (* running the [for] loop *)
| AwaitRace (members : list nat)   (* at [await Promise.race(executing)] *)
| AwaitAll                         (* at [return Promise.all(results)] *)
| Resolved (values : list V)       (* the call fulfilled with an array *)
| Rejected (error : E).            (* the call rejected *)

(** Tasks are named by their index in [tasks].
    - [next]: the index the [for] loop reaches next;
    - [results]: the promises pushed on [results], in order;
    - [executing]: the [Set], in insertion order;
    - [settled]: the task promises that have settled, in that order. *)
Record state : Type := mkState {
  next : nat;
  results : list nat;
  executing : list nat;
  settled : list nat;
  ph : phase
}.

(** What the event loop can run next.
    - [LoopStep]: one iteration of the [for] loop (wrap the task, start
      it, push and add its promise, register [cleanUp], test the size),
      or, past the last task, the call of [Promise.all];
    - [Settle i]: the promise of the started task [i] settles;
    - [CleanUp i]: the [cleanUp] reaction of the settled task [i] runs;
    - [RaceSettled w]: the awaited race was settled by its member [w] and
      the function resumes;
    - [AllFulfilled], [AllRejected w]: [Promise.all] settles. *)
Inductive event : Type :=
| LoopStep
| Settle (i : nat)
| CleanUp (i : nat)
| RaceSettled (w : nat)
| AllFulfilled
| AllRejected (w : nat).

Definition mem (i : nat) (l : list nat) : bool := existsb (Nat.eqb i) l.

Definition remove (i : nat) (l : list nat) : list nat :=
  filter (fun j => negb (j =? i)) l.

(** [if (concurrency <= 0) concurrency = 1] *)
Definition effective (concurrency : Z) : Z :=
  if (concurrency <=? 0)%Z then 1%Z else concurrency.

(** The state when the call starts; an empty task list returns [[]]
    at once. *)
Definition init (tasks : list task) : state :=
  match tasks with
  | [] => mkState 0 [] [] [] (Resolved [])
  | _ => mkState 0 [] [] [] Looping
  end.

Definition is_fulfilled (t : task) : bool :=
  match t with Return _ => true | Throw _ => false end.

(** The values of the tasks named by [idx], in that order; [None] if one
    of them rejects. *)
Fixpoint values_of (tasks : list task) (idx : list nat) : option (list V) :=
  match idx with
  | [] => Some []
  | i :: rest =>
      match nth_error tasks i, values_of tasks rest with
      | Some (Return v), Some vs => Some (v :: vs)
      | _, _ => None
      end
  end.

(** One event, when the event loop can deliver it.
    The reactions of a promise run in the order they were registered:
    [promise.then(cleanUp)] is registered in the iteration that creates
    the promise, before any race can see it, so when a race is settled
    by a fulfilled member that member has already left [executing].
    For a rejected member the [await] throws and the call rejects. *)
Definition step (tasks : list task) (concurrency : Z) (ev : event) (s : state)
  : option state :=
  match ev with
  | LoopStep =>
      match ph s with
      | Looping =>
          if next s <? List.length tasks then
            let i := next s in
            let executing' := executing s ++ [i] in
            Some (mkState (S i) (results s ++ [i]) executing' (settled s)
                    (if (Z.of_nat (List.length executing')
                         >=? effective concurrency)%Z
                     then AwaitRace executing' else Looping))
          else Some (mkState (next s) (results s) (executing s) (settled s)
                             AwaitAll)
      | _ => None
      end
  | Settle i =>
      if (i <? next s) && negb (mem i (settled s))
      then Some (mkState (next s) (results s) (executing s) (settled s ++ [i])
                         (ph s))
      else None
  | CleanUp i =>
      if mem i (settled s) && mem i (executing s)
      then Some (mkState (next s) (results s) (remove i (executing s))
                         (settled s) (ph s))
      else None
  | RaceSettled w =>
      match ph s with
      | AwaitRace members =>
          if mem w members && mem w (settled s) then
            match nth_error tasks w with
            | Some (Return _) =>
                if mem w (executing s) then None
                else Some (mkState (next s) (results s) (executing s)
                                   (settled s) Looping)
            | Some (Throw e) =>
                Some (mkState (next s) (results s) (executing s) (settled s)
                              (Rejected e))
            | None => None
            end
          else None
      | _ => None
      end
  | AllFulfilled =>
      match ph s with
      | AwaitAll =>
          if forallb (fun i => mem i (settled s)) (results s) then
            match values_of tasks (results s) with
            | Some vs =>
                Some (mkState (next s) (results s) (executing s) (settled s)
                              (Resolved vs))
            | None => None
            end
          else None
      | _ => None
      end
  | AllRejected w =>
      match ph s with
      | AwaitAll =>
          if mem w (results s) && mem w (settled s) then
            match nth_error tasks w with
            | Some (Throw e) =>
                Some (mkState (next s) (results s) (executing s) (settled s)
                              (Rejected e))
            | _ => None
            end
          else None
      | _ => None
      end
  end.

(** A run: the events delivered one after the other. *)
Fixpoint exec (tasks : list task) (concurrency : Z) (evs : list event)
    (s : state) : option state :=
  match evs with
  | [] => Some s
  | ev :: rest =>
      match step tasks concurrency ev s with
      | Some s' => exec tasks concurrency rest s'
      | None => None
      end
  end.

(** [concurrentLimit(tasks, concurrency)] under the schedule [evs]. *)
Definition concurrentLimit (tasks : list task) (concurrency : Z)
    (evs : list event) : option state :=
  exec tasks concurrency evs (init tasks).

(** The tasks in flight: started and not yet settled. *)
Definition in_flight (s : state) : list nat :=
  filter (fun i => negb (mem i (settled s))) (seq 0 (next s)).

Definition final (s : state) : bool :=
  match ph s with
  | Resolved _ | Rejected _ => true
  | _ => false
  end.

(** A bound on the number of events still to come. *)
Definition measure (tasks : list task) (s : state) : nat :=
  4 * (List.length tasks - next s)
  + (List.length tasks - List.length (settled s))
  + List.length (executing s)
  + match ph s with
    | AwaitRace _ => 3
    | Looping => 2
    | AwaitAll => 1
    | _ => 0
    end.

End Runner.

Arguments Looping {V E}.
Arguments AwaitRace {V E}.
Arguments AwaitAll {V E}.
Arguments Resolved {V E}.
Arguments Rejected {V E}.
Arguments mkState {V E}.
Arguments next {V E}.
Arguments results {V E}.
Arguments executing {V E}.
Arguments settled {V E}.
Arguments ph {V E}.
Arguments init {V E}.
Arguments is_fulfilled {V E}.
Arguments values_of {V E}.
Arguments step {V E}.
Arguments exec {V E}.
Arguments concurrentLimit {V E}.
Arguments in_flight {V E}.
Arguments final {V E}.
Arguments measure {V E}.

End ConcurrentLimit.

(** ** core/axeScanner.js, core/legacyScanner.js, and
       [TestEngine.runAxeScan] of core/testEngine.js *)
Module Scanner.
Import JS.

(** What [window.axe.run] resolves to; a rule result is named by its
    rule id. *)
Record engineResults : Type := mkEngineResults {
  e_violations : list string;
  e_passes : list string;
  e_incomplete : list string;
  e_inapplicable : list string
}.

(** The scan result of one page: the engine's four arrays, the metadata
    the scanners add, and the tags [runAxeScan] adds ([false] when the
    property is absent). *)
Record axeResults : Type := mkAxeResults {
  violations : list string;
  passes : list string;
  incomplete : list string;
  inapplicable : list string;
  url : string;
  timestamp : nat;
  pageName : string;
  error : option string;
  usedLegacyFallback : bool;
  failedFallback : bool
}.

Definition with_metadata (r : engineResults) (page_name : string) (now : nat)
  : axeResults :=
  mkAxeResults (e_violations r) (e_passes r) (e_incomplete r)
               (e_inapplicable r) page_name now page_name None false false.

(** [{ violations: [], passes: [], incomplete: [], inapplicable: [],
      url, timestamp, pageName, error: error.message }] *)
Definition empty_result (page_name : string) (now : nat)
    (message : option string) (failed : bool) : axeResults :=
  mkAxeResults [] [] [] [] page_name now page_name message false failed.

(** The message of the [TypeError] raised by [results.url = pageName]
    when the page call resolved to [null] or [undefined]. *)
Definition no_results_message : string :=
  "Cannot set properties of undefined (setting 'url')".

(** How the page answers the primary scanner: the result of
    [ensureAxeInjected], of [waitForPageReady], and of the rule engine
    run under [withTimeout]. *)
Record primaryPage : Type := mkPrimaryPage {
  injected : bool;
  ready : outcome unit thrown;
  axeRun : outcome (option engineResults) thrown
}.

(** [AxeScanner.scanPage(page, pageName)]: every failure is turned into
    an empty result carrying [error.message]. *)
Definition AxeScanner_scanPage (p : primaryPage) (page_name : string)
    (now : nat) : outcome (option axeResults) thrown :=
  let body : outcome axeResults thrown :=
    if negb (injected p) then Throw (AnError "Failed to inject axe-core")
    else and_then (ready p) (fun _ =>
         and_then (axeRun p) (fun results =>
           match results with
           | Some r => Return (with_metadata r page_name now)
           | None => Throw (AnError no_results_message)
           end)) in
  match try_catch body
          (fun error =>
             Return (E:=thrown)
                    (empty_result page_name now (message_of error) false)) with
  | Return r => Return (Some r)
  | Throw e => Throw e
  end.

(** How the page answers the legacy scanner: the two waits, the
    injection, and the unrestricted rule engine run. *)
Record legacyPage : Type := mkLegacyPage {
  loadState : outcome unit thrown;
  injectAxe : outcome unit thrown;
  legacyRun : outcome (option engineResults) thrown
}.

(** [LegacyScanner.scanPage(page, pageName)]: logs and rethrows. *)
Definition LegacyScanner_scanPage (p : legacyPage) (page_name : string)
    (now : nat) : outcome axeResults thrown :=
  try_catch
    (and_then (loadState p) (fun _ =>
     and_then (injectAxe p) (fun _ =>
     and_then (legacyRun p) (fun results =>
       match results with
       | Some r => Return (with_metadata r page_name now)
       | None => Throw (AnError no_results_message)
       end))))
    (fun error => Throw error).

Definition tag_legacy (r : axeResults) : axeResults :=
  mkAxeResults (violations r) (passes r) (incomplete r) (inapplicable r)
               (url r) (timestamp r) (pageName r) (error r) true
               (failedFallback r).

(** [TestEngine.runAxeScan(window, pageConfig)].  [primary] is how
    [this.axeScanner.scanPage(...)] settles ([Return None]: it resolved
    to [null] or [undefined]).  The outer [catch] arm only logs what it
    caught; the inner one stores [legacyError.message]. *)
Definition runAxeScan (primary : outcome (option axeResults) thrown)
    (legacy : legacyPage) (page_name : string) (now : nat)
  : outcome axeResults string :=
  try_catch
    (and_then primary (fun modernResult =>
       match modernResult with
       | None => Throw (AnError "Modern axe scan returned no data")
       | Some r =>
           match error r with
           | Some message =>
               if truthy_string message then Throw (AnError message)
               else Return r
           | None => Return r
           end
       end))
    (fun _ =>
       try_catch
         (and_then (LegacyScanner_scanPage legacy page_name now)
                   (fun legacyResult => Return (tag_legacy legacyResult)))
         (fun legacyError =>
            Return (empty_result page_name now (message_of legacyError)
                                 true))).

End Scanner.

(** ** core/testEngine.js *)
Module TestEngine.
Import JS.

Section Engine.
(** The payload type of the extra checkers' results. *)
Variable Data : Type.

(** A page to scan: [{ name, selector, options: { waitForNavigation } }]. *)
Record pageConfig : Type := mkPageConfig {
  name : string;
  selector : string;
  waitForNavigation : bool
}.

(** An entry of [testResults.errors], as [logError] builds it (the stack
    trace is left out). *)
Record errorRecord : Type := mkError {
  phase : string;
  message : string;
  err_timestamp : nat;
  err_page : option string;
  err_selector : option string
}.

Record warningRecord : Type := mkWarning {
  w_type : string;
  w_page : option string;
  w_file : option string;
  w_message : string
}.

(** What [reportManager.generateAllReports] resolves to. *)
Record reportResults : Type := mkReportResults {
  rr_success : bool;
  rr_failed : nat;
  rr_reports : list (string * string)
}.

(** [this.testResults] *)
Record testResults : Type := mkTestResults {
  timestamp : option nat;
  axeResults : list Scanner.axeResults;
  extraResults : list (CheckerManager.results Data);
  screenshots : list string;
  errors : list errorRecord;
  warnings : list warningRecord;
  duration : option nat;
  success : option bool;
  reports : option (list (string * string))
}.

(** The part of the configuration the engine reads, with its checkers. *)
Record config : Type := mkConfig {
  exePath : string;
  reportDir : string;
  processName : string;
  maxConcurrency : nat;
  pagesToScan : list pageConfig;
  checkers : list (CheckerManager.checker_obj Data)
}.

(** How the application answers when a page is visited. *)
Record pageVisit : Type := mkPageVisit {
  click : outcome unit string;           (* asyncUtils.safeClick *)
  pageReady : outcome unit string;       (* asyncUtils.waitForPageReady *)
  emergencyScreenshot : option string;   (* appManager.emergencyScreenshot *)
  primaryScan : outcome (option Scanner.axeResults) thrown;
                                         (* axeScanner.scanPage *)
  legacyScan : Scanner.legacyPage
}.

(** How the environment answers during one suite. *)
Record application : Type := mkApplication {
  now : nat;                                      (* Date.now() *)
  elapsed : nat;                                  (* the suite timer *)
  launchApp : outcome unit string;
  getMainWindow : outcome unit string;
  visit : pageConfig -> pageVisit;
  generateAllReports : outcome reportResults string;
  closeApp : outcome unit string
}.

(** The engine: [this.testResults] and [this.isRunning]. *)
Record engine : Type := mkEngine {
  testResults_of : testResults;
  isRunning : bool
}.

(** The state the constructor leaves. *)
Definition new_engine : engine :=
  mkEngine (mkTestResults None [] [] [] [] [] None None None) false.

Definition set_errors (es : list errorRecord) (t : testResults) : testResults :=
  mkTestResults (timestamp t) (axeResults t) (extraResults t) (screenshots t)
                es (warnings t) (duration t) (success t) (reports t).

(** [logError(phase, error, context)] *)
Definition logError (app : application) (ph msg : string)
    (page sel : option string) (t : testResults) : testResults :=
  set_errors (errors t ++ [mkError ph msg (now app) page sel]) t.

Definition push_warning (w : warningRecord) (t : testResults) : testResults :=
  mkTestResults (timestamp t) (axeResults t) (extraResults t) (screenshots t)
                (errors t) (warnings t ++ [w]) (duration t) (success t)
                (reports t).

Definition push_axeResult (r : Scanner.axeResults) (t : testResults)
  : testResults :=
  mkTestResults (timestamp t) (axeResults t ++ [r]) (extraResults t)
                (screenshots t) (errors t) (warnings t) (duration t)
                (success t) (reports t).

(** [this.testResults.extraResults.push(extraResult)].  The object
    [runAllChecks] returns has no [keyboardFocus] property, so the
    screenshot collection that follows in the source never adds
    anything. *)
Definition push_extraResult (r : CheckerManager.results Data)
    (t : testResults) : testResults :=
  mkTestResults (timestamp t) (axeResults t) (extraResults t ++ [r])
                (screenshots t) (errors t) (warnings t) (duration t)
                (success t) (reports t).

(** The [try] block of [navigateToPage]. *)
Definition navigate (p : pageConfig) (v : pageVisit) : outcome unit string :=
  and_then (click v) (fun _ =>
    if waitForNavigation p then pageReady v else Return tt).

(** Where a page task stands.  The task is [processPage] together with
    the handler its caller attaches ([catch] in the sequential loop,
    [.catch] in the concurrent one).
    - [Queued]: not started;
    - [NavFailed e]: [navigateToPage] is throwing [e], its emergency
      warning recorded;
    - [Rejected e]: [processPage] has logged [e] and is rethrowing it;
    - [AtScan]: navigation done, [runAxeScan] awaited;
    - [AtExtra]: the scan result pushed, [runExtraChecks] awaited;
    - [Finished]: the extra result pushed, [processPage] resolved;
    - [Failed e]: the caller's handler has logged [e]. *)
Inductive pagePc : Type :=
| Queued
| NavFailed (e : string)
| Rejected (e : string)
| AtScan
| AtExtra
| Finished
| Failed (e : string).

(** One step of a page task, from one suspension point to the next. *)
Definition advance_page (cfg : config) (app : application) (p : pageConfig)
    (pc : pagePc) (t : testResults) : pagePc * testResults :=
  match pc with
  | Queued =>
      match navigate p (visit app p) with
      | Return _ => (AtScan, t)
      | Throw e =>
          (NavFailed e,
           match emergencyScreenshot (visit app p) with
           | Some file =>
               push_warning
                 (mkWarning "navigation_screenshot" (Some (name p)) (Some file)
                    "Emergency screenshot taken during navigation failure") t
           | None => t
           end)
      end
  | NavFailed e =>
      (Rejected e, logError app "page_processing" e (Some (name p))
                            (Some (selector p)) t)
  | AtScan =>
      match Scanner.runAxeScan (primaryScan (visit app p))
                               (legacyScan (visit app p)) (name p) (now app) with
      | Return axeResult => (AtExtra, push_axeResult axeResult t)
      | Throw e =>
          (Rejected e, logError app "page_processing" e (Some (name p))
                                (Some (selector p)) t)
      end
  | AtExtra =>
      (Finished,
       push_extraResult
         (CheckerManager.runAllChecks (checkers cfg) (maxConcurrency cfg)
                                      (name p) (now app)) t)
  | Rejected e => (Failed e, logError app "page_scan" e (Some (name p)) None t)
  | Finished => (Finished, t)
  | Failed e => (Failed e, t)
  end.

(** The page tasks of a scanning phase and the results they share. *)
Record scanState : Type := mkScanState {
  pcs : list pagePc;
  shared : testResults
}.

(** The task of page [i] takes its next step. *)
Fixpoint advance_at (cfg : config) (app : application) (i : nat)
    (pages : list pageConfig) (ps : list pagePc) (t : testResults)
  : list pagePc * testResults :=
  match i, pages, ps with
  | 0, p :: _, pc :: ps' =>
      let (pc', t') := advance_page cfg app p pc t in (pc' :: ps', t')
  | S j, _ :: pages', pc :: ps' =>
      let (ps'', t') := advance_at cfg app j pages' ps' t in (pc :: ps'', t')
  | _, _, _ => (ps, t)
  end.

Definition advance (cfg : config) (app : application) (s : scanState)
    (i : nat) : scanState :=
  let (ps, t) := advance_at cfg app i (pagesToScan cfg) (pcs s) (shared s) in
  mkScanState ps t.

(** A page task runs from start to end in four steps at most. *)
Definition run_to_end (cfg : config) (app : application) (s : scanState)
    (i : nat) : scanState :=
  fold_left (advance cfg app) [i; i; i; i] s.

Definition start_scan (cfg : config) (t : testResults) : scanState :=
  mkScanState (map (fun _ => Queued) (pagesToScan cfg)) t.

(** [for (const page of pages) { try { await this.processPage(...) }
      catch (error) { ...; if (!continueOnError) throw error; } }]
    from page [i] on, [remaining] pages to go. *)
Fixpoint sequential (cfg : config) (app : application) (continueOnError : bool)
    (i remaining : nat) (s : scanState) : outcome unit string * scanState :=
  match remaining with
  | 0 => (Return tt, s)
  | S remaining' =>
      let s' := run_to_end cfg app s i in
      match nth_error (pcs s') i with
      | Some (Failed e) =>
          if continueOnError
          then sequential cfg app continueOnError (S i) remaining' s'
          else (Throw e, s')
      | _ => sequential cfg app continueOnError (S i) remaining' s'
      end
  end.

(** [await asyncUtils.concurrentLimit(pageTasks, concurrency)]: the page
    tasks interleave as [schedule] says (the index of the task that
    takes the next step); the call resolves when every task has ended,
    so the tasks the schedule leaves unfinished are run to their end. *)
Definition concurrent (cfg : config) (app : application) (schedule : list nat)
    (s : scanState) : scanState :=
  fold_left (run_to_end cfg app)
            (seq 0 (List.length (pagesToScan cfg)))
            (fold_left (advance cfg app) schedule s).

(** The options of [runTestSuite] the engine reads, and the interleaving
    of the page tasks when they run concurrently. *)
Record options : Type := mkOptions {
  concurrency : option nat;
  continueOnError : bool;
  schedule : list nat
}.

(** [validateConfiguration()]; [validateReportData({})] is always valid. *)
Definition validateConfiguration (cfg : config) : bool :=
  truthy_string (exePath cfg) && truthy_string (reportDir cfg)
  && truthy_string (processName cfg)
  && negb (List.length (pagesToScan cfg) =? 0).

(** [setupPhase(options)].  Between the validation and the launch,
    [cleanupProcesses], [ensureDir] and [cleanOldFiles] catch every error
    of their own and change nothing the engine reads. *)
Definition setupPhase (cfg : config) (app : application) (t : testResults)
  : outcome unit string * testResults :=
  let body :=
    if negb (validateConfiguration cfg)
    then Throw "Configuration validation failed"
    else launchApp app in
  match body with
  | Return _ => (Return tt, t)
  | Throw e => (Throw e, logError app "setup" e None None t)
  end.

(** [scanningPhase(options)] *)
Definition scanningPhase (cfg : config) (app : application) (o : options)
    (t : testResults) : outcome unit string * testResults :=
  let pages := pagesToScan cfg in
  let conc :=
    match concurrency o with
    | Some c => c
    | None => if maxConcurrency cfg =? 0 then 1 else maxConcurrency cfg
    end in
  let (body, t') :=
    if List.length pages =? 0
    then (Throw "No pages configured for scanning", t)
    else
      match getMainWindow app with
      | Throw e => (Throw e, t)
      | Return _ =>
          if conc =? 1 then
            let (r, s) := sequential cfg app (continueOnError o) 0
                                     (List.length pages) (start_scan cfg t) in
            (r, shared s)
          else (Return tt, shared (concurrent cfg app (schedule o)
                                              (start_scan cfg t)))
      end in
  match body with
  | Return _ => (Return tt, t')
  | Throw e => (Throw e, logError app "scanning" e None None t')
  end.

(** [reportingPhase(options)]: never throws. *)
Definition reportingPhase (app : application) (t : testResults) : testResults :=
  match generateAllReports app with
  | Return reportResults =>
      if rr_success reportResults
      then mkTestResults (timestamp t) (axeResults t) (extraResults t)
                         (screenshots t) (errors t) (warnings t) (duration t)
                         (success t) (Some (rr_reports reportResults))
      else push_warning
             (mkWarning "report_generation" None None
                (NilEmpty.string_of_uint (Nat.to_uint (rr_failed reportResults))
                 ++ " report(s) failed to generate")%string) t
  | Throw e => logError app "reporting" e None None t
  end.

(** [cleanupPhase(options)]: never throws. *)
Definition cleanupPhase (app : application) (t : testResults) : testResults :=
  match closeApp app with
  | Return _ => t
  | Throw e => logError app "cleanup" e None None t
  end.

Definition finish (app : application) (ok : bool) (t : testResults)
  : testResults :=
  mkTestResults (timestamp t) (axeResults t) (extraResults t) (screenshots t)
                (errors t) (warnings t) (Some (elapsed app)) (Some ok)
                (reports t).

(** [runTestSuite(options)]: the value it settles with and the engine
    afterwards. *)
Definition runTestSuite (cfg : config) (app : application) (o : options)
    (e : engine) : outcome testResults string * engine :=
  if isRunning e then (Throw "Test suite is already running", e)
  else
    let t0 := testResults_of e in
    let t1 := mkTestResults (Some (now app)) (axeResults t0) (extraResults t0)
                (screenshots t0) (errors t0) (warnings t0) (duration t0)
                (success t0) (reports t0) in
    let (phases, t2) :=
      match setupPhase cfg app t1 with
      | (Throw err, t) => (Throw err, t)
      | (Return _, t) =>
          match scanningPhase cfg app o t with
          | (Throw err, t') => (Throw err, t')
          | (Return _, t') =>
              (Return tt, cleanupPhase app (reportingPhase app t'))
          end
      end in
    let t3 :=
      match phases with
      | Return _ => finish app (List.length (errors t2) =? 0) t2
      | Throw err =>
          let t := finish app false t2 in
          set_errors (errors t ++ [mkError "unknown" err (now app) None None]) t
      end in
    (Return t3, mkEngine t3 false).

End Engine.

Arguments mkTestResults {Data}.
Arguments timestamp {Data}.
Arguments axeResults {Data}.
Arguments extraResults {Data}.
Arguments screenshots {Data}.
Arguments errors {Data}.
Arguments warnings {Data}.
Arguments duration {Data}.
Arguments success {Data}.
Arguments reports {Data}.
Arguments mkConfig {Data}.
Arguments exePath {Data}.
Arguments reportDir {Data}.
Arguments processName {Data}.
Arguments maxConcurrency {Data}.
Arguments pagesToScan {Data}.
Arguments checkers {Data}.
Arguments mkEngine {Data}.
Arguments testResults_of {Data}.
Arguments isRunning {Data}.
Arguments new_engine {Data}.
Arguments logError {Data}.
Arguments push_warning {Data}.
Arguments push_axeResult {Data}.
Arguments push_extraResult {Data}.
Arguments advance_page {Data}.
Arguments mkScanState {Data}.
Arguments pcs {Data}.
Arguments shared {Data}.
Arguments advance_at {Data}.
Arguments advance {Data}.
Arguments run_to_end {Data}.
Arguments start_scan {Data}.
Arguments sequential {Data}.
Arguments concurrent {Data}.
Arguments validateConfiguration {Data}.
Arguments setupPhase {Data}.
Arguments scanningPhase {Data}.
Arguments reportingPhase {Data}.
Arguments cleanupPhase {Data}.
Arguments runTestSuite {Data}.

End TestEngine.

(** ** checkers/accessibilityTreeChecker.js: language, headings, summary *)
Module AccessibilityTree.
Import JS.
Import AccessibilityTreeChecker.

(** [{ declared, hasDeclaration, validFormat, issues: [] }];
    [hasDeclaration] and [validFormat] up to truthiness (the source
    leaves the empty string there when [lang] is empty). *)
Record languageReport : Type := mkLanguage {
  declared : string;
  hasDeclaration : bool;
  validFormat : bool;
  lang_issues : list string
}.

Definition is_lower (c : ascii) : bool :=
  let n := nat_of_ascii c in (97 <=? n) && (n <=? 122).

Definition is_upper (c : ascii) : bool :=
  let n := nat_of_ascii c in (65 <=? n) && (n <=? 90).

(** The end of [/^[a-z]{2,3}(-[A-Z]{2})?$/]: nothing, or a hyphen and
    two capitals. *)
Definition region_tail (s : string) : bool :=
  match s with
  | EmptyString => true
  | String d (String u1 (String u2 EmptyString)) =>
      Ascii.eqb d "-" && is_upper u1 && is_upper u2
  | _ => false
  end.

(** [/^[a-z]{2,3}(-[A-Z]{2})?$/.test(lang)] *)
Definition language_tag (lang : string) : bool :=
  match lang with
  | String a (String b rest) =>
      is_lower a && is_lower b
      && (match rest with
          | String c rest' => is_lower c && region_tail rest'
          | EmptyString => false
          end
          || region_tail rest)
  | _ => false
  end.

(** [checkLanguage(lang)] *)
Definition checkLanguage (lang : string) : languageReport :=
  let hasLang := truthy_string lang && negb (trim_is_empty lang) in
  let isValidFormat := hasLang && language_tag lang in
  mkLanguage lang hasLang isValidFormat [].

(** The entry [extractHeadings] pushes: [{ level, name, text }]. *)
Record heading : Type := mkHeading {
  h_level : Z;
  h_name : option string;
  h_text : string
}.

(** [axTree.name || ''] *)
Definition name_or_empty (n : option string) : string :=
  match n with Some s => s | None => "" end.

(** [extractHeadings(axTree, result)]: the same walk as
    [extractLandmarks], keeping the nodes with the role [heading] and a
    truthy [level]. *)
Fixpoint extractHeadings (axTree : axNode) (result : list heading)
  : list heading :=
  match axTree with
  | AxNode role name level children =>
      let result1 :=
        match role, level with
        | Some r, Some l =>
            if String.eqb r "heading" && negb (l =? 0)%Z
            then result ++ [mkHeading l name (name_or_empty name)]
            else result
        | _, _ => result
        end in
      match children with
      | Some cs => fold_left (fun acc child => extractHeadings child acc) cs result1
      | None => result1
      end
  end.

Definition extractHeadings_root (axTree : option axNode) : list heading :=
  match axTree with
  | None => []
  | Some t => extractHeadings t []
  end.

(** [{ type: 'level-skip', index, from, to, description }] *)
Record orderIssue : Type := mkOrderIssue {
  oi_type : string;
  oi_index : nat;
  oi_from : Z;
  oi_to : Z;
  oi_description : string
}.

(** An integer inside a template literal. *)
Definition number_to_string (z : Z) : string :=
  NilEmpty.string_of_int (Z.to_int z).

(** The [for (let i = 1; i < headings.length; i++)] loop of
    [checkHeadingOrder], at index [i] with [previous = headings[i - 1]]
    and [rest] the headings from index [i] on. *)
Fixpoint heading_order_loop (i : nat) (previous : heading)
    (rest : list heading) (issues : list orderIssue) : list orderIssue :=
  match rest with
  | [] => issues
  | current :: rest' =>
      heading_order_loop (S i) current rest'
        (if (h_level previous + 1 <? h_level current)%Z
         then issues
              ++ [mkOrderIssue "level-skip" i (h_level previous)
                    (h_level current)
                    ("Heading level skips from "
                     ++ number_to_string (h_level previous) ++ " to "
                     ++ number_to_string (h_level current))]
         else issues)
  end.

(** [checkHeadingOrder(headings)] *)
Definition checkHeadingOrder (headings : list heading) : list orderIssue :=
  match headings with
  | [] => []
  | first :: rest => heading_order_loop 1 first rest []
  end.

(** [calculateHeadingScore(headings, skippedLevels, orderIssues)] *)
Definition calculateHeadingScore {B C : Type} (headings : list heading)
    (skippedLevels : list B) (orderIssues : list C) : Z :=
  let score := 100%Z in
  let score :=
    if negb (existsb (fun h => (h_level h =? 1)%Z) headings)
    then (score - 30)%Z else score in
  let score := (score - Z.of_nat (List.length orderIssues) * 15)%Z in
  let score := (score - Z.of_nat (List.length skippedLevels) * 10)%Z in
  let score :=
    if (3 <=? List.length headings) && (List.length orderIssues =? 0)
    then (score + 10)%Z else score in
  Z.max 0 (Z.min 100 score).

(** [[...new Set(levels)]]: the first occurrences, in order. *)
Fixpoint unique (seen : list Z) (levels : list Z) : list Z :=
  match levels with
  | [] => []
  | l :: rest =>
      if existsb (Z.eqb l) seen then unique seen rest
      else l :: unique (l :: seen) rest
  end.

(** [.sort()] without a comparator orders the numbers as strings. *)
Fixpoint insert_as_string (x : Z) (sorted : list Z) : list Z :=
  match sorted with
  | [] => [x]
  | y :: rest =>
      if String.ltb (number_to_string x) (number_to_string y)
      then x :: y :: rest
      else y :: insert_as_string x rest
  end.

Definition sort_as_strings (l : list Z) : list Z :=
  fold_left (fun sorted x => insert_as_string x sorted) l [].

(** The [for (let i = 2; i <= 6; i++)] loop of [checkHeadings]: [i] is
    pushed when it is a level of the page and no level is below it. *)
Definition skipped (levels : list Z) : list Z :=
  filter (fun i =>
            existsb (Z.eqb i) levels
            && (List.length (filter (fun l => (l <? i)%Z) levels) =? 0)
            && (1 <? i)%Z)
         [2; 3; 4; 5; 6]%Z.

Record headingReport : Type := mkHeadingReport {
  hd_headings : list heading;
  hd_levels : list Z;
  skippedLevels : list Z;
  orderIssues : list orderIssue;
  hasH1 : bool;
  totalCount : nat;
  hd_score : Z
}.

(** [checkHeadings(page, axTree)]; as in [checkLandmarks] the [catch]
    arm is unreachable, every step being pure. *)
Definition checkHeadings (axTree : option axNode) : headingReport :=
  let headings := extractHeadings_root axTree in
  let levels := map h_level headings in
  let uniqueLevels := sort_as_strings (unique [] levels) in
  let skippedLevels := skipped levels in
  let headingOrderIssues := checkHeadingOrder headings in
  mkHeadingReport headings uniqueLevels skippedLevels headingOrderIssues
    (existsb (Z.eqb 1) levels) (List.length headings)
    (calculateHeadingScore headings skippedLevels headingOrderIssues).

(** An integer as a JavaScript number (exact below 2^53). *)
Definition of_Z (z : Z) : float :=
  if (z <? 0)%Z then PrimFloat.opp (JSNumber.of_nat (Z.abs_nat z))
  else JSNumber.of_nat (Z.abs_nat z).

(** [{ overallScore, issues, issueCount, components }] *)
Record treeSummary : Type := mkTreeSummary {
  overallScore : Z;
  s_issues : list string;
  issueCount : nat;
  components : nat
}.

(** [generateSummary(results)] on the three reports of [results], each
    [null] when absent. *)
Definition generateSummary (language : option languageReport)
    (landmarks : option landmarkReport) (headings : option headingReport)
  : treeSummary :=
  let issues : list string := [] in
  let totalScore := 0%Z in
  let componentCount := 0 in
  let '(issues, totalScore, componentCount) :=
    match language with
    | Some l =>
        if negb (hasDeclaration l)
        then (issues ++ ["missing-language"], totalScore, S componentCount)
        else (issues,
              (totalScore + (if validFormat l then 100 else 50))%Z,
              S componentCount)
    | None => (issues, totalScore, componentCount)
    end in
  let '(issues, totalScore, componentCount) :=
    match landmarks with
    | Some l =>
        let issues :=
          if 0 <? List.length (missing l)
          then issues ++ ["missing-landmarks"] else issues in
        let issues :=
          if 0 <? List.length (AccessibilityTreeChecker.issues l)
          then issues ++ ["landmark-issues"] else issues in
        (issues, (totalScore + score l)%Z, S componentCount)
    | None => (issues, totalScore, componentCount)
    end in
  let '(issues, totalScore, componentCount) :=
    match headings with
    | Some h =>
        let issues :=
          if negb (hasH1 h) then issues ++ ["missing-h1"] else issues in
        let issues :=
          if 0 <? List.length (orderIssues h)
          then issues ++ ["heading-order-issues"] else issues in
        (issues, (totalScore + hd_score h)%Z, S componentCount)
    | None => (issues, totalScore, componentCount)
    end in
  mkTreeSummary
    (if 0 <? componentCount
     then JSNumber.Math_round
            (PrimFloat.div (of_Z totalScore) (JSNumber.of_nat componentCount))
     else 0%Z)
    issues (List.length issues) componentCount.

(** How the page answers [executeCheck]: the accessibility snapshot
    ([null] for a page without one) and [document.documentElement.lang
    || '']. *)
Record treePage : Type := mkTreePage {
  snapshot : outcome (option axNode) string;
  documentLang : outcome string string
}.

(** The options of [executeCheck]; [checkLang] is destructured and never
    read. *)
Record treeOptions : Type := mkTreeOptions {
  checkLang : bool;
  checkLandmarks_opt : bool;
  checkHeadings_opt : bool;
  detailedTree : bool
}.

Definition default_treeOptions : treeOptions :=
  mkTreeOptions true true true false.

(** The two shapes of [results.summary]: the one [generateSummary]
    builds and [{ issues: 1, score: 0 }] of the [catch] arm. *)
Inductive summaryShape : Type :=
| Generated (s : treeSummary)
| Fallback (issues : nat) (score : Z).

Record treeResults : Type := mkTreeResults {
  tr_error : option string;
  tr_language : option languageReport;
  tr_landmarks : option landmarkReport;
  tr_headings : option headingReport;
  tr_tree : option axNode;
  tr_summary : summaryShape
}.

(** [executeCheck(page, pageName, options)] *)
Definition executeCheck (p : treePage) (o : treeOptions) : treeResults :=
  let body :=
    and_then (snapshot p) (fun axTree =>
    and_then (documentLang p) (fun lang =>
      let language := Some (checkLanguage lang) in
      let landmarks :=
        if checkLandmarks_opt o then Some (checkLandmarks axTree) else None in
      let headings :=
        if checkHeadings_opt o then Some (checkHeadings axTree) else None in
      Return (mkTreeResults None language landmarks headings
                (if detailedTree o then axTree else None)
                (Generated (generateSummary language landmarks headings))))) in
  match body with
  | Return results => results
  | Throw message =>
      mkTreeResults (Some message) None None None None (Fallback 1 0)
  end.

End AccessibilityTree.


(** ** checkers/keyboardFocusChecker.js: [identifyProblems] *)
Module KeyboardFocusChecker.
Import JS.

(** An entry of [results.elements], as the focus script builds it.
    [focused] is [true] or [false], or [null] for an element whose check
    threw; such an entry has no [ariaLabel] and no [text]. *)
Record element : Type := mkElement {
  tagName : string;
  ariaLabel : option string;
  text : option string;
  focused : option bool;
  hasVisibleFocus : bool;
  selector : option string
}.

(** [{ index, element, issues, severity }] *)
Record problem : Type := mkProblem {
  pr_index : nat;
  pr_element : element;
  pr_issues : list string;
  pr_severity : string
}.

(** [calculateSeverity(issues)] *)
Definition calculateSeverity (issues : list string) : string :=
  if includes issues "not-focusable" then "critical"
  else if includes issues "no-visible-focus" then "high"
  else if includes issues "missing-label" then "medium"
  else "low".

(** The three checks of [identifyProblems] on one element. *)
Definition element_issues (el : element) : list string :=
  let issues : list string := [] in
  let issues :=
    match focused el with
    | Some false => issues ++ ["not-focusable"]
    | _ => issues
    end in
  let issues :=
    match focused el with
    | Some true =>
        if negb (hasVisibleFocus el) then issues ++ ["no-visible-focus"]
        else issues
    | _ => issues
    end in
  let issues :=
    if negb (truthy (ariaLabel el)) && negb (truthy (text el))
    then issues ++ ["missing-label"]
    else issues in
  issues.

(** [elements.forEach((el, index) => ...)], from [index] on. *)
Fixpoint identify_loop (index : nat) (elements : list element)
    (problems : list problem) : list problem :=
  match elements with
  | [] => problems
  | el :: rest =>
      let issues := element_issues el in
      identify_loop (S index) rest
        (if 0 <? List.length issues
         then problems
              ++ [mkProblem index el issues (calculateSeverity issues)]
         else problems)
  end.

(** [identifyProblems(elements)] *)
Definition identifyProblems (elements : list element) : list problem :=
  identify_loop 0 elements [].

End KeyboardFocusChecker.

(** ** checkers/colorContrastChecker.js *)
Module ColorContrastChecker.
Import JS.
Import BaseChecker.

Section Contrast.
(** What [description.match(/contrast ratio of ([\d.]+)/)] and
    [parseFloat] make of the description of a rule result: [None] when
    the description holds no ratio, else the number read (possibly NaN). *)
Variable contrast_ratio : string -> option float.

(** [classifySeverity(violation)] *)
Definition classifySeverity (violation : string) : string :=
  match contrast_ratio violation with
  | Some ratio =>
      if PrimFloat.ltb ratio 3%float then "critical"
      else if PrimFloat.ltb ratio 4.5%float then "high"
      else if PrimFloat.ltb ratio 7%float then "medium"
      else "medium"
  | None => "medium"
  end.

(** [{ error, violations, passes, totalViolations, totalPasses }]; each
    violation with the [severity] set on it. *)
Record contrastResults : Type := mkContrastResults {
  cc_error : option string;
  cc_violations : list (string * string);
  cc_passes : list string;
  totalViolations : nat;
  totalPasses : nat
}.

(** The message of the [TypeError] raised by [results.violations] when
    the scanner resolved to [null] or [undefined]. *)
Definition no_scan_message : string :=
  "Cannot read properties of undefined (reading 'violations')".

(** [executeCheck(page, pageName, options)]; [scan] is how
    [this.axeScanner.scanTargeted(...)], that is [scanPage] restricted to
    the rule [color-contrast], settles. *)
Definition executeCheck (scan : outcome (option Scanner.axeResults) thrown)
  : contrastResults :=
  let body : outcome contrastResults thrown :=
    and_then scan (fun results =>
      match results with
      | Some r =>
          Return (mkContrastResults None
                    (map (fun v => (v, classifySeverity v))
                         (Scanner.violations r))
                    (Scanner.passes r)
                    (List.length (Scanner.violations r))
                    (List.length (Scanner.passes r)))
      | None => Throw (AnError no_scan_message)
      end) in
  match body with
  | Return processedResults => processedResults
  | Throw error => mkContrastResults (message_of error) [] [] 0 0
  end.

(** The checker as the manager registers it: [BaseChecker.run] around
    [executeCheck], with the priority 1.  [p] is how the page answers the
    scanner. *)
Definition checker (p : Scanner.primaryPage) (now : nat)
  : CheckerManager.checker_obj contrastResults :=
  CheckerManager.derived "ColorContrastChecker" 1
    (fun page_name =>
       let r := executeCheck (Scanner.AxeScanner_scanPage p page_name now) in
       Return (Some (mkOutput (cc_error r) r))).

End Contrast.

End ColorContrastChecker.

(** ** checkers/checkerManager.js: the registry *)
Module CheckerRegistry.
Import JS.
Import BaseChecker.
Import CheckerManager.

Section Registry.
Variable Data : Type.

(** [runSpecificChecks(checkerNames, page, pageName, options)]: the
    results, or [{ error: 'No matching checkers found' }]. *)
Definition runSpecificChecks (checkers : list (checker_obj Data))
    (checkerNames : list string) (page_name : string) (now : nat)
  : results Data + string :=
  let targetCheckers :=
    filter (fun c => includes checkerNames (name c)) checkers in
  if List.length targetCheckers =? 0
  then inr "No matching checkers found"
  else
    let r0 := mkResults Data page_name now []
                (mkSummary (List.length targetCheckers) 0 0 0 None) in
    let r := fold_left
               (fun acc c =>
                  processCheckResult acc (name c)
                                     (runSingleCheck c page_name now))
               targetCheckers r0 in
    let s := res_summary r in
    inl (mkResults Data (res_pageName Data r) (res_timestamp Data r) (checks r)
           (mkSummary (totalChecks s) (passed s) (failed s) (errors s)
              (Some (if 0 <? totalChecks s
                     then JSNumber.percentage (passed s) (totalChecks s)
                     else 0%Z)))).

(** [getChecker(name)]: the first checker of that name, or [null]. *)
Definition getChecker (checkers : list (checker_obj Data)) (n : string)
  : option (checker_obj Data) :=
  find (fun c => String.eqb (name c) n) checkers.

(** What [addChecker] may be given: nothing, an object without a [run]
    function, or a checker. *)
Inductive candidate : Type :=
| Nothing
| WithoutRun (n : string)
| Checker (c : checker_obj Data).

(** [addChecker(checker)] *)
Definition addChecker (checker : candidate)
    (checkers : list (checker_obj Data)) : list (checker_obj Data) :=
  match checker with
  | Checker c => checkers ++ [c]
  | _ => checkers
  end.

(** [removeChecker(name)]: [findIndex], then [splice(index, 1)]. *)
Fixpoint removeChecker (n : string) (checkers : list (checker_obj Data))
  : bool * list (checker_obj Data) :=
  match checkers with
  | [] => (false, [])
  | c :: rest =>
      if String.eqb (name c) n then (true, rest)
      else let (found, rest') := removeChecker n rest in (found, c :: rest')
  end.

End Registry.

Arguments runSpecificChecks {Data}.
Arguments getChecker {Data}.
Arguments Nothing {Data}.
Arguments WithoutRun {Data}.
Arguments Checker {Data}.
Arguments addChecker {Data}.
Arguments removeChecker {Data}.

End CheckerRegistry.


(** ** More of JavaScript: strings *)
Module JSString.

(** [s.includes(sub)] *)
Fixpoint string_includes (s sub : string) : bool :=
  String.prefix sub s
  || match s with
     | EmptyString => false
     | String _ s' => string_includes s' sub
     end.

Definition lower (c : ascii) : ascii :=
  let n := nat_of_ascii c in
  if (65 <=? n) && (n <=? 90) then ascii_of_nat (n + 32) else c.

(** [s.toLowerCase()], on the letters A to Z. *)
Fixpoint toLowerCase (s : string) : string :=
  match s with
  | EmptyString => EmptyString
  | String c s' => String (lower c) (toLowerCase s')
  end.

End JSString.

(** ** utils/asyncUtils.js: [poll] *)
Module Poll.
Import JS.

Section Loop.
Variable E : Type.

(** [{ interval = 100, timeout = 10000,
       timeoutMessage = 'Polling timed out' }] *)
Record options : Type := mkOptions {
  interval : Z;
  timeout : Z;
  timeoutMessage : string
}.

Definition default_options : options :=
  mkOptions 100 10000 "Polling timed out".

(** What [poll] does, in order: it calls [conditionFn] (for the [n]-th
    time, from 0) and it sleeps. *)
Inductive effect : Type :=
| Call (n : nat)
| Sleep (ms : Z).

(** What [poll] rejects with: the error of [conditionFn], or
    [new Error(timeoutMessage)]. *)
Inductive pollError : Type :=
| ConditionError (e : E)
| TimedOut (message : string).

(** The [while (true)] loop at its [n]-th round.  [conditionFn n] is how
    the [n]-th call settles, with the truthiness of its value; [clock n]
    is what [Date.now()] reads after it.  The loop has no bound of its
    own: [fuel] bounds the rounds, and [None] says it was used up. *)
Fixpoint poll_loop (conditionFn : nat -> outcome bool E) (clock : nat -> Z)
    (o : options) (startTime : Z) (n fuel : nat) (done : list effect)
  : option (outcome unit pollError * list effect) :=
  match fuel with
  | 0 => None
  | S fuel' =>
      match conditionFn n with
      | Throw e => Some (Throw (ConditionError e), done ++ [Call n])
      | Return true => Some (Return tt, done ++ [Call n])
      | Return false =>
          if (timeout o <? clock n - startTime)%Z
          then Some (Throw (TimedOut (timeoutMessage o)), done ++ [Call n])
          else poll_loop conditionFn clock o startTime (S n) fuel'
                         (done ++ [Call n; Sleep (interval o)])
      end
  end.

(** [poll(conditionFn, options)]; [startTime] is [Date.now()] at the
    call. *)
Definition poll (conditionFn : nat -> outcome bool E) (clock : nat -> Z)
    (o : options) (startTime : Z) (fuel : nat)
  : option (outcome unit pollError * list effect) :=
  poll_loop conditionFn clock o startTime 0 fuel [].

(** Number of calls of [conditionFn] in a trace. *)
Definition checks (t : list effect) : nat :=
  List.length (filter (fun e => match e with Call _ => true | _ => false end) t).

End Loop.

Arguments ConditionError {E}.
Arguments TimedOut {E}.
Arguments poll_loop {E}.
Arguments poll {E}.

End Poll.

(** ** core/appManager.js: [getMainWindow], [closeApp] *)
Module AppManager.
Import JS.
Import JSString.

Section Manager.
Variable Window : Type.

(** How the launched application answers: [app.windows()] at the [n]-th
    attempt (from 1), [window.title()] at the [n]-th call (from 0), the
    clock of the ready poll and its reading at the start, and how
    [app.close()] and the [setTimeout] of the close race are delivered. *)
Record electronApp : Type := mkApp {
  windows : nat -> outcome (list Window) string;
  title : nat -> outcome string string;
  clock : nat -> Z;
  startTime : Z;
  closing : list (WithTimeout.event unit string)
}.

(** [this.electronApp] and [this.mainWindow]. *)
Record manager : Type := mkManager {
  electronApp_of : option electronApp;
  mainWindow : option Window
}.

(** What the manager does to the outside world. *)
Inductive effect : Type :=
| Retried (e : Retry.effect)
| Polled (e : Poll.effect)
| ReadTitle
| GracefulClose
| Taskkill.

(** The options [getMainWindow] gives to [retry]. *)
Definition window_retry : Retry.options string :=
  Retry.mkOptions 5 1000 10000 2
    (fun message => string_includes message "No windows available").

(** The operation [getMainWindow] retries. *)
Definition first_window (app : electronApp) (attempt : nat)
  : outcome Window string :=
  and_then (windows app attempt) (fun ws =>
    match ws with
    | [] => Throw "No windows available"
    | w :: _ => Return w
    end).

Definition window_ready_options : Poll.options :=
  Poll.mkOptions 100 10000 "Window ready timeout".

(** The condition [getMainWindow] polls: the window has a title; an
    error of [window.title()] counts as not yet. *)
Definition window_ready (app : electronApp) (n : nat) : outcome bool string :=
  match title app n with
  | Return t => Return (truthy_string t)
  | Throw _ => Return false
  end.

(** The message of the [TypeError] raised by [error.message] when
    [undefined] was thrown. *)
Definition no_error_message : string :=
  "Cannot read properties of undefined (reading 'message')".

(** [getMainWindow(app = this.electronApp)]; [fuel] bounds the rounds of
    the ready poll. *)
Definition getMainWindow (m : manager) (fuel : nat)
  : option (outcome Window string * manager * list effect) :=
  match electronApp_of m with
  | None => Some (Throw "Application not launched", m, [])
  | Some app =>
      let (found, t1) := Retry.retry (first_window app) window_retry in
      let t1 := map Retried t1 in
      match found with
      | Throw (Some message) => Some (Throw message, m, t1)
      | Throw None => Some (Throw no_error_message, m, t1)
      | Return window =>
          match Poll.poll (window_ready app) (clock app) window_ready_options
                          (startTime app) fuel with
          | None => None
          | Some (ready, t2) =>
              let t2' := t1 ++ map Polled t2 in
              match ready with
              | Throw (Poll.ConditionError message) =>
                  Some (Throw message, m, t2')
              | Throw (Poll.TimedOut message) => Some (Throw message, m, t2')
              | Return _ =>
                  match title app (Poll.checks t2) with
                  | Throw message =>
                      Some (Throw message, m, t2' ++ [ReadTitle])
                  | Return _ =>
                      Some (Return window,
                            mkManager (electronApp_of m) (Some window),
                            t2' ++ [ReadTitle])
                  end
              end
          end
      end
  end.

(** [closeApp()]: the graceful close races a timer of ten seconds, a
    forced kill follows when the race is lost or the close rejects, and
    no error leaves the function.  [taskkill] is how [execSync] ends;
    [None] says that neither the close nor the timer has been delivered
    yet. *)
Definition closeApp (m : manager) (taskkill : outcome unit string)
  : option (manager * list effect) :=
  match electronApp_of m with
  | None => Some (m, [])
  | Some app =>
      match WithTimeout.wrapper
              (WithTimeout.run "App close timeout" (closing app)) with
      | WithTimeout.Pending => None
      | WithTimeout.Fulfilled _ => Some (mkManager None None, [GracefulClose])
      | WithTimeout.Rejected _ =>
          Some (mkManager None None, [GracefulClose; Taskkill])
      end
  end.

(** [isRunning()] *)
Definition isRunning (m : manager) : bool :=
  match electronApp_of m with Some _ => true | None => false end.

End Manager.

Arguments mkApp {Window}.
Arguments windows {Window}.
Arguments title {Window}.
Arguments clock {Window}.
Arguments startTime {Window}.
Arguments closing {Window}.
Arguments mkManager {Window}.
Arguments electronApp_of {Window}.
Arguments mainWindow {Window}.
Arguments first_window {Window}.
Arguments window_ready {Window}.
Arguments getMainWindow {Window}.
Arguments closeApp {Window}.
Arguments isRunning {Window}.

End AppManager.


(** ** reporters/reportManager.js *)
Module ReportManager.
Import JS.
Import JSString.

(** A property of the report data that should hold an array: absent (or
    falsy), an array, or something else. *)
Inductive field : Type :=
| Absent
| AnArray
| NotAnArray.

(** The report data as [validateReportData] looks at it: a falsy value,
    a truthy value that is no object, or an object with its [timestamp]
    (truthy or not), [axeResults] and [extraResults]. *)
Inductive reportData : Type :=
| Falsy
| NotAnObject
| AnObject (timestamp : bool) (axeResults extraResults : field).

(** [{ valid, errors, warnings }] *)
Record validation : Type := mkValidation {
  valid : bool;
  v_errors : list string;
  v_warnings : list string
}.

Definition is_absent (f : field) : bool :=
  match f with Absent => true | _ => false end.

Definition is_not_array (f : field) : bool :=
  match f with NotAnArray => true | _ => false end.

(** [validateReportData(data)] *)
Definition validateReportData (data : reportData) : validation :=
  match data with
  | Falsy => mkValidation false ["Report data is null or undefined"] []
  | NotAnObject => mkValidation false ["Report data must be an object"] []
  | AnObject timestamp axeResults extraResults =>
      let result := mkValidation true [] [] in
      let result :=
        if negb timestamp
        then mkValidation (valid result) (v_errors result)
               (v_warnings result ++ ["Missing timestamp in report data"])
        else result in
      let result :=
        if is_absent axeResults && is_absent extraResults
        then mkValidation (valid result) (v_errors result)
               (v_warnings result ++ ["No test results found in report data"])
        else result in
      let result :=
        if is_not_array axeResults
        then mkValidation false
               (v_errors result ++ ["axeResults must be an array"])
               (v_warnings result)
        else result in
      let result :=
        if is_not_array extraResults
        then mkValidation false
               (v_errors result ++ ["extraResults must be an array"])
               (v_warnings result)
        else result in
      result
  end.

(** What a reporter hands back: [success] up to truthiness, [format],
    [error]. *)
Record reportResult : Type := mkReportResult {
  rep_success : bool;
  rep_format : option string;
  rep_error : option string
}.

(** A registered reporter: the name of its class, its [getFormat()], how
    its [generate] settles ([Return None]: it resolved to [undefined]),
    and how its [generateSummaryReport] settles with the path of the
    file, if it has that method. *)
Record reporter : Type := mkReporter {
  constructor_name : string;
  getFormat : string;
  generate : outcome (option reportResult) string;
  generateSummaryReport : option (outcome string string)
}.

(** [getReporter(format)] *)
Definition getReporter (reporters : list reporter) (format : string)
  : option reporter :=
  find (fun r =>
          String.eqb (getFormat r) format
          || string_includes (toLowerCase (constructor_name r)) format)
       reporters.

(** The message of the [TypeError] raised by [result.success] when
    [generate] resolved to [undefined]. *)
Definition no_result_message : string :=
  "Cannot read properties of undefined (reading 'success')".

(** [generateReport(format, data, options)]: never rejects. *)
Definition generateReport (reporters : list reporter) (format : string)
  : reportResult :=
  match getReporter reporters format with
  | None =>
      mkReportResult false (Some format)
                     (Some ("Unknown report format: " ++ format)%string)
  | Some r =>
      match generate r with
      | Return (Some result) => result
      | Return None =>
          mkReportResult false (Some format) (Some no_result_message)
      | Throw message => mkReportResult false (Some format) (Some message)
      end
  end.

(** [{ totalReports, successful, failed }] *)
Record summary : Type := mkSummary {
  totalReports : nat;
  successful : nat;
  failed : nat
}.

(** [{ reports, summary, summaryReport, success }]; [reports] is the
    object keyed by format, in insertion order. *)
Record results : Type := mkResults {
  reports : list (string * reportResult);
  res_summary : summary;
  summaryReport : option string;
  success : bool
}.

(** [results.reports[format] = result] *)
Definition set_report (rs : list (string * reportResult)) (k : string)
    (v : reportResult) : list (string * reportResult) :=
  assign rs k v.

(** The [formats.forEach] of [generateAllReports]. *)
Definition record_report (reporters : list reporter)
    (acc : list (string * reportResult) * summary) (format : string)
  : list (string * reportResult) * summary :=
  let result := generateReport reporters format in
  let s := snd acc in
  (set_report (fst acc) format result,
   if rep_success result
   then mkSummary (totalReports s) (S (successful s)) (failed s)
   else mkSummary (totalReports s) (successful s) (S (failed s))).

(** [generateAllReports(data, options)].  The reports are started
    together and none rejects, so [concurrentLimit] hands their results
    back in the order of [formats]. *)
Definition generateAllReports (reporters : list reporter)
    (formats : list string) (generateSummary : bool) : results :=
  let (reports, s) :=
    fold_left (record_report reporters) formats
              ([], mkSummary (List.length formats) 0 0) in
  let summaryReport :=
    if generateSummary && (0 <? successful s)
    then match getReporter reporters "json" with
         | Some jsonReporter =>
             match generateSummaryReport jsonReporter with
             | Some (Return path) => Some path
             | _ => None
             end
         | None => None
         end
    else None in
  mkResults reports s summaryReport (failed s =? 0).

(** [['html', 'json']] *)
Definition default_formats : list string := ["html"; "json"].

End ReportManager.

(** ** reporters/jsonReporter.js and reporters/htmlReporter.js: the
       statistics *)
Module Reporters.
Import JS.

(** A rule result of a page, with the [page] that [prepareAxeResults]
    adds. *)
Record ruleResult : Type := mkRule {
  r_id : option string;
  r_impact : option string;
  r_page : option string
}.

(** An entry of [data.axeResults]; each array may be missing. *)
Record pageResult : Type := mkPageResult {
  p_violations : option (list ruleResult);
  p_passes : option (list ruleResult);
  p_incomplete : option (list ruleResult);
  p_inapplicable : option (list ruleResult);
  p_url : option string;
  p_pageName : option string
}.

(** [array || []] *)
Definition or_empty {A : Type} (l : option (list A)) : list A :=
  match l with Some x => x | None => [] end.

(** [a || b] on strings. *)
Definition or_else (a : option string) (b : string) : string :=
  match a with
  | Some s => if truthy_string s then s else b
  | None => b
  end.

(** A value of [violationsByImpact] or of [violationsByRule]: a count,
    or a string.  Under a name that [Object.prototype] defines, the read
    [counts[key]] of a fresh object finds the inherited member, and
    [(counts[key] || 0) + 1] is a string; it stays one. *)
Inductive tally : Type :=
| Count (n : nat)
| Text.

(** [counts[key] = (counts[key] || 0) + 1] on a plain object.  Under
    [__proto__] the string is handed to the setter of [Object.prototype],
    which ignores it. *)
Fixpoint bump (counts : list (string * tally)) (key : string)
  : list (string * tally) :=
  match counts with
  | [] =>
      if inherited key
      then (if String.eqb key "__proto__" then [] else [(key, Text)])
      else [(key, Count 1)]
  | (k, c) :: rest =>
      if String.eqb k key
      then (k, match c with Count n => Count (S n) | Text => Text end) :: rest
      else (k, c) :: bump rest key
  end.

(** The statistics of [JsonReporter.calculateAxeStats]; the two objects
    of counts hold their properties in the order of creation. *)
Record axeStats : Type := mkAxeStats {
  totalPages : nat;
  totalViolations : nat;
  totalPasses : nat;
  totalIncomplete : nat;
  totalInapplicable : nat;
  violationsByImpact : list (string * tally);
  violationsByRule : list (string * tally);
  pagesWithViolations : nat;
  pagesWithoutViolations : nat
}.

(** [violation.impact || 'unknown'] and [violation.id || 'unknown'] *)
Definition impact_of (violation : ruleResult) : string :=
  or_else (r_impact violation) "unknown".

Definition rule_of (violation : ruleResult) : string :=
  or_else (r_id violation) "unknown".

(** The [violations.forEach] of [calculateAxeStats]. *)
Definition count_violation (stats : axeStats) (violation : ruleResult)
  : axeStats :=
  let impact := impact_of violation in
  let rule := rule_of violation in
  mkAxeStats (totalPages stats) (totalViolations stats) (totalPasses stats)
    (totalIncomplete stats) (totalInapplicable stats)
    (bump (violationsByImpact stats) impact)
    (bump (violationsByRule stats) rule)
    (pagesWithViolations stats) (pagesWithoutViolations stats).

(** The [axeResults.forEach] of [calculateAxeStats]. *)
Definition count_page (stats : axeStats) (pageResult : pageResult)
  : axeStats :=
  let violations := or_empty (p_violations pageResult) in
  let passes := or_empty (p_passes pageResult) in
  let incomplete := or_empty (p_incomplete pageResult) in
  let inapplicable := or_empty (p_inapplicable pageResult) in
  let stats :=
    mkAxeStats (totalPages stats)
      (totalViolations stats + List.length violations)
      (totalPasses stats + List.length passes)
      (totalIncomplete stats + List.length incomplete)
      (totalInapplicable stats + List.length inapplicable)
      (violationsByImpact stats) (violationsByRule stats)
      (if 0 <? List.length violations
       then S (pagesWithViolations stats) else pagesWithViolations stats)
      (if 0 <? List.length violations
       then pagesWithoutViolations stats
       else S (pagesWithoutViolations stats)) in
  fold_left count_violation violations stats.

(** [calculateAxeStats(axeResults)], the averages apart. *)
Definition calculateAxeStats (axeResults : list pageResult) : axeStats :=
  fold_left count_page axeResults
            (mkAxeStats (List.length axeResults) 0 0 0 0 [] [] 0 0).

(** [Math.round((total / totalPages) * 100) / 100], the two averages of
    [calculateAxeStats]. *)
Definition average (total totalPages : nat) : float :=
  if 0 <? totalPages
  then PrimFloat.div
         (JSNumber.of_nat (Z.to_nat (JSNumber.percentage total totalPages)))
         (JSNumber.of_nat 100)
  else JSNumber.of_nat 0.

Definition averageViolationsPerPage (stats : axeStats) : float :=
  average (totalViolations stats) (totalPages stats).

Definition averagePassesPerPage (stats : axeStats) : float :=
  average (totalPasses stats) (totalPages stats).

(** The four arrays [HtmlReporter.prepareAxeResults] hands to the HTML
    report. *)
Record aggregated : Type := mkAggregated {
  a_violations : list ruleResult;
  a_passes : list ruleResult;
  a_incomplete : list ruleResult;
  a_inapplicable : list ruleResult
}.

(** [pageResult.url || pageResult.pageName || 'Unknown Page'] *)
Definition page_label (pageResult : pageResult) : string :=
  match p_url pageResult with
  | Some u => if truthy_string u then u
              else or_else (p_pageName pageResult) "Unknown Page"
  | None => or_else (p_pageName pageResult) "Unknown Page"
  end.

(** The [data.axeResults.forEach] of [prepareAxeResults]. *)
Definition aggregate_page (acc : aggregated) (pageResult : pageResult)
  : aggregated :=
  mkAggregated
    (match p_violations pageResult with
     | Some vs =>
         a_violations acc
         ++ map (fun v => mkRule (r_id v) (r_impact v)
                                 (Some (page_label pageResult))) vs
     | None => a_violations acc
     end)
    (a_passes acc ++ or_empty (p_passes pageResult))
    (a_incomplete acc ++ or_empty (p_incomplete pageResult))
    (a_inapplicable acc ++ or_empty (p_inapplicable pageResult)).

(** [prepareAxeResults(data)] on [data.axeResults]. *)
Definition prepareAxeResults (axeResults : option (list pageResult))
  : aggregated :=
  match axeResults with
  | None => mkAggregated [] [] [] []
  | Some pages =>
      if List.length pages =? 0 then mkAggregated [] [] [] []
      else fold_left aggregate_page pages (mkAggregated [] [] [] [])
  end.

End Reporters.

(* ================================================================== *)
(** * Part II: the vocabulary of the properties, and sample inputs      *)
(* ================================================================== *)

(** ** Landmark scoring *)
Module LandmarkProps.
Import JS.
Import AccessibilityTreeChecker.

(** A page with a banner, a main region and a navigation, all named. *)
Definition three_landmarks : axNode :=
  AxNode (Some "WebArea") (Some "Home") None
    (Some [AxNode (Some "banner") (Some "Site header") None None;
           AxNode (Some "main") (Some "Content") None
             (Some [AxNode (Some "heading") (Some "Welcome") (Some 1%Z) None]);
           AxNode (Some "navigation") (Some "Primary") None None]).

(** A page with all five required landmarks, all named. *)
Definition five_landmarks : axNode :=
  AxNode (Some "WebArea") (Some "Home") None
    (Some [AxNode (Some "banner") (Some "Site header") None None;
           AxNode (Some "navigation") (Some "Primary") None None;
           AxNode (Some "main") (Some "Content") None
             (Some [AxNode (Some "heading") (Some "Welcome") (Some 1%Z) None]);
           AxNode (Some "complementary") (Some "Related") None None;
           AxNode (Some "contentinfo") (Some "Site footer") None None]).

End LandmarkProps.

(** ** Zoom checking *)
Module ZoomProps.
Import JS.
Import ZoomChecker.

(** The overflow test of [testZoomLevel] on a measurement. *)
Definition exceeds_tolerance (m : metrics) : Prop :=
  (bodyScrollWidth m > windowInnerWidth m + 10
   \/ bodyScrollHeight m > windowInnerHeight m + 10)%Z.

Definition is_reset (c : pageCall * bool) : bool :=
  match fst c with ResetZoom => true | _ => false end.

Definition reset_done (c : pageCall * bool) : bool := is_reset c && snd c.

(** What a zoom test records about the page [p] it ran on. *)
Definition faithful (p : page) (t : zoomTest) : Prop :=
  (success t = false -> overflow t = false /\ layoutBroken t = false)
  /\ (success t = true ->
      exists d, zt_layoutData t = Some d
                /\ measured d = metrics_at p (Some (zoomLevel t))
                /\ (overflow t = true <-> exceeds_tolerance (measured d))).

(** The page calls without which a zoom test fails: applying the zoom,
    measuring, and the reset that follows the measurement (a reset made
    on the error path comes after another failed call). *)
Definition failed_call (c : pageCall * bool) : bool :=
  negb (snd c)
  && match fst c with
     | ApplyZoom _ | MeasureLayout | ResetZoom => true
     | CountOffScreen | BreakageDetails => false
     end.

(** The zoom was applied; the off-screen elements were counted. *)
Definition applied (c : pageCall * bool) : bool :=
  match c with (ApplyZoom _, true) => true | _ => false end.

Definition counted (c : pageCall * bool) : bool :=
  match c with (CountOffScreen, true) => true | _ => false end.

(** What a zoom test that ran reports about the page at the level [z]. *)
Definition reports_level (p : page) (z : Q) (t : zoomTest) : Prop :=
  zoomLevel t = z /\ success t = true
  /\ (overflow t = true <-> exceeds_tolerance (metrics_at p (Some z)))
  /\ (layoutBroken t = true <-> 5 < offScreenCount_at p (Some z)).

(** The page supports the zoom level [z]: no overflow beyond the
    tolerance and at most five elements off screen. *)
Definition supports (p : page) (z : Q) : Prop :=
  ~ exceeds_tolerance (metrics_at p (Some z))
  /\ offScreenCount_at p (Some z) <= 5.

(** A page that closes after the count of the off-screen elements: the
    reset throws, and so does the reset of the error path.  At 200% it
    shows 1481 pixels of content in a 900 pixel window. *)
Definition closing_page : page :=
  mkPage None [None; None; None; Some "Target closed"; Some "Target closed"]
    (fun z =>
       match z with
       | Some (Qmake 2 1) => mkMetrics 1481 700 900 700 1481 700 900 700 900 700
       | _ => mkMetrics 900 700 900 700 900 700 900 700 900 700
       end)
    (fun _ => 0) (fun _ => []) [].

(** A page that never throws and overflows only at 200%: 1481 pixels of
    content in a 900 pixel window. *)
Definition overflowing_page : page :=
  mkPage None []
    (fun z =>
       match z with
       | Some (Qmake 2 1) => mkMetrics 1481 700 900 700 1481 700 900 700 900 700
       | _ => mkMetrics 900 700 900 700 900 700 900 700 900 700
       end)
    (fun _ => 0) (fun _ => []) [].

End ZoomProps.

(** ** Checker results and their aggregation *)
Module CheckerProps.
Import JS.
Import BaseChecker.
Import CheckerManager.

Section Counting.
Variable Data : Type.

(** The three classes of [processCheckResult]. *)
Inductive verdict : Type := Pass | Fail | Error.

Definition classify (r : checkResult Data) : verdict :=
  match success r with
  | Some false => if truthy (error r) then Error else Fail
  | _ => Pass
  end.

Definition is_verdict (v : verdict) (r : checkResult Data) : bool :=
  match v, classify r with
  | Pass, Pass | Fail, Fail | Error, Error => true
  | _, _ => false
  end.

(** Number of results of a class. *)
Definition count (v : verdict) (rs : list (checkResult Data)) : nat :=
  List.length (filter (is_verdict v) rs).

End Counting.

Arguments classify {Data}.
Arguments is_verdict {Data}.
Arguments count {Data}.

(** Up to 39 checkers, the binary64 computation of [successRate] is the
    exactly rounded percentage. *)
Definition percentages_agree : bool :=
  forallb (fun t =>
             forallb (fun p => Z.eqb (JSNumber.percentage p t)
                                     (JSNumber.exact_percentage p t))
                     (seq 0 (S t)))
          (seq 1 39).

(** A checker that throws what [thrown] says, one that reports a plain
    failure, and one that passes. *)
Definition three_checkers (thrown : JS.thrown) : list (checker_obj unit) :=
  [mkChecker "Thrower" 1 (fun _ _ => Throw thrown);
   mkChecker "Negative" 2
     (fun page_name now =>
        Return (mkResult "Negative" page_name now (Some false) None (Some tt)));
   derived "Positive" 3 (fun _ => Return (Some (mkOutput None tt)))].

(** Forty checkers of which the first twenty-three pass and the others
    report a plain failure. *)
Definition forty_checkers : list (checker_obj unit) :=
  map (fun i =>
         mkChecker (NilEmpty.string_of_uint (Nat.to_uint i)) 5
           (fun page_name now =>
              Return (mkResult "" page_name now (Some (i <? 23)) None
                               (Some tt))))
      (seq 0 40).

(** A checker class deriving from [BaseChecker]: its name, its priority
    and its [executeCheck]. *)
Definition derived_class (Data : Type) : Type :=
  (string * Z * (string -> outcome (option (checkOutput Data)) thrown))%type.

Definition instantiate {Data : Type} (k : derived_class Data)
  : checker_obj Data :=
  derived (fst (fst k)) (snd (fst k)) (snd k).

(** [executeCheck] threw a value whose [message] is the empty string or
    is missing: [new Error('')], or a value that is no [Error]. *)
Definition throws_without_message {Data : Type} (page_name : string)
    (k : derived_class Data) : bool :=
  match snd k page_name with
  | Throw error => negb (truthy (message_of error))
  | _ => false
  end.

(** [executeCheck] resolved to a result with a truthy [error], resolved
    to nothing, or threw a value with a non-empty message. *)
Definition reports_error {Data : Type} (page_name : string)
    (k : derived_class Data) : bool :=
  match snd k page_name with
  | Return (Some result) => truthy (out_error result)
  | Return None => true
  | Throw error => truthy (message_of error)
  end.

(** Three classes deriving from [BaseChecker]: one passes, one throws
    [new Error('')], one throws the string ['timeout']. *)
Definition silent_classes : list (derived_class unit) :=
  [("Contrast", 1%Z, fun _ => Return (Some (mkOutput None tt)));
   ("Silent", 2%Z, fun _ => Throw (AnError ""));
   ("Timeout", 3%Z, fun _ => Throw NotAnError)].

End CheckerProps.

(** ** Retry with backoff *)
Module RetryProps.
Import JS.
Import Retry.

Section Contract.
Variables V E : Type.
Variable fn : nat -> outcome V E.
Variable o : options E.

(** The operation fails at the attempt [i] with an error that
    [retryCondition] lets through. *)
Definition retryable_failure (i : nat) : Prop :=
  exists e, fn i = Throw e /\ retryCondition o e = true.

(** The effects of the failed attempts [a, a + 1, ..., a + j - 1], each
    followed by its backoff delay. *)
Definition failed_rounds (a j : nat) : list (effect) :=
  flat_map (fun i => [Invoke i; Delay (backoff o i)]) (seq a j).

(** No trace ends with a delay. *)
Definition ends_with_delay (t : list effect) : bool :=
  match last t (Invoke 0) with
  | Delay _ => true
  | Invoke _ => false
  end.

(** [maxAttempts] is the whole number [m]. *)
Definition whole (m : nat) : Prop :=
  (maxAttempts o == inject_Z (Z.of_nat m))%Q.

(** The delay parameters are in the range where binary64 gives the
    delays of [backoff]: the base delay and the factor are whole numbers
    up to 2^53, which binary64 holds and multiplies exactly while the
    product stays in that range ([Math.pow] of two whole numbers is the
    exact power when binary64 holds it), and the cap is at most 2^52, so
    that [Math.min] picks it as soon as the product is too large for
    that. *)
Definition exact_delays : Prop :=
  (1 <= baseDelay o <= 2 ^ 53 /\ 0 <= backoffFactor o <= 2 ^ 53
   /\ 0 <= maxDelay o <= 2 ^ 52)%Z.

End Contract.

Arguments retryable_failure {V E}.
Arguments failed_rounds {E}.
Arguments whole {E}.
Arguments exact_delays {E}.

(** An operation that fails twice and then succeeds. *)
Definition flaky (attempt : nat) : outcome nat string :=
  match attempt with
  | 1 => Throw "first failure"
  | 2 => Throw "second failure"
  | _ => Return 42
  end.

(** An operation that always fails, and options with a fractional
    [maxAttempts]. *)
Definition hopeless (attempt : nat) : outcome nat string := Throw "down".

Definition two_and_a_half : options string :=
  mkOptions (5 # 2) 1000 10000 2 (fun _ => true).

End RetryProps.

(** ** Timeout race *)
Module WithTimeoutProps.
Import JS.
Import WithTimeout.

Section Race.
Variables V E : Type.
Variable timeoutMessage : string.

Definition is_pending {A B : Type} (p : promise A B) : bool :=
  match p with Pending => true | _ => false end.

End Race.

End WithTimeoutProps.

(** ** Scanner fallback *)
Module ScannerProps.
Import JS.
Import Scanner.

(** The primary scan of the page fails: [caught] is thrown inside the
    [try] block of [AxeScanner.scanPage], by the scanner itself (the rule
    engine could not be injected, or its run resolved to nothing) or by
    the page. *)
Definition scan_fails (p : primaryPage) (caught : thrown) : Prop :=
  (injected p = false /\ caught = AnError "Failed to inject axe-core")
  \/ (injected p = true /\ ready p = Throw caught)
  \/ (injected p = true /\ ready p = Return tt /\ axeRun p = Throw caught)
  \/ (injected p = true /\ ready p = Return tt /\ axeRun p = Return None
      /\ caught = AnError no_results_message).

(** A stalled page: the primary scan times out, the legacy scan works. *)
Definition stalled_primary : primaryPage :=
  mkPrimaryPage true (Return tt)
                (Throw (AnError "Axe scan timeout for Home")).

(** A page whose readiness wait rejects with [new Error('')]. *)
Definition silent_primary : primaryPage :=
  mkPrimaryPage true (Throw (AnError "")) (Return None).

Definition working_legacy : legacyPage :=
  mkLegacyPage (Return tt) (Return tt)
    (Return (Some (mkEngineResults ["color-contrast"] ["html-has-lang"] [] []))).

End ScannerProps.

(** ** The page loop of the test engine *)
Module EngineProps.
Import JS.
Import TestEngine.

Section Pages.
Variable Data : Type.
Variable cfg : config Data.
Variable app : application.

(** The scan result of the page has been pushed. *)
Definition scanned (pc : pagePc) : bool :=
  match pc with AtExtra | Finished => true | _ => false end.

(** The extra-check result of the page has been pushed. *)
Definition finished (pc : pagePc) : bool :=
  match pc with Finished => true | _ => false end.

(** The page task has ended. *)
Definition ended (pc : pagePc) : bool :=
  match pc with Finished | Failed _ => true | _ => false end.

Definition tally (f : pagePc -> bool) (ps : list pagePc) : nat :=
  List.length (filter f ps).

(** Navigation to the page succeeds. *)
Definition nav_ok (p : pageConfig) : bool :=
  match navigate p (visit app p) with Return _ => true | Throw _ => false end.

(** The state of a page task agrees with the outcome of its navigation. *)
Definition consistent (p : pageConfig) (pc : pagePc) : Prop :=
  match pc with
  | Queued => True
  | AtScan | AtExtra | Finished => nav_ok p = true
  | NavFailed _ | Rejected _ | Failed _ => nav_ok p = false
  end.

(** The next state of a page task; it does not depend on the shared
    results. *)
Definition next_pc (p : pageConfig) (pc : pagePc) : pagePc :=
  match pc with
  | Queued =>
      match navigate p (visit app p) with
      | Return _ => AtScan
      | Throw e => NavFailed e
      end
  | NavFailed e => Rejected e
  | AtScan =>
      match Scanner.runAxeScan (primaryScan (visit app p))
                               (legacyScan (visit app p)) (name p) (now app) with
      | Return _ => AtExtra
      | Throw e => Rejected e
      end
  | AtExtra => Finished
  | Rejected e => Failed e
  | Finished => Finished
  | Failed e => Failed e
  end.

(** The tasks after the task of page [i] took a step. *)
Fixpoint step_pcs (i : nat) (pages : list pageConfig) (ps : list pagePc)
  : list pagePc :=
  match i, pages, ps with
  | 0, p :: _, pc :: ps' => next_pc p pc :: ps'
  | S j, _ :: pages', pc :: ps' => pc :: step_pcs j pages' ps'
  | _, _, _ => ps
  end.

Definition four_steps (pages : list pageConfig) (ps : list pagePc) (i : nat)
  : list pagePc :=
  step_pcs i pages (step_pcs i pages (step_pcs i pages (step_pcs i pages ps))).

(** The loop invariant of the scanning phase, for any interleaving of
    the page tasks. *)
Record in_step (t0 : testResults Data) (s : scanState Data) : Prop := {
  tasks_match : List.length (pcs s) = List.length (pagesToScan cfg);
  tasks_consistent : Forall2 consistent (pagesToScan cfg) (pcs s);
  axe_count : List.length (axeResults (shared s))
              = List.length (axeResults t0) + tally scanned (pcs s);
  extra_count : List.length (extraResults (shared s))
                = List.length (extraResults t0) + tally finished (pcs s);
  errors_grow : List.length (errors t0) <= List.length (errors (shared s))
}.

(** The extra checks of the page are running: its scan result is
    pushed, its extra result is not. *)
Definition at_extra (pc : pagePc) : bool :=
  match pc with AtExtra => true | _ => false end.

(** The pages a loop that stops at the first failure gets to: every
    page up to the first whose navigation fails, that one included. *)
Fixpoint through_first_failure (pages : list pageConfig) : list pageConfig :=
  match pages with
  | [] => []
  | p :: rest => if nav_ok p then p :: through_first_failure rest else [p]
  end.

(** The number of page tasks a scanning phase runs at a time. *)
Definition effective_concurrency (o : options) : nat :=
  match concurrency o with
  | Some c => c
  | None => if maxConcurrency cfg =? 0 then 1 else maxConcurrency cfg
  end.

(** The pages a scanning phase visits: none without a main window, the
    pages through the first failure when the scan is sequential and does
    not continue on error, every page otherwise. *)
Definition visited (o : options) : list pageConfig :=
  match getMainWindow app with
  | Throw _ => []
  | Return _ =>
      if (effective_concurrency o =? 1) && negb (continueOnError o)
      then through_first_failure (pagesToScan cfg)
      else pagesToScan cfg
  end.

End Pages.

(** One page, no extra checker; the application answers every call. *)
Definition one_page : config unit :=
  mkConfig "app.exe" "axe-reports" "app.exe" 1
           [mkPageConfig "Home" "a[href='#/main']" true] [].

Definition clean_scan (page_name : string) : Scanner.axeResults :=
  Scanner.mkAxeResults [] ["html-has-lang"] [] [] page_name 0 page_name
                       None false false.

Definition working_app : application :=
  mkApplication 0 5 (Return tt) (Return tt)
    (fun p => mkPageVisit (Return tt) (Return tt) None
                (Return (Some (clean_scan (name p))))
                (Scanner.mkLegacyPage (Return tt) (Return tt) (Return None)))
    (Return (mkReportResults true 0 [])) (Return tt).

Section TwoPages.
Variable Data : Type.
Variable cfg : config Data.
Variable app : application.
Variables A B : pageConfig.
Variable rA : Scanner.axeResults.
Variable e : string.

(** What page A and page B have added to fresh results when their tasks
    stand at [pcA] and [pcB]. *)
Definition added (t : testResults Data) (pcA pcB : pagePc)
  : testResults Data :=
  mkTestResults (timestamp t)
    (if scanned pcA then [rA] else [])
    (if finished pcA
     then [CheckerManager.runAllChecks (checkers cfg) (maxConcurrency cfg)
                                       (name A) (now app)]
     else [])
    []
    (match pcB with
     | Rejected _ =>
         [mkError "page_processing" e (now app) (Some (name B))
                  (Some (selector B))]
     | Failed _ =>
         [mkError "page_processing" e (now app) (Some (name B))
                  (Some (selector B));
          mkError "page_scan" e (now app) (Some (name B)) None]
     | _ => []
     end)
    (match pcB, emergencyScreenshot (visit app B) with
     | Queued, _ | _, None => []
     | _, Some file =>
         [mkWarning "navigation_screenshot" (Some (name B)) (Some file)
                    "Emergency screenshot taken during navigation failure"]
     end)
    (duration t) (success t) (reports t).

Definition stage_A (pc : pagePc) : Prop :=
  match pc with
  | Queued | AtScan | AtExtra | Finished => True
  | _ => False
  end.

Definition stage_B (pc : pagePc) : Prop :=
  pc = Queued \/ pc = NavFailed e \/ pc = Rejected e \/ pc = Failed e.

Variable t1 : testResults Data.

Definition two_pages_inv (s : scanState Data) : Prop :=
  exists pcA pcB,
    pcs s = [pcA; pcB] /\ stage_A pcA /\ stage_B pcB
    /\ shared s = added t1 pcA pcB.

Variable o : options.

End TwoPages.

(** Two pages: "Home" can be reached and scans cleanly, the navigation
    to "Settings" throws. *)
Definition two_pages : config unit :=
  mkConfig "app.exe" "axe-reports" "app.exe" 1
           [mkPageConfig "Home" "a[href='#/main']" true;
            mkPageConfig "Settings" "button.settings" true] [].

Definition settings_unreachable : application :=
  mkApplication 0 5 (Return tt) (Return tt)
    (fun p =>
       mkPageVisit
         (if String.eqb (name p) "Settings"
          then Throw "locator.waitFor: Timeout 60000ms exceeded"
          else Return tt)
         (Return tt) None
         (Return (Some (clean_scan (name p))))
         (Scanner.mkLegacyPage (Return tt) (Return tt) (Return None)))
    (Return (mkReportResults true 0 [])) (Return tt).

Definition default_options : options := mkOptions None true [].

End EngineProps.

(** ** The bounded concurrency runner *)
Module ConcurrentLimitProps.
Import JS.
Import ConcurrentLimit.

Section Runner.
Variables V E : Type.
Variable tasks : list (task V E).
Variable concurrency : Z.

(** The invariant of the runner. *)
Record inv (s : state V E) : Prop := {
  inv_next : next s <= List.length tasks;
  inv_results : results s = seq 0 (next s);
  inv_settled_nodup : NoDup (settled s);
  inv_settled_started : forall i, In i (settled s) -> i < next s;
  inv_exec_nodup : NoDup (executing s);
  inv_exec_started : forall i, In i (executing s) -> i < next s;
  inv_in_flight :
    forall i, i < next s -> ~ In i (settled s) -> In i (executing s);
  inv_bound :
    (Z.of_nat (List.length (executing s)) <= effective concurrency)%Z;
  inv_phase :
    match ph s with
    | Looping => (Z.of_nat (List.length (executing s)) < effective concurrency)%Z
    | AwaitRace members =>
        incl (executing s) members /\ NoDup members
        /\ (Z.of_nat (List.length members) <= effective concurrency)%Z
        /\ members <> []
        /\ (forall i, In i members -> i < next s)
    | AwaitAll => next s = List.length tasks
    | Resolved vs => tasks = map Return vs
    | Rejected e => exists w, w < next s /\ nth_error tasks w = Some (Throw e)
    end;
  inv_sequential :
    effective concurrency = 1%Z -> forall i, S i < next s -> In i (settled s)
}.

End Runner.

(** Three tasks; the second completes first, then the third, then the
    first. *)
Definition three_tasks : list (task nat string) :=
  [Return 10; Return 20; Return 30].

Definition scrambled : list event :=
  [LoopStep; LoopStep; Settle 1; CleanUp 1; RaceSettled 1;
   LoopStep; Settle 2; CleanUp 2; RaceSettled 2;
   LoopStep; Settle 0; CleanUp 0; AllFulfilled].

(** Three tasks of which the second fails. *)
Definition one_fails : list (task nat string) :=
  [Return 1; Throw "boom"; Return 3].

End ConcurrentLimitProps.

(** ** Headings and the tree summary *)
Module TreeProps.
Import JS.
Import AccessibilityTreeChecker.
Import AccessibilityTree.

(** A page whose headings are h1, h3, h3: level 2 is left out. *)
Definition h1_h3_h3 : axNode :=
  AxNode (Some "WebArea") (Some "Home") None
    (Some [AxNode (Some "heading") (Some "Title") (Some 1%Z) None;
           AxNode (Some "main") (Some "Content") None
             (Some [AxNode (Some "heading") (Some "Details") (Some 3%Z) None;
                    AxNode (Some "heading") (Some "More") (Some 3%Z) None])]).

(** [Math.round(totalScore / componentCount)] is the exactly rounded
    quotient for every total the three components can reach. *)
Definition rounded_quotients_agree : bool :=
  forallb (fun c =>
    forallb (fun t =>
      (JSNumber.Math_round
         (PrimFloat.div (of_Z (Z.of_nat t)) (JSNumber.of_nat c))
       =? (2 * Z.of_nat t + Z.of_nat c) / (2 * Z.of_nat c))%Z)
      (seq 0 301))
    [1; 2; 3].

(** The landmark or heading report of a node, when the check is on. *)
Definition a_page (lang : string) (t : axNode) : treePage :=
  mkTreePage (Return (Some t)) (Return lang).

End TreeProps.


(** ** Keyboard focus problems *)
Module FocusProps.
Import JS.
Import KeyboardFocusChecker.

(** The element has one of the three defects [identifyProblems] looks
    for. *)
Definition defective (el : element) : bool :=
  match focused el with
  | Some false => true
  | Some true => negb (hasVisibleFocus el)
  | None => false
  end
  || (negb (truthy (ariaLabel el)) && negb (truthy (text el))).

(** A link that takes the focus and shows it, a button that takes it
    without showing it, and an element whose check threw. *)
Definition sample_elements : list element :=
  [mkElement "a" None (Some "Home") (Some true) true (Some "#home");
   mkElement "button" (Some "Close") (Some "") (Some true) false
             (Some "button.close");
   mkElement "input" None None None false None].

End FocusProps.

(** ** The contrast checker *)
Module ContrastProps.
Import JS.

(** A page on which the rule engine cannot be injected. *)
Definition no_engine : Scanner.primaryPage :=
  Scanner.mkPrimaryPage false (Return tt) (Return None).

End ContrastProps.

(** ** The registry of checkers *)
Module RegistryProps.
Import JS.
Import BaseChecker.
Import CheckerManager.

Section Order.
Variable Data : Type.

(** Ascending priority. *)
Definition by_priority (a b : checker_obj Data) : Prop :=
  (getPriority a <= getPriority b)%Z.

(** The checkers of priority [p], in the order of the list. *)
Definition of_priority (p : Z) (cs : list (checker_obj Data))
  : list (checker_obj Data) :=
  filter (fun c => (getPriority c =? p)%Z) cs.

End Order.

Arguments by_priority {Data}.
Arguments of_priority {Data}.

(** The four checkers of the manager in the order of [initializeCheckers],
    each passing. *)
Definition passing (n : string) (priority : Z) : checker_obj unit :=
  derived n priority (fun _ => Return (Some (mkOutput None tt))).

Definition builtin_checkers : list (checker_obj unit) :=
  [passing "ColorContrastChecker" 1; passing "KeyboardFocusChecker" 2;
   passing "ZoomChecker" 3; passing "AccessibilityTreeChecker" 4].

End RegistryProps.


(** ** Polling *)
Module PollProps.
Import JS.
Import Poll.

(** The effects of the rounds [n, n + 1, ..., n + k - 1] in which the
    condition did not hold: a call, then a sleep. *)
Definition idle_rounds (o : options) (n k : nat) : list effect :=
  flat_map (fun i => [Call i; Sleep (interval o)]) (seq n k).

(** A condition that holds at its third call. *)
Definition third_time (n : nat) : outcome bool string :=
  Return (2 <=? n).

(** A condition that never holds, under a clock that advances by a
    second per round. *)
Definition never (n : nat) : outcome bool string := Return false.

Definition seconds (n : nat) : Z := (1000 * Z.of_nat n)%Z.

End PollProps.

(** ** The application manager *)
Module AppProps.
Import JS.
Import AppManager.

(** An application that never opens a window. *)
Definition windowless : electronApp nat :=
  mkApp (fun _ => Return []) (fun _ => Return "") (fun _ => 0%Z) 0%Z [].

(** An application whose graceful close hangs: the timer fires first. *)
Definition hanging : electronApp nat :=
  mkApp (fun _ => Return [7]) (fun _ => Return "Meeting") (fun _ => 0%Z) 0%Z
        [WithTimeout.TimerFires].

(** The close or the timer of the close race is delivered. *)
Definition delivered (evs : list (WithTimeout.event unit string)) : bool :=
  negb (List.length evs =? 0).

End AppProps.


(** ** Reports *)
Module ReportProps.
Import JS.
Import ReportManager.
Import Reporters.

(** [{}], the data [TestEngine.validateConfiguration] has validated. *)
Definition empty_object : reportData := AnObject false Absent Absent.

(** The two reporters of the manager, each writing its file. *)
Definition html_reporter : reporter :=
  mkReporter "HtmlReporter" "html"
    (Return (Some (mkReportResult true (Some "html") None))) None.

Definition json_reporter : reporter :=
  mkReporter "JsonReporter" "json"
    (Return (Some (mkReportResult true (Some "json") None)))
    (Some (Return "axe-reports/accessibility-summary.json")).

Definition builtin_reporters : list reporter := [html_reporter; json_reporter].

(** The sum of the counts of an object of counters. *)
Definition total (counts : list (string * tally)) : nat :=
  fold_right (fun kc n =>
                match snd kc with Count c => c + n | Text => n end) 0 counts.

(** Every value of the object is a count, or a string under a name of
    [Object.prototype]. *)
Definition proper (counts : list (string * tally)) : Prop :=
  Forall (fun kc => match snd kc with
                    | Count _ => inherited (fst kc) = false
                    | Text => inherited (fst kc) = true
                    end) counts.

(** The violations of all the pages. *)
Definition violations_of (pages : list pageResult) : list ruleResult :=
  flat_map (fun p => or_empty (p_violations p)) pages.

(** The violations a name of [Object.prototype] hides from the counts. *)
Definition hidden (key_of : ruleResult -> string) (vs : list ruleResult)
  : nat :=
  List.length (filter (fun v => inherited (key_of v)) vs).

(** The number of entries of the arrays of the pages. *)
Definition entries (get : pageResult -> option (list ruleResult))
    (pages : list pageResult) : nat :=
  fold_right (fun p n => List.length (or_empty (get p)) + n) 0 pages.

(** A page with three violations, one of them under the rule id
    [constructor]. *)
Definition named_after_a_member : pageResult :=
  mkPageResult
    (Some [mkRule (Some "color-contrast") (Some "serious") None;
           mkRule (Some "constructor") (Some "serious") None;
           mkRule (Some "color-contrast") (Some "serious") None])
    (Some []) (Some []) (Some []) (Some "Home") (Some "Home").

(** A page with two violations, one of them without impact. *)
Definition two_violations : pageResult :=
  mkPageResult
    (Some [mkRule (Some "color-contrast") (Some "serious") None;
           mkRule (Some "html-has-lang") None None])
    (Some [mkRule (Some "document-title") None None]) (Some []) None
    (Some "Home") (Some "Home").

End ReportProps.


(** ** The summary of the zoom check *)
Module ZoomSummaryProps.
Import JS.
Import ZoomChecker.

(** The zoom levels [executeCheck] tests. *)
Definition tested (o : options) : list Q :=
  filter (fun z => Qle_bool z (maxZoom o)) (zoomLevels o).

(** The entry of [layoutIssues], of [overflowIssues], for a test. *)
Definition layout_issue (t : zoomTest) : Q * option layoutData :=
  (zoomLevel t, zt_layoutData t).

Definition overflow_issue (t : zoomTest) : Q * option (Z * Z) :=
  (zoomLevel t, overflowData t).

(** A page that never throws and that breaks at every zoom above 100%:
    twelve elements leave the screen. *)
Definition breaking_page : page :=
  mkPage None []
    (fun _ => mkMetrics 900 700 900 700 900 700 900 700 900 700)
    (fun z => match z with Some (Qmake 1 1) => 0 | _ => 12 end)
    (fun _ => ["nav"; "aside"; "footer"; "a"; "b"; "c"; "d"; "e"; "f"; "g";
               "h"; "i"])
    [].

End ZoomSummaryProps.

(** ** The suite over several runs *)
Module SuiteProps.
Import JS.
Import TestEngine.

Section Growth.
Variable Data : Type.

(** The results [t'] extend the results [t]: each list of [t] is a
    prefix of the list of [t']. *)
Record grows (t t' : testResults Data) : Prop := {
  axe_grows : exists l, axeResults t' = axeResults t ++ l;
  extra_grows : exists l, extraResults t' = extraResults t ++ l;
  errors_grow : exists l, errors t' = errors t ++ l;
  warnings_grow : exists l, warnings t' = warnings t ++ l;
  screenshots_stay : screenshots t' = screenshots t
}.

(** What makes the setup phase fail, with the message it throws. *)
Definition setup_fails (cfg : config Data) (app : application)
    (message : string) : Prop :=
  (validateConfiguration cfg = false
   /\ message = "Configuration validation failed")
  \/ (validateConfiguration cfg = true /\ launchApp app = Throw message).

End Growth.

Arguments grows {Data}.
Arguments setup_fails {Data}.

(** An application that cannot be launched. *)
Definition unlaunchable : application :=
  mkApplication 0 5 (Throw "Executable not found: app.exe") (Return tt)
    (fun p => mkPageVisit (Return tt) (Return tt) None (Return None)
                (Scanner.mkLegacyPage (Return tt) (Return tt) (Return None)))
    (Return (mkReportResults true 0 [])) (Return tt).

(** The application [app], its reports going as [r] says. *)
Definition with_reports (app : application)
    (r : outcome reportResults string) : application :=
  mkApplication (now app) (elapsed app) (launchApp app)
                (getMainWindow app) (visit app) r (closeApp app).

(** "Settings", which cannot be reached, comes first. *)
Definition settings_first : config unit :=
  mkConfig "app.exe" "axe-reports" "app.exe" 1
           [mkPageConfig "Settings" "button.settings" true;
            mkPageConfig "Home" "a[href='#/main']" true] [].

End SuiteProps.

(* ================================================================== *)
(** * Part III: properties                                             *)
(* ================================================================== *)


(** ** Lists *)
Module ListFacts.

Lemma filter_split_length {A : Type} (f : A -> bool) (l : list A) :
  List.length (filter f l) + List.length (filter (fun x => negb (f x)) l)
  = List.length l.
Proof.
  induction l as [| a l IH]; simpl; [reflexivity |].
  destruct (f a); simpl; lia.
Qed.

Lemma filter_none {A : Type} (f : A -> bool) (l : list A) :
  (forall x, In x l -> f x = false) -> filter f l = [].
Proof.
  induction l as [| a l IH]; intros H; simpl; [reflexivity |].
  rewrite (H a (or_introl eq_refl)). apply IH.
  intros x Hx. apply H. now right.
Qed.

End ListFacts.

(** ** Landmark scoring *)
Module LandmarkFacts.
Import JS.
Import AccessibilityTreeChecker.
Import ListFacts.
Import LandmarkProps.

Lemma includes_In (l : list string) (x : string) :
  includes l x = true <-> In x l.
Proof.
  unfold includes. rewrite existsb_exists. split.
  - intros [y [Hin Heq]]. apply String.eqb_eq in Heq. now subst.
  - intros Hin. exists x. split; [assumption | apply String.eqb_refl].
Qed.

Lemma requiredLandmarks_NoDup : NoDup requiredLandmarks.
Proof.
  unfold requiredLandmarks.
  repeat (constructor; [simpl; intuition discriminate |]).
  constructor.
Qed.

(** The required roles found on the page are distinct landmarks of it, so
    a page has at least as many landmarks as required roles found. *)
Lemma found_le_present (axTree : option axNode) :
  let r := checkLandmarks axTree in
  List.length requiredLandmarks - List.length (missing r)
  <= List.length (present r).
Proof.
  cbv zeta. unfold checkLandmarks. cbn [present missing].
  set (roles := map lm_role (extractLandmarks_root axTree)).
  set (found := filter (fun role => includes roles role) requiredLandmarks).
  assert (Hlen : List.length found
                 + List.length (filter (fun role => negb (includes roles role))
                                       requiredLandmarks)
                 = List.length requiredLandmarks)
    by apply filter_split_length.
  assert (Hnd : NoDup found)
    by (apply NoDup_filter, requiredLandmarks_NoDup).
  assert (Hincl : incl found roles).
  { intros x Hx. apply filter_In in Hx. now apply includes_In. }
  pose proof (NoDup_incl_length Hnd Hincl) as Hle.
  subst found roles. rewrite length_map in Hle. lia.
Qed.

Lemma missing_unfold (axTree : option axNode) :
  missing (checkLandmarks axTree)
  = filter (fun role =>
              negb (includes (map lm_role (present (checkLandmarks axTree))) role))
           requiredLandmarks.
Proof. reflexivity. Qed.

Lemma score_formula {A B C : Type} (ls : list A) (ms : list B) (iss : list C) :
  calculateLandmarkScore ls ms iss
  = clamp 0 100
      (100 - 20 * Z.of_nat (List.length ms) - 10 * Z.of_nat (List.length iss)
       + (if (3 <=? List.length ls)%nat then 10 else 0))%Z.
Proof.
  unfold calculateLandmarkScore, clamp.
  destruct (3 <=? List.length ls); f_equal; f_equal; lia.
Qed.

(** C8, the claim as stated fails: a page that misses exactly two
    required landmarks (complementary and contentinfo) and has no landmark
    issue scores 70, not 60, because its three landmarks earn the bonus. *)
Lemma missing_two_scores_70_not_60 :
  missing (checkLandmarks (Some three_landmarks))
    = ["complementary"; "contentinfo"]
  /\ issues (checkLandmarks (Some three_landmarks)) = []
  /\ score (checkLandmarks (Some three_landmarks)) = 70%Z
  /\ score (checkLandmarks (Some three_landmarks)) <> 60%Z.
Proof.
  repeat split; try reflexivity. vm_compute. discriminate.
Qed.

(** C8 (amended): the landmark score of a page is 100 minus 20 per missing
    required landmark, minus 10 per landmark issue, plus 10 when at least
    three landmarks are present, clamped to [0, 100].  A page with all
    five required landmarks and no issue scores 100; a page missing
    exactly two required landmarks always has at least three landmarks,
    so with [k] issues it scores [max 0 (70 - 10 k)]: 70 without issues,
    and 60 only with exactly one issue. *)
Theorem landmark_score (axTree : option axNode) :
  let r := checkLandmarks axTree in
  score r
  = clamp 0 100
      (100 - 20 * Z.of_nat (List.length (missing r))
       - 10 * Z.of_nat (List.length (issues r))
       + (if (3 <=? List.length (present r))%nat then 10 else 0))%Z
  /\ (0 <= score r <= 100)%Z
  /\ ((forall role, In role requiredLandmarks ->
         In role (map lm_role (present r))) ->
      issues r = [] -> 3 <= List.length (present r) /\ score r = 100%Z)
  /\ (List.length (missing r) = 2 ->
      3 <= List.length (present r)
      /\ score r = Z.max 0 (70 - 10 * Z.of_nat (List.length (issues r)))
      /\ (issues r = [] -> score r = 70%Z)
      /\ (score r = 60%Z <-> List.length (issues r) = 1)).
Proof.
  intros r.
  assert (Hscore : score r
            = clamp 0 100
                (100 - 20 * Z.of_nat (List.length (missing r))
                 - 10 * Z.of_nat (List.length (issues r))
                 + (if (3 <=? List.length (present r))%nat then 10 else 0))%Z)
    by apply score_formula.
  pose proof (found_le_present axTree) as Hfound.
  cbv zeta in Hfound. fold r in Hfound.
  change (List.length requiredLandmarks) with 5 in Hfound.
  split; [exact Hscore |]. split.
  { rewrite Hscore. unfold clamp. lia. }
  split.
  - intros Hall Hiss.
    assert (Hmiss : missing r = []).
    { unfold r. rewrite missing_unfold. fold r.
      apply filter_none.
      intros role Hin. apply Hall in Hin. apply includes_In in Hin.
      now rewrite Hin. }
    rewrite Hmiss in Hfound.
    change (List.length (@nil string)) with 0 in Hfound.
    split; [lia |].
    rewrite Hscore, Hmiss, Hiss.
    destruct (3 <=? List.length (present r)) eqn:H3.
    + reflexivity.
    + apply Nat.leb_gt in H3. lia.
  - intros Htwo. rewrite Htwo in Hfound.
    assert (H3 : (3 <=? List.length (present r)) = true)
      by (apply Nat.leb_le; lia).
    rewrite Htwo, H3 in Hscore.
    assert (Hval : score r
                   = Z.max 0 (70 - 10 * Z.of_nat (List.length (issues r)))%Z).
    { rewrite Hscore. unfold clamp. lia. }
    split; [lia |]. split; [exact Hval |]. split.
    + intros Hiss. rewrite Hval, Hiss. reflexivity.
    + rewrite Hval. lia.
Qed.

(** The theorem applies to the page with all five landmarks: it scores
    100. *)
Lemma landmark_score_witness :
  score (checkLandmarks (Some five_landmarks)) = 100%Z.
Proof.
  refine (proj2 (proj1 (proj2 (proj2 (landmark_score (Some five_landmarks))))
                   _ _)).
  - intros role Hin. vm_compute in Hin. vm_compute. tauto.
  - reflexivity.
Defined.

End LandmarkFacts.

(** ** Zoom checking *)
Module ZoomFacts.
Import JS.
Import ZoomChecker.
Import ZoomProps.

Lemma exceeds_tolerance_iff (m : metrics) :
  ((bodyScrollWidth m >? windowInnerWidth m + 10)
   || (bodyScrollHeight m >? windowInnerHeight m + 10))%Z = true
  <-> exceeds_tolerance m.
Proof.
  unfold exceeds_tolerance.
  rewrite orb_true_iff, !Z.gtb_gt. reflexivity.
Qed.

Ltac next_fault :=
  match goal with
  | |- context [match ?l with [] => _ | _ :: _ => _ end] =>
      is_var l; destruct l as [| [?msg |] ?]
  end;
  cbn [faults next_call set_zoom style_zoom metrics_at offScreenCount_at
       brokenElements_at calls tl fst snd].

(** What one zoom test does, whatever the page answers. *)
Lemma testZoomLevel_spec (p : page) (z : Q) :
  let t := fst (testZoomLevel p z) in
  let p' := snd (testZoomLevel p z) in
  zoomLevel t = z
  /\ metrics_at p' = metrics_at p
  /\ (faults p = [] ->
      faults p' = [] /\ success t = true /\ style_zoom p' = None)
  /\ (success t = false -> overflow t = false /\ layoutBroken t = false)
  /\ (success t = true ->
      exists d, zt_layoutData t = Some d
                /\ measured d = metrics_at p (Some z)
                /\ (overflow t = true <-> exceeds_tolerance (measured d)))
  /\ (exists l, calls p' = calls p ++ l
                /\ existsb is_reset l = true
                /\ (existsb reset_done l = true -> style_zoom p' = None)).
Proof.
  destruct p as [sz f m o b c].
  unfold testZoomLevel, testZoomLevel_catch, checkLayoutBreakage,
    getLayoutBreakageDetails, evaluate, measure_script.
  cbn [faults next_call set_zoom style_zoom metrics_at offScreenCount_at
       brokenElements_at calls tl fst snd].
  repeat next_fault;
  try destruct (5 <? o (Some z)); repeat next_fault.
  all: cbn [zoomLevel success overflow layoutBroken zt_layoutData fst snd
            faults metrics_at calls style_zoom measured].
  all: repeat match goal with |- _ /\ _ => split end.
  all: try reflexivity.
  all: try (intros; discriminate).
  all: try (intros _; repeat split; reflexivity).
  all: try (intros _; eexists; split; [reflexivity |];
            split; [reflexivity | apply exceeds_tolerance_iff]).
  all: cbn [next_call set_zoom faults style_zoom metrics_at
            offScreenCount_at brokenElements_at calls tl];
       rewrite <- ?app_assoc; eexists; split; [reflexivity |];
       split; [reflexivity |];
       cbn; intros; first [reflexivity | discriminate].
Qed.

Lemma Qmax2_ub (a b : Q) : (a <= Qmax2 a b /\ b <= Qmax2 a b)%Q.
Proof.
  unfold Qmax2. destruct (Qle_bool a b) eqn:H.
  - apply Qle_bool_iff in H. split; [assumption | apply Qle_refl].
  - split; [apply Qle_refl |].
    apply Qlt_le_weak, Qnot_le_lt. intros Hle.
    apply Qle_bool_iff in Hle. congruence.
Qed.

Lemma Qmax2_In (a b : Q) : Qmax2 a b = a \/ Qmax2 a b = b.
Proof. unfold Qmax2. destruct (Qle_bool a b); auto. Qed.

(** [Math.max] returns one of its arguments, and none exceeds it. *)
Lemma max_of_spec (zs : list Q) (z : Q) :
  In (max_of z zs) (z :: zs)
  /\ (forall x, In x (z :: zs) -> (x <= max_of z zs)%Q).
Proof.
  unfold max_of. revert z.
  induction zs as [| y zs IH]; intros z; simpl.
  - split; [now left |]. intros x [<- | []]. apply Qle_refl.
  - destruct (IH (Qmax2 z y)) as [Hin Hub]. split.
    + destruct Hin as [Heq | Hin]; [| now right; right].
      rewrite <- Heq. destruct (Qmax2_In z y) as [-> | ->]; auto.
    + intros x Hx.
      assert (Hm : (Qmax2 z y <= fold_left Qmax2 zs (Qmax2 z y))%Q)
        by (apply Hub; now left).
      destruct (Qmax2_ub z y) as [Hz Hy].
      destruct Hx as [<- | [<- | Hx]].
      * eapply Qle_trans; eassumption.
      * eapply Qle_trans; eassumption.
      * apply Hub. now right.
Qed.

(** The recommendation: [maxSupportedZoom] is the highest zoom level
    whose test ran and showed neither overflow nor breakage (1.0 when
    there is none), and [meetsWCAG] says that it is at least 2.0. *)
Lemma recommendation_spec (tests : list zoomTest) :
  let r := calculateRecommendedZoom tests in
  (filter clean tests = [] -> maxSupportedZoom r = 1%Q)
  /\ (filter clean tests <> [] ->
      (exists t, In t tests /\ clean t = true
                 /\ zoomLevel t = maxSupportedZoom r)
      /\ (forall t, In t tests -> clean t = true ->
                    (zoomLevel t <= maxSupportedZoom r)%Q))
  /\ meetsWCAG r = Qle_bool 2 (maxSupportedZoom r)
  /\ (meetsWCAG r = true <->
      exists t, In t tests /\ clean t = true /\ (2 <= zoomLevel t)%Q).
Proof.
  unfold calculateRecommendedZoom.
  cbn [maxSupportedZoom meetsWCAG].
  destruct (filter clean tests) as [| t0 ts] eqn:Hf; cbn [map].
  - split; [reflexivity |]. split; [congruence |]. split; [reflexivity |].
    split; [discriminate |].
    intros [t [Hin [Hc _]]].
    assert (Hin' : In t (filter clean tests)) by (apply filter_In; auto).
    rewrite Hf in Hin'. destruct Hin'.
  - destruct (max_of_spec (map zoomLevel ts) (zoomLevel t0)) as [Hin Hub].
    change (zoomLevel t0 :: map zoomLevel ts)
      with (map zoomLevel (t0 :: ts)) in Hin, Hub.
    rewrite <- Hf in Hin, Hub.
    assert (Hmax : exists t, In t tests /\ clean t = true
                   /\ zoomLevel t = max_of (zoomLevel t0) (map zoomLevel ts)).
    { apply in_map_iff in Hin. destruct Hin as [t [Heq Ht]].
      apply filter_In in Ht. exists t. tauto. }
    assert (Hle : forall t, In t tests -> clean t = true ->
                  (zoomLevel t <= max_of (zoomLevel t0) (map zoomLevel ts))%Q).
    { intros t Ht Hc. apply Hub. apply in_map, filter_In. auto. }
    split; [discriminate |]. split; [auto |]. split; [reflexivity |].
    rewrite Qle_bool_iff. split.
    + intros H2. destruct Hmax as [t [Ht [Hc Heq]]].
      exists t. rewrite Heq. auto.
    + intros [t [Ht [Hc H2]]]. eapply Qle_trans; [exact H2 | auto].
Qed.

(** The loop of [executeCheck] appends one faithful test per zoom level
    within [maxZoom], in order; on a page that never throws every test
    succeeds. *)
Lemma zoom_loop_spec (o : options) (levels : list Q) :
  forall (acc : results) (p : page),
    let r := fst (zoom_loop o levels acc p) in
    let p' := snd (zoom_loop o levels acc p) in
    metrics_at p' = metrics_at p
    /\ exists new,
         zoomTests r = zoomTests acc ++ new
         /\ map zoomLevel new
            = filter (fun z => Qle_bool z (maxZoom o)) levels
         /\ Forall (faithful p) new
         /\ (faults p = [] -> faults p' = []
                               /\ Forall (fun t => success t = true) new).
Proof.
  induction levels as [| z levels IH]; intros acc p; cbn [zoom_loop filter].
  - split; [reflexivity |]. exists []. rewrite app_nil_r.
    repeat split; auto.
  - destruct (Qle_bool z (maxZoom o)) eqn:Hz; cbn [negb].
    + pose proof (testZoomLevel_spec p z) as Ht.
      destruct (testZoomLevel p z) as [t p1]. cbn [fst snd] in Ht.
      destruct Ht as [Hlevel [Hm [Hf [Hfail [Hok _]]]]].
      match goal with
      | |- context [zoom_loop o levels ?a p1] =>
          specialize (IH a p1); cbn [zoomTests] in IH
      end.
      destruct IH as [Hm' [new [Htests [Hlevels [Hall Hf']]]]].
      split; [congruence |].
      exists (t :: new). rewrite Htests, <- app_assoc. cbn [app map].
      split; [reflexivity |]. split; [now rewrite Hlevel, Hlevels |]. split.
      * constructor.
        -- split; [exact Hfail |]. rewrite Hlevel. exact Hok.
        -- unfold faithful in *. rewrite <- Hm. exact Hall.
      * intros Hp. destruct (Hf Hp) as [Hp1 [Hs _]].
        destruct (Hf' Hp1) as [Hp' Hnew]. split; [exact Hp' |].
        now constructor.
    + apply IH.
Qed.

(** One zoom test in terms of the page calls it made. *)
Lemma testZoomLevel_calls (p : page) (z : Q) :
  let t := fst (testZoomLevel p z) in
  let p' := snd (testZoomLevel p z) in
  exists l,
    calls p' = calls p ++ l
    /\ success t = negb (existsb failed_call l)
    /\ layoutBroken t
       = success t && existsb counted l && (5 <? offScreenCount_at p (Some z))
    /\ existsb is_reset l = true
    /\ style_zoom p'
       = (if existsb reset_done l then None
          else if existsb applied l then Some z else style_zoom p)
    /\ offScreenCount_at p' = offScreenCount_at p
    /\ (faults p = [] -> existsb counted l = true).
Proof.
  destruct p as [sz f m o b c].
  unfold testZoomLevel, testZoomLevel_catch, checkLayoutBreakage,
    getLayoutBreakageDetails, evaluate, measure_script.
  cbn [faults next_call set_zoom style_zoom metrics_at offScreenCount_at
       brokenElements_at calls tl fst snd].
  repeat next_fault;
  try destruct (5 <? o (Some z)) eqn:Hcount; repeat next_fault.
  all: cbn [zoomLevel success overflow layoutBroken zt_layoutData fst snd
            faults metrics_at calls style_zoom measured offScreenCount_at
            next_call set_zoom brokenElements_at tl].
  all: rewrite <- ?app_assoc; eexists; split; [reflexivity |].
  all: cbn; rewrite ?Hcount; repeat split; try reflexivity;
       intros; discriminate.
Qed.

Lemma clean_iff (t : zoomTest) :
  clean t = true
  <-> success t = true /\ overflow t = false /\ layoutBroken t = false.
Proof.
  unfold clean. rewrite !andb_true_iff, !negb_true_iff. tauto.
Qed.

Lemma Forall2_in_l {A B : Type} (R : A -> B -> Prop) (l : list A)
    (l' : list B) (x : A) :
  Forall2 R l l' -> In x l -> exists y, In y l' /\ R x y.
Proof.
  induction 1 as [| a b l l' Hab _ IH]; intros Hin; [destruct Hin |].
  destruct Hin as [<- | Hin].
  - exists b. split; [now left | exact Hab].
  - destruct (IH Hin) as [y [Hy HR]]. exists y. split; [now right | exact HR].
Qed.

Lemma Forall2_in_r {A B : Type} (R : A -> B -> Prop) (l : list A)
    (l' : list B) (y : B) :
  Forall2 R l l' -> In y l' -> exists x, In x l /\ R x y.
Proof.
  induction 1 as [| a b l l' Hab _ IH]; intros Hin; [destruct Hin |].
  destruct Hin as [<- | Hin].
  - exists a. split; [now left | exact Hab].
  - destruct (IH Hin) as [x [Hx HR]]. exists x. split; [now right | exact HR].
Qed.

(** On a page that never throws, the loop of [executeCheck] reports
    every zoom level within [maxZoom] as the page shows it. *)
Lemma zoom_loop_reports (o : options) (levels : list Q) :
  forall (acc : results) (p : page),
    faults p = [] ->
    exists new,
      zoomTests (fst (zoom_loop o levels acc p)) = zoomTests acc ++ new
      /\ Forall2 (reports_level p)
                 (filter (fun z => Qle_bool z (maxZoom o)) levels) new.
Proof.
  induction levels as [| z levels IH]; intros acc p Hp; cbn [zoom_loop filter].
  - exists []. rewrite app_nil_r. split; [reflexivity | constructor].
  - destruct (Qle_bool z (maxZoom o)) eqn:Hz; cbn [negb]; [| now apply IH].
    pose proof (testZoomLevel_spec p z) as Ht.
    pose proof (testZoomLevel_calls p z) as Hc.
    destruct (testZoomLevel p z) as [t p1]. cbn [fst snd] in Ht, Hc.
    destruct Ht as [Hlevel [Hm [Hf [_ [Hok _]]]]].
    destruct (Hf Hp) as [Hp1 [Hs _]].
    destruct Hc as [l [_ [_ [Hbroken [_ [_ [Hcount Hcounted]]]]]]].
    rewrite Hs, (Hcounted Hp) in Hbroken. cbn [andb] in Hbroken.
    match goal with
    | |- context [zoom_loop o levels ?a p1] =>
        destruct (IH a p1 Hp1) as [new [Htests Hall]]; cbn [zoomTests] in Htests
    end.
    exists (t :: new). rewrite Htests, <- app_assoc. split; [reflexivity |].
    constructor.
    + destruct (Hok Hs) as [d [_ [Hd Hiff]]].
      split; [exact Hlevel |]. split; [exact Hs |]. split.
      * now rewrite <- Hd.
      * rewrite Hbroken. apply Nat.ltb_lt.
    + clear - Hall Hm Hcount. induction Hall as [| x y l1 l2 Hxy _ IHall];
        constructor; [| exact IHall].
      unfold reports_level in *. now rewrite <- Hm, <- Hcount.
Qed.

(** On a page that never throws, [meetsWCAG] says whether the page
    supports one of the tested zoom levels from 200% on. *)
Lemma executeCheck_meetsWCAG (p : page) (o : options) :
  faults p = [] ->
  exists s,
    res_summary (fst (executeCheck p o)) = Some s
    /\ (meetsWCAG (recommendedZoomSupport s) = true
        <-> exists z, In z (zoomLevels o) /\ (z <= maxZoom o)%Q
                      /\ (2 <= z)%Q /\ supports p z).
Proof.
  intros Hp. unfold executeCheck.
  destruct (zoom_loop_reports o (zoomLevels o) (mkResults [] [] [] None) p Hp)
    as [new [Htests Hall]].
  destruct (zoom_loop o (zoomLevels o) (mkResults [] [] [] None) p) as [r p'].
  cbn [fst zoomTests app] in Htests. cbn [fst res_summary].
  eexists. split; [reflexivity |]. cbn [recommendedZoomSupport].
  rewrite Htests.
  destruct (recommendation_spec new) as [_ [_ [_ Hiff]]]. rewrite Hiff.
  split.
  - intros [t [Hin [Hc H2]]]. apply clean_iff in Hc.
    destruct Hc as [_ [Ho Hb]].
    destruct (Forall2_in_r _ _ _ t Hall Hin) as [z [Hz [Hlevel [_ [Hov Hbr]]]]].
    apply filter_In in Hz. destruct Hz as [Hz Hmax].
    exists z. split; [exact Hz |]. split; [now apply Qle_bool_iff |].
    split; [now rewrite <- Hlevel |]. split.
    + intros Hex. apply Hov in Hex. congruence.
    + destruct (Nat.le_gt_cases (offScreenCount_at p (Some z)) 5) as [Hle | Hgt];
        [exact Hle |].
      apply Hbr in Hgt. congruence.
  - intros [z [Hz [Hmax [H2 [Hno Hfew]]]]].
    assert (Hin : In z (filter (fun z => Qle_bool z (maxZoom o)) (zoomLevels o)))
      by (apply filter_In; split; [exact Hz | now apply Qle_bool_iff]).
    destruct (Forall2_in_l _ _ _ z Hall Hin) as [t [Ht [Hlevel [Hs [Hov Hbr]]]]].
    exists t. split; [exact Ht |]. split; [| now rewrite Hlevel].
    apply clean_iff. split; [exact Hs |]. split.
    + destruct (overflow t); [| reflexivity]. now destruct Hno; apply Hov.
    + destruct (layoutBroken t); [| reflexivity].
      assert (5 < offScreenCount_at p (Some z)) by now apply Hbr. lia.
Qed.

(** C9, the claim as stated fails: the page closes after the count of
    the off-screen elements, so that the reset throws, on the error path
    too.  The page stays zoomed at 200%, and the test reports no overflow
    although it measured 1481 pixels of content in a window of 900. *)
Lemma failed_reset_leaves_the_page_zoomed :
  let t := fst (testZoomLevel closing_page 2) in
  let p' := snd (testZoomLevel closing_page 2) in
  exceeds_tolerance (metrics_at closing_page (Some 2%Q))
  /\ success t = false
  /\ error t = Some "Target closed"
  /\ overflow t = false
  /\ style_zoom p' = Some 2%Q
  /\ calls p' = [(ApplyZoom 2, true); (MeasureLayout, true);
                 (CountOffScreen, true); (ResetZoom, false);
                 (ResetZoom, false)].
Proof.
  cbn. unfold exceeds_tolerance. cbn. repeat split. left. lia.
Qed.

(** C9 (amended): a zoom test succeeds exactly when applying the zoom,
    measuring and the reset that follows all succeed.  A test that
    succeeded flags overflow exactly when a scroll dimension exceeds the
    viewport dimension by more than 10 pixels, and layout breakage
    exactly when the off-screen elements were counted and are more than
    five; a test that failed flags neither, whatever was measured.  Every
    test issues a zoom reset, on the error path too; the zoom is cleared
    at return exactly when a reset call succeeded, and otherwise the page
    keeps the zoom that was applied.  [meetsWCAG] holds exactly when some
    test that succeeded without overflow and without breakage is at a
    level of at least 2.0, that is when the highest such level
    ([maxSupportedZoom], 1.0 when there is none) is at least 2.0; on a
    page that never throws, it says whether the page supports one of the
    tested levels from 200% on.  With the default levels, a page
    measuring scrollWidth 1481 against innerWidth 900 at 200% has its
    200% test flagged as overflowing when it succeeds, and
    [meetsWCAG = false]. *)
Theorem zoom_overflow_reset_wcag (p : page) (z : Q) (tests : list zoomTest)
    (o : options) :
  let t := fst (testZoomLevel p z) in
  let p' := snd (testZoomLevel p z) in
  let rec := calculateRecommendedZoom tests in
  (exists l,
     calls p' = calls p ++ l
     /\ (success t = true <-> existsb failed_call l = false)
     /\ (success t = true ->
         (layoutBroken t = true
          <-> existsb counted l = true /\ 5 < offScreenCount_at p (Some z)))
     /\ existsb is_reset l = true
     /\ style_zoom p'
        = (if existsb reset_done l then None
           else if existsb applied l then Some z else style_zoom p))
  /\ (success t = true ->
      exists d, zt_layoutData t = Some d
                /\ measured d = metrics_at p (Some z)
                /\ (overflow t = true <-> exceeds_tolerance (measured d)))
  /\ (success t = false -> overflow t = false /\ layoutBroken t = false)
  /\ (faults p = [] ->
      success t = true /\ style_zoom p' = None
      /\ (layoutBroken t = true <-> 5 < offScreenCount_at p (Some z)))
  /\ (meetsWCAG rec = true <->
      exists t, In t tests /\ success t = true /\ overflow t = false
                /\ layoutBroken t = false /\ (2 <= zoomLevel t)%Q)
  /\ (forall t, In t tests -> success t = true -> overflow t = false ->
                layoutBroken t = false ->
                (zoomLevel t <= maxSupportedZoom rec)%Q)
  /\ ((exists t, In t tests /\ success t = true /\ overflow t = false
                 /\ layoutBroken t = false
                 /\ zoomLevel t = maxSupportedZoom rec)
      \/ (maxSupportedZoom rec = 1%Q
          /\ forall t, In t tests ->
                       ~ (success t = true /\ overflow t = false
                          /\ layoutBroken t = false)))
  /\ (meetsWCAG rec = Qle_bool 2 (maxSupportedZoom rec))
  /\ (faults p = [] ->
      exists s,
        res_summary (fst (executeCheck p o)) = Some s
        /\ (meetsWCAG (recommendedZoomSupport s) = true
            <-> exists z, In z (zoomLevels o) /\ (z <= maxZoom o)%Q
                          /\ (2 <= z)%Q /\ supports p z))
  /\ (bodyScrollWidth (metrics_at p (Some 2%Q)) = 1481%Z ->
      windowInnerWidth (metrics_at p (Some 2%Q)) = 900%Z ->
      let r := fst (executeCheck p default_options) in
      exists t1 t2 t3 t4 s,
        zoomTests r = [t1; t2; t3; t4]
        /\ zoomLevel t4 = 2%Q
        /\ (success t4 = true -> overflow t4 = true)
        /\ (faults p = [] -> success t4 = true /\ overflow t4 = true)
        /\ res_summary r = Some s
        /\ meetsWCAG (recommendedZoomSupport s) = false).
Proof.
  intros t p' rec.
  destruct (testZoomLevel_spec p z) as [_ [_ [Hf [Hfail [Hok _]]]]].
  destruct (testZoomLevel_calls p z)
    as [l [Hcalls [Hsuccess [Hbroken [Hreset [Hzoom [_ Hcounted]]]]]]].
  fold t p' in Hf, Hfail, Hok, Hcalls, Hsuccess, Hbroken, Hreset, Hzoom.
  destruct (recommendation_spec tests) as [Hnone [Hsome [Hmeets Hiff]]].
  fold rec in Hnone, Hsome, Hmeets, Hiff.
  assert (Hbroken_iff : success t = true ->
            (layoutBroken t = true
             <-> existsb counted l = true /\ 5 < offScreenCount_at p (Some z))).
  { intros Hs. rewrite Hbroken, Hs. cbn [andb].
    rewrite andb_true_iff, Nat.ltb_lt. reflexivity. }
  split.
  { exists l. split; [exact Hcalls |]. split.
    - rewrite Hsuccess, negb_true_iff. reflexivity.
    - split; [exact Hbroken_iff |]. split; [exact Hreset | exact Hzoom]. }
  split; [exact Hok |]. split; [exact Hfail |]. split.
  { intros Hp. destruct (Hf Hp) as [_ [Hs Hz]].
    split; [exact Hs |]. split; [exact Hz |].
    rewrite (Hbroken_iff Hs), (Hcounted Hp). tauto. }
  split.
  { rewrite Hiff. split; intros [t0 [Hin [Hc H2]]].
    - apply clean_iff in Hc. exists t0. tauto.
    - exists t0. split; [exact Hin |]. split; [| tauto].
      apply clean_iff. tauto. }
  split.
  { intros t0 Hin Hs Ho Hb. apply Hsome.
    - intros Hnil.
      assert (Hin' : In t0 (filter clean tests))
        by (apply filter_In; split; [exact Hin | apply clean_iff; auto]).
      rewrite Hnil in Hin'. destruct Hin'.
    - exact Hin.
    - apply clean_iff; auto. }
  split.
  { destruct (filter clean tests) as [| t0 ts] eqn:Hclean.
    - right. split; [now apply Hnone |].
      intros t0 Hin Hc.
      assert (Hin' : In t0 (filter clean tests))
        by (apply filter_In; split; [exact Hin | apply clean_iff; exact Hc]).
      rewrite Hclean in Hin'. destruct Hin'.
    - left. destruct Hsome as [[t1 [Hin [Hc Hmax]]] _]; [discriminate |].
      apply clean_iff in Hc. exists t1. tauto. }
  split; [exact Hmeets |].
  split; [apply executeCheck_meetsWCAG |].
  intros Hsw Hiw r.
  pose proof (zoom_loop_spec default_options default_zoomLevels
                (mkResults [] [] [] None) p) as Hloop.
  unfold r, executeCheck. cbn [zoomLevels default_options].
  destruct (zoom_loop default_options default_zoomLevels
              (mkResults [] [] [] None) p) as [r0 p0].
  cbn [fst snd zoomTests res_summary] in *.
  destruct Hloop as [_ [new [Htests [Hlevels [Hall Hfaults]]]]].
  cbn [app] in Htests.
  change (filter (fun z0 => Qle_bool z0 (maxZoom default_options))
                 default_zoomLevels)
    with [1%Q; (5 # 4)%Q; (3 # 2)%Q; 2%Q] in Hlevels.
  destruct new as [| t1 [| t2 [| t3 [| t4 [| t5 new]]]]]; try discriminate Hlevels.
  cbn [map] in Hlevels.
  injection Hlevels as H1 H2 H3 H4.
  assert (Hover : success t4 = true -> overflow t4 = true).
  { intros Hs.
    apply Forall_inv_tail, Forall_inv_tail, Forall_inv_tail, Forall_inv in Hall.
    destruct Hall as [_ Hran]. destruct (Hran Hs) as [d [_ [Hd Hiff4]]].
    apply Hiff4. unfold exceeds_tolerance. left.
    rewrite Hd, H4, Hsw, Hiw. reflexivity. }
  exists t1, t2, t3, t4. eexists.
  split; [exact Htests |]. split; [exact H4 |]. split; [exact Hover |]. split.
  { intros Hp. destruct (Hfaults Hp) as [_ Hs].
    apply Forall_inv_tail, Forall_inv_tail, Forall_inv_tail, Forall_inv in Hs.
    auto. }
  split; [reflexivity |].
  cbn [recommendedZoomSupport]. rewrite Htests.
  destruct (meetsWCAG (calculateRecommendedZoom [t1; t2; t3; t4])) eqn:Hm;
    [| reflexivity].
  apply recommendation_spec in Hm. destruct Hm as [t0 [Hin [Hc H2']]].
  unfold clean in Hc. apply andb_true_iff in Hc. destruct Hc as [Hc _].
  apply andb_true_iff in Hc. destruct Hc as [Hs Ho].
  destruct Hin as [<- | [<- | [<- | [<- | []]]]].
  - rewrite H1 in H2'. apply Qle_bool_iff in H2'. discriminate H2'.
  - rewrite H2 in H2'. apply Qle_bool_iff in H2'. discriminate H2'.
  - rewrite H3 in H2'. apply Qle_bool_iff in H2'. discriminate H2'.
  - rewrite (Hover Hs) in Ho. discriminate Ho.
Qed.

(** The theorem on [overflowing_page]: the run reports that WCAG's 200%
    zoom is not met. *)
Lemma zoom_overflow_reset_wcag_witness :
  exists t1 t2 t3 t4 s,
    zoomTests (fst (executeCheck overflowing_page default_options))
      = [t1; t2; t3; t4]
    /\ zoomLevel t4 = 2%Q
    /\ (success t4 = true -> overflow t4 = true)
    /\ (faults overflowing_page = [] -> success t4 = true /\ overflow t4 = true)
    /\ res_summary (fst (executeCheck overflowing_page default_options)) = Some s
    /\ meetsWCAG (recommendedZoomSupport s) = false.
Proof.
  refine (proj2 (proj2 (proj2 (proj2 (proj2 (proj2 (proj2 (proj2 (proj2
            (zoom_overflow_reset_wcag overflowing_page 2%Q []
               default_options)))))))))
            _ _); reflexivity.
Defined.

End ZoomFacts.

(** ** Checker results and their aggregation *)
Module CheckerFacts.
Import JS.
Import BaseChecker.
Import CheckerManager.
Import CheckerProps.

Section Counting.
Variable Data : Type.

Lemma count_cons (v : verdict) (r : checkResult Data) rs :
  count v (r :: rs) = (if is_verdict v r then 1 else 0) + count v rs.
Proof. unfold count. simpl. destruct (is_verdict v r); reflexivity. Qed.

Lemma count_total (rs : list (checkResult Data)) :
  count Pass rs + count Fail rs + count Error rs = List.length rs.
Proof.
  induction rs as [| r rs IH]; [reflexivity |].
  rewrite !count_cons. simpl List.length.
  unfold is_verdict. destruct (classify r); lia.
Qed.

Lemma count_perm (v : verdict) (l l' : list (checkResult Data)) :
  Permutation l l' -> count v l = count v l'.
Proof.
  induction 1; try reflexivity.
  - rewrite !count_cons. lia.
  - rewrite !count_cons. lia.
  - congruence.
Qed.

(** One call of [processCheckResult] bumps the counter of the result's
    class and no other. *)
Lemma processCheckResult_counts (r : results Data) (k : string)
    (cr : checkResult Data) :
  let s := res_summary r in
  let s' := res_summary (processCheckResult r k cr) in
  totalChecks s' = totalChecks s
  /\ passed s' = passed s + (if is_verdict Pass cr then 1 else 0)
  /\ failed s' = failed s + (if is_verdict Fail cr then 1 else 0)
  /\ errors s' = errors s + (if is_verdict Error cr then 1 else 0).
Proof.
  unfold processCheckResult, is_verdict, classify.
  destruct (success cr) as [[|] |]; try destruct (truthy (error cr));
    cbn; repeat split; lia.
Qed.

Lemma fold_process_counts (rs : list (string * checkResult Data))
    (r : results Data) :
  let s := res_summary r in
  let s' := res_summary
              (fold_left (fun acc kr => processCheckResult acc (fst kr) (snd kr))
                         rs r) in
  totalChecks s' = totalChecks s
  /\ passed s' = passed s + count Pass (map snd rs)
  /\ failed s' = failed s + count Fail (map snd rs)
  /\ errors s' = errors s + count Error (map snd rs).
Proof.
  revert r. induction rs as [| [k cr] rs IH]; intros r; cbn [fold_left map].
  - unfold count. simpl. repeat split; lia.
  - specialize (IH (processCheckResult r k cr)).
    pose proof (processCheckResult_counts r k cr) as H.
    cbv zeta in IH, H. cbn [fst snd]. rewrite !count_cons.
    destruct IH as [-> [-> [-> ->]]]. destruct H as [-> [-> [-> ->]]].
    repeat split; lia.
Qed.

(** Both branches of [runAllChecks] process the same results in the same
    order. *)
Lemma process_all_fold (r : results Data) (cs : list (checker_obj Data))
    (page_name : string) (now concurrency : nat) :
  process_all Data r cs page_name now concurrency
  = fold_left (fun acc kr => processCheckResult acc (fst kr) (snd kr))
      (map (fun c => (name c, runSingleCheck c page_name now)) cs) r.
Proof.
  unfold process_all. destruct (1 <? concurrency).
  - revert r. induction cs as [| c cs IH]; intros r; [reflexivity |].
    cbn [map combine fold_left fst snd]. apply IH.
  - revert r. induction cs as [| c cs IH]; intros r; [reflexivity |].
    cbn [map fold_left fst snd]. apply IH.
Qed.

Lemma insert_by_priority_perm (c : checker_obj Data) (l : list (checker_obj Data)) :
  Permutation (insert_by_priority Data c l) (c :: l).
Proof.
  induction l as [| d l IH]; cbn [insert_by_priority]; [reflexivity |].
  destruct (getPriority c <? getPriority d)%Z; [reflexivity |].
  rewrite IH. apply perm_swap.
Qed.

(** Sorting by priority only reorders the checkers. *)
Lemma sort_by_priority_perm (cs : list (checker_obj Data)) :
  Permutation (sort_by_priority cs) cs.
Proof.
  unfold sort_by_priority.
  assert (H : forall acc, Permutation
                (fold_left (fun sorted c => insert_by_priority Data c sorted) cs acc)
                (acc ++ cs)).
  { induction cs as [| c cs IH]; intros acc; cbn [fold_left].
    - now rewrite app_nil_r.
    - rewrite IH, insert_by_priority_perm.
      cbn [app]. apply Permutation_middle. }
  apply (H []).
Qed.

(** The summary [runAllChecks] returns counts the results of the
    registered checkers by class. *)
Lemma runAllChecks_summary (cs : list (checker_obj Data)) (mc : nat)
    (page_name : string) (now : nat) :
  let rs := map (fun c => runSingleCheck c page_name now) cs in
  let s := res_summary (runAllChecks cs mc page_name now) in
  totalChecks s = List.length cs
  /\ passed s = count Pass rs
  /\ failed s = count Fail rs
  /\ errors s = count Error rs
  /\ successRate s
     = Some (if 0 <? List.length cs
             then JSNumber.percentage (count Pass rs) (List.length cs)
             else 0%Z).
Proof.
  unfold runAllChecks. cbn [res_summary totalChecks passed failed errors
                            successRate].
  rewrite process_all_fold.
  match goal with
  | |- context [fold_left ?f ?l ?r0] =>
      pose proof (fold_process_counts l r0) as H
  end.
  cbv zeta in H. cbn [res_summary totalChecks passed failed errors] in H.
  rewrite map_map in H. cbn [snd] in H.
  assert (Hperm : forall v,
            count v (map (fun c => runSingleCheck c page_name now)
                         (sort_by_priority cs))
            = count v (map (fun c => runSingleCheck c page_name now) cs)).
  { intros v. apply count_perm, Permutation_map, sort_by_priority_perm. }
  rewrite !Hperm in H.
  destruct H as [Ht [Hp [Hf He]]].
  rewrite Ht, Hp, Hf, He. repeat split; reflexivity.
Qed.

End Counting.

Lemma percentage_exact (p t : nat) :
  0 < t < 40 -> p <= t ->
  JSNumber.percentage p t = JSNumber.exact_percentage p t.
Proof.
  intros Ht Hp.
  assert (H : percentages_agree = true) by (vm_compute; reflexivity).
  unfold percentages_agree in H.
  rewrite forallb_forall in H. specialize (H t).
  rewrite forallb_forall in H.
  apply Z.eqb_eq, H; apply in_seq; lia.
Qed.

(** C2, the claim as stated fails.  [successRate] is computed in
    binary64: with 23 of 40 checks passed, [23 / 40 * 100] is
    57.49999999999999 and rounds to 57, where the exact percentage 57.5
    rounds to 58.  And a checker that throws [new Error('')] is not
    counted as an error: with a negative and a passing checker beside it
    the summary is errors = 0, failed = 2, passed = 1. *)
Lemma rate_is_binary64_rounded :
  let s := res_summary (runAllChecks forty_checkers 3 "Home" 0) in
  let s' := res_summary
              (runAllChecks (three_checkers (AnError "")) 3 "Home" 0) in
  totalChecks s = 40 /\ passed s = 23
  /\ successRate s = Some 57%Z
  /\ JSNumber.exact_percentage 23 40 = 58%Z
  /\ errors s' = 0 /\ failed s' = 2 /\ passed s' = 1.
Proof. vm_compute. repeat split. Qed.

(** C2 (amended): the summary of [runAllChecks] partitions the results
    of the checkers: a result with [success === false] and a truthy
    [error] counts as an error, one with [success === false] and no
    error as a failure, every other one as passed; the three counters add
    up to [totalChecks]; [successRate] is [Math.round(passed /
    totalChecks * 100)] in binary64, which is the exactly rounded
    percentage up to 39 checkers.  Three checkers of which one throws an
    error with a non-empty message, one returns a negative result
    without error and one succeeds give errors = failed = passed = 1 and
    successRate = 33. *)
Theorem summary_partitions_results {Data : Type}
    (cs : list (checker_obj Data)) (mc : nat) (page_name : string) (now : nat) :
  let rs := map (fun c => runSingleCheck c page_name now) cs in
  let s := res_summary (runAllChecks cs mc page_name now) in
  totalChecks s = List.length cs
  /\ errors s = count Error rs
  /\ failed s = count Fail rs
  /\ passed s = count Pass rs
  /\ passed s + failed s + errors s = totalChecks s
  /\ (0 < totalChecks s ->
      successRate s = Some (JSNumber.percentage (passed s) (totalChecks s)))
  /\ (totalChecks s = 0 -> successRate s = Some 0%Z)
  /\ (0 < totalChecks s < 40 ->
      successRate s
      = Some (JSNumber.exact_percentage (passed s) (totalChecks s)))
  /\ (forall a b c thrown rb rc,
        Permutation cs [a; b; c] ->
        run_method a page_name now = Throw thrown ->
        truthy (message_of thrown) = true ->
        run_method b page_name now = Return rb ->
        success rb = Some false -> truthy (error rb) = false ->
        run_method c page_name now = Return rc ->
        success rc <> Some false ->
        errors s = 1 /\ failed s = 1 /\ passed s = 1
        /\ successRate s = Some 33%Z).
Proof.
  intros rs s.
  destruct (runAllChecks_summary Data cs mc page_name now)
    as [Ht [Hp [Hf [He Hr]]]].
  fold rs s in Ht, Hp, Hf, He, Hr.
  pose proof (count_total Data rs) as Hsum.
  unfold rs in Hsum at 4. rewrite length_map in Hsum.
  assert (Hrate : 0 < totalChecks s ->
            successRate s
            = Some (JSNumber.percentage (passed s) (totalChecks s))).
  { intros Hpos. rewrite Hr, Hp, Ht.
    rewrite Ht in Hpos. apply Nat.ltb_lt in Hpos. now rewrite Hpos. }
  split; [exact Ht |]. split; [exact He |]. split; [exact Hf |].
  split; [exact Hp |]. split; [lia |]. split; [exact Hrate |]. split.
  { intros Hzero. rewrite Hr. rewrite Ht in Hzero. now rewrite Hzero. }
  split.
  { intros Hlt. rewrite Hrate by lia. f_equal.
    apply percentage_exact; lia. }
  intros a b c thrown rb rc Hperm Ha Hmsg Hb Hsb Heb Hc Hsc.
  assert (Hcount : forall v,
            count v rs
            = count v (map (fun c => runSingleCheck c page_name now) [a; b; c])).
  { intros v. apply count_perm, Permutation_map, Hperm. }
  assert (Hlen : List.length cs = 3)
    by (apply Permutation_length in Hperm; exact Hperm).
  assert (Hverdicts :
            count Error rs = 1 /\ count Fail rs = 1 /\ count Pass rs = 1).
  { rewrite !Hcount. unfold count, runSingleCheck. cbn [map].
    rewrite Ha, Hb, Hc. unfold is_verdict, classify. cbn [filter success error].
    rewrite Hsb, Heb, Hmsg.
    destruct (success rc) as [[|] |]; try congruence; repeat split. }
  destruct Hverdicts as [H1 [H2 H3]].
  rewrite He, Hf, Hp, H1, H2, H3.
  split; [reflexivity |]. split; [reflexivity |]. split; [reflexivity |].
  rewrite Hr, Hlen, H3. reflexivity.
Qed.

(** The theorem on [three_checkers], the first throwing an error with
    the message [page crashed]. *)
Lemma summary_partitions_results_witness :
  let s := res_summary
             (runAllChecks (three_checkers (AnError "page crashed")) 3
                           "Home" 0) in
  errors s = 1 /\ failed s = 1 /\ passed s = 1 /\ successRate s = Some 33%Z.
Proof.
  refine (proj2 (proj2 (proj2 (proj2 (proj2 (proj2 (proj2 (proj2
            (summary_partitions_results
               (three_checkers (AnError "page crashed")) 3 "Home" 0))))))))
            _ _ _ (AnError "page crashed") _ _ (Permutation_refl _)
            eq_refl eq_refl eq_refl eq_refl eq_refl eq_refl _).
  discriminate.
Defined.

Lemma derived_verdict {Data : Type} (page_name : string) (now : nat)
    (k : derived_class Data) (v : verdict) :
  is_verdict v (runSingleCheck (instantiate k) page_name now)
  = match v with
    | Fail => throws_without_message page_name k
    | Error => reports_error page_name k
    | Pass => negb (throws_without_message page_name k)
              && negb (reports_error page_name k)
    end.
Proof.
  destruct k as [[n prio] exec].
  unfold throws_without_message, reports_error, instantiate, derived,
    runSingleCheck, BaseChecker.run, is_verdict, classify.
  cbn [fst snd run_method].
  destruct (exec page_name) as [[[e d] |] | thrown]; cbn [success error].
  - cbn [out_error]. destruct (truthy e) eqn:He; destruct v; cbn;
      now rewrite ?He.
  - destruct v; reflexivity.
  - destruct (truthy (message_of thrown)); destruct v; reflexivity.
Qed.

Lemma count_derived {Data : Type} (page_name : string) (now : nat)
    (classes : list (derived_class Data)) (v : verdict) :
  count v (map (fun c => runSingleCheck c page_name now)
               (map instantiate classes))
  = List.length
      (filter (fun k => is_verdict v
                          (runSingleCheck (instantiate k) page_name now))
              classes).
Proof.
  unfold count. rewrite map_map.
  induction classes as [| k ks IH]; [reflexivity |].
  cbn [map filter].
  destruct (is_verdict v (runSingleCheck (instantiate k) page_name now));
    cbn [List.length]; now rewrite IH.
Qed.

(** C10: what [BaseChecker.run] and the summary do when [executeCheck]
    throws a value whose message is empty or missing ([new Error('')], or
    a thrown string).  [run] always sets a boolean [success], and a
    truthy [error] comes with [success = false]; but [success] is [false]
    with a falsy [error] exactly when [executeCheck] threw such a value.
    For checkers that all derive from [BaseChecker], the summary's
    [failed] counter is the number of checkers whose [executeCheck] did
    so, and [errors] the number of the other checkers that did not pass:
    [failed] is not always 0. *)
Theorem silent_throw_counts_as_failed {Data : Type}
    (classes : list (derived_class Data)) (mc : nat)
    (page_name : string) (now : nat) :
  let s := res_summary (runAllChecks (map instantiate classes) mc
                                     page_name now) in
  (forall n (executed : outcome (option (checkOutput Data)) thrown),
     let r := BaseChecker.run n page_name now executed in
     (success r = Some true \/ success r = Some false)
     /\ (truthy (error r) = true -> success r = Some false)
     /\ (success r = Some false /\ truthy (error r) = false
         <-> exists thrown, executed = Throw thrown
                            /\ truthy (message_of thrown) = false))
  /\ failed s
     = List.length (filter (throws_without_message page_name) classes)
  /\ errors s = List.length (filter (reports_error page_name) classes)
  /\ (forall k, In k classes -> throws_without_message page_name k = true ->
                1 <= failed s).
Proof.
  intros s. split.
  { intros n executed r. unfold r, BaseChecker.run.
    destruct executed as [[[e d] |] | thrown]; cbn [success error out_error].
    - destruct (truthy e) eqn:He; cbn [negb].
      + split; [now right |]. split; [reflexivity |]. split.
        * intros [_ H]. discriminate H.
        * intros [thrown [H _]]. discriminate H.
      + split; [now left |]. split; [discriminate |]. split.
        * intros [H _]. discriminate H.
        * intros [thrown [H _]]. discriminate H.
    - split; [now right |]. split; [reflexivity |]. split.
      + intros [_ H]. discriminate H.
      + intros [thrown [H _]]. discriminate H.
    - split; [now right |]. split; [reflexivity |]. split.
      + intros [_ H]. now exists thrown.
      + intros [thrown' [H Hm]]. injection H as <-. now split. }
  destruct (runAllChecks_summary Data (map instantiate classes) mc
                                 page_name now)
    as [_ [_ [Hf [He _]]]].
  fold s in Hf, He.
  assert (Hfailed : failed s
            = List.length (filter (throws_without_message page_name) classes)).
  { rewrite Hf, count_derived. f_equal. apply filter_ext.
    intros k. apply (derived_verdict page_name now k Fail). }
  split; [exact Hfailed |]. split.
  { rewrite He, count_derived. f_equal. apply filter_ext.
    intros k. apply (derived_verdict page_name now k Error). }
  intros k Hin Hk. rewrite Hfailed.
  assert (Hin' : In k (filter (throws_without_message page_name) classes))
    by (apply filter_In; now split).
  destruct (filter (throws_without_message page_name) classes);
    [destruct Hin' | cbn [List.length]; lia].
Qed.

(** The theorem on [silent_classes]: the two checkers whose
    [executeCheck] throws [new Error('')] and the string ['timeout'] are
    counted as failed, none as an error. *)
Lemma silent_throw_counts_as_failed_witness :
  let s := res_summary
             (runAllChecks (map instantiate silent_classes) 3 "Home" 0) in
  failed s = 2 /\ errors s = 0 /\ passed s = 1
  /\ success (BaseChecker.run (Data:=unit) "Silent" "Home" 0
                              (Throw (AnError ""))) = Some false
  /\ error (BaseChecker.run (Data:=unit) "Silent" "Home" 0
                            (Throw (AnError ""))) = Some ""
  /\ error (BaseChecker.run (Data:=unit) "Timeout" "Home" 0
                            (Throw NotAnError)) = None.
Proof.
  destruct (silent_throw_counts_as_failed silent_classes 3 "Home" 0)
    as [_ [Hfailed [Herrors _]]].
  cbv zeta in Hfailed, Herrors.
  split; [exact Hfailed |]. split; [exact Herrors |].
  repeat split.
Defined.

End CheckerFacts.

(** ** Retry with backoff *)
Module RetryFacts.
Import JS.
Import Retry.
Import RetryProps.

Section Contract.
Variables V E : Type.
Variable fn : nat -> outcome V E.
Variable o : options E.

Lemma invocations_app (t u : list effect) :
  invocations t + invocations u = invocations (t ++ u).
Proof. unfold invocations. now rewrite filter_app, length_app. Qed.

Lemma invocations_failed_rounds (a j : nat) :
  invocations (failed_rounds o a j) = j.
Proof.
  unfold invocations, failed_rounds. revert a.
  induction j as [| j IH]; intros a; [reflexivity |].
  cbn [seq flat_map app filter List.length]. now rewrite IH.
Qed.

Lemma delays_app (t u : list effect) :
  delays (t ++ u) = delays t ++ delays u.
Proof. unfold delays. apply flat_map_app. Qed.

Lemma delays_failed_rounds (a j : nat) :
  delays (failed_rounds o a j) = map (backoff o) (seq a j).
Proof.
  unfold delays, failed_rounds. revert a.
  induction j as [| j IH]; intros a; [reflexivity |].
  cbn [seq flat_map app map]. now rewrite IH.
Qed.

(** A whole [maxAttempts] is the number of rounds of the loop, and the
    test [attempt === maxAttempts] holds at the last of them. *)
Lemma whole_rounds (m : nat) : whole o m -> rounds o = m.
Proof.
  unfold whole, rounds. intros ->. rewrite Qfloor_Z. apply Nat2Z.id.
Qed.

Lemma whole_is_last (m a : nat) : whole o m -> is_last o a = (a =? m).
Proof.
  unfold whole, is_last. intros Hm.
  destruct (a =? m) eqn:Ha.
  - apply Nat.eqb_eq in Ha. subst a. apply Qeq_bool_iff. now symmetry.
  - apply Nat.eqb_neq in Ha.
    destruct (Qeq_bool (inject_Z (Z.of_nat a)) (maxAttempts o)) eqn:Hq;
      [| reflexivity].
    apply Qeq_bool_iff in Hq. rewrite Hm in Hq.
    unfold Qeq in Hq. cbn in Hq. lia.
Qed.

(** [j] retryable failures in a row, none of them at the last attempt,
    take the loop [j] iterations further. *)
Lemma retry_loop_rounds (j : nat) :
  forall a r last done,
    (forall i, a <= i < a + j -> retryable_failure fn o i) ->
    (forall i, a <= i < a + j -> is_last o i = false) ->
    j <= r ->
    exists last',
      retry_loop fn o a r last done
      = retry_loop fn o (a + j) (r - j) last' (done ++ failed_rounds o a j).
Proof.
  induction j as [| j IH]; intros a r last done Hfail Hnot Hr.
  - exists last. unfold failed_rounds. cbn [seq flat_map].
    now rewrite Nat.add_0_r, Nat.sub_0_r, app_nil_r.
  - destruct r as [| r]; [lia |].
    destruct (Hfail a ltac:(lia)) as [e [Hfn Hcond]].
    cbn [retry_loop]. rewrite Hfn, Hcond. cbn [negb].
    rewrite (Hnot a ltac:(lia)).
    destruct (IH (S a) r (Some e) (done ++ [Invoke a; Delay (backoff o a)]))
      as [last' Heq];
      [intros i Hi; apply Hfail; lia | intros i Hi; apply Hnot; lia | lia |].
    exists last'. rewrite Heq. unfold failed_rounds.
    cbn [seq flat_map]. rewrite <- app_assoc.
    replace (S a + j) with (a + S j) by lia.
    replace (S r - S j) with (r - j) by lia. reflexivity.
Qed.

(** Whatever the operation does and whatever [maxAttempts] is, a run is
    a number of failed rounds, none at an attempt that is the last,
    followed by one invocation at most. *)
Lemma retry_loop_shape (r : nat) :
  forall a last done,
    exists j tail,
      snd (retry_loop fn o a r last done)
      = done ++ failed_rounds o a j ++ tail
      /\ (tail = [] \/ tail = [Invoke (a + j)])
      /\ (forall i, a <= i < a + j -> is_last o i = false).
Proof.
  induction r as [| r IH]; intros a last done; cbn [retry_loop].
  - exists 0, []. unfold failed_rounds. cbn [seq flat_map app snd].
    rewrite app_nil_r. split; [reflexivity |]. split; [now left |]. lia.
  - assert (Hstop : exists j tail,
              done ++ [Invoke a] = done ++ failed_rounds o a j ++ tail
              /\ (tail = [] \/ tail = [Invoke (a + j)])
              /\ (forall i, a <= i < a + j -> is_last o i = false)).
    { exists 0, [Invoke a]. unfold failed_rounds. cbn [seq flat_map app].
      rewrite Nat.add_0_r. split; [reflexivity |]. split; [now right |]. lia. }
    destruct (fn a) as [v | e]; [exact Hstop |].
    destruct (retryCondition o e); cbn [negb]; [| exact Hstop].
    destruct (is_last o a) eqn:Hlast; [exact Hstop |].
    destruct (IH (S a) (Some e) (done ++ [Invoke a; Delay (backoff o a)]))
      as [j [tail [Heq [Htail Hnot]]]].
    exists (S j), tail. rewrite Heq. unfold failed_rounds.
    cbn [seq flat_map]. rewrite <- !app_assoc. cbn [app].
    replace (a + S j) with (S a + j) by lia.
    split; [reflexivity |]. split; [exact Htail |].
    intros i Hi. destruct (Nat.eq_dec i a) as [-> | Hne]; [exact Hlast |].
    apply Hnot. lia.
Qed.

(** Where a delay stands in such a run: right after the invocation of
    one of the failed rounds, with the backoff of that round. *)
Lemma delay_in_rounds (j : nat) :
  forall a tail pre n d post,
    (tail = [] \/ tail = [Invoke (a + j)]) ->
    failed_rounds o a j ++ tail = pre ++ Invoke n :: Delay d :: post ->
    a <= n < a + j /\ d = backoff o n.
Proof.
  unfold failed_rounds.
  induction j as [| j IH]; intros a tail pre n d post Htail Heq.
  - cbn [seq flat_map app] in Heq.
    destruct Htail as [-> | ->]; destruct pre as [| x [| y pre]];
      discriminate Heq.
  - cbn [seq flat_map app] in Heq.
    destruct pre as [| x [| y pre]]; cbn [app] in Heq.
    + injection Heq as <- <- _. split; [lia | reflexivity].
    + injection Heq as _ Heq _. discriminate Heq.
    + injection Heq as _ _ Heq.
      replace (a + S j) with (S a + j) in Htail by lia.
      destruct (IH (S a) tail pre n d post Htail Heq) as [Hn Hd].
      split; [lia | exact Hd].
Qed.

Lemma retry_loop_no_trailing_delay (m r : nat) :
  whole o m ->
  forall a last done,
    a + r = S m ->
    (r = 0 -> ends_with_delay done = false) ->
    ends_with_delay (snd (retry_loop fn o a r last done)) = false.
Proof.
  intros Hm.
  induction r as [| r IH]; intros a last done Hinv Hdone; cbn [retry_loop].
  - now apply Hdone.
  - assert (Hlast : ends_with_delay (done ++ [Invoke a]) = false)
      by (unfold ends_with_delay; now rewrite last_last).
    destruct (fn a) as [v | e]; [exact Hlast |].
    destruct (retryCondition o e); cbn [negb]; [| exact Hlast].
    rewrite (whole_is_last m a Hm).
    destruct (a =? m) eqn:Ha; [exact Hlast |].
    apply Nat.eqb_neq in Ha. apply IH; lia.
Qed.

End Contract.



(** Outside the whole numbers the test [attempt === maxAttempts] never
    holds: with [maxAttempts = 2.5] the loop makes two attempts and
    sleeps after each of them before it rethrows the last error. *)
Lemma fractional_maxAttempts :
  retry hopeless two_and_a_half
  = (Throw (Some "down"), [Invoke 1; Delay 1000; Invoke 2; Delay 2000])
  /\ forall m, ~ whole two_and_a_half m.
Proof.
  split; [reflexivity |].
  intros m Hm. unfold whole, two_and_a_half, Qeq in Hm. cbn in Hm. lia.
Qed.

End RetryFacts.

(** ** Timeout race *)
Module WithTimeoutFacts.
Import JS.
Import WithTimeout.
Import WithTimeoutProps.

Section Race.
Variables V E : Type.
Variable timeoutMessage : string.

(** A settled wrapper keeps its outcome. *)
Lemma wrapper_stable (evs : list (event V E)) (s : state V E) :
  is_pending (wrapper s) = false ->
  wrapper (fold_left (step timeoutMessage) evs s) = wrapper s.
Proof.
  revert s. induction evs as [| ev evs IH]; intros s Hs; [reflexivity |].
  cbn [fold_left].
  assert (Hstep : wrapper (step timeoutMessage s ev) = wrapper s).
  { destruct ev as [o |]; cbn [step].
    - destruct (operation s); cbn [wrapper]; try reflexivity.
      destruct (wrapper s) eqn:Hw; cbn in *; congruence.
    - destruct (timer s); cbn [wrapper]; try reflexivity.
      destruct (wrapper s) eqn:Hw; cbn in *; congruence. }
  rewrite IH; [exact Hstep | now rewrite Hstep].
Qed.

(** A settled operation keeps its outcome, whatever the timer does. *)
Lemma operation_stable (evs : list (event V E)) (s : state V E) :
  is_pending (operation s) = false ->
  operation (fold_left (step timeoutMessage) evs s) = operation s.
Proof.
  revert s. induction evs as [| ev evs IH]; intros s Hs; [reflexivity |].
  cbn [fold_left].
  assert (Hstep : operation (step timeoutMessage s ev) = operation s).
  { destruct ev as [o |]; cbn [step].
    - destruct (operation s) eqn:Hop; cbn in *; congruence.
    - destruct (timer s); reflexivity. }
  rewrite IH; [exact Hstep | now rewrite Hstep].
Qed.

(** The timer alone never settles the operation. *)
Lemma timer_leaves_operation (s : state V E) :
  operation (step timeoutMessage s TimerFires) = operation s.
Proof. cbn [step]. destruct (timer s); reflexivity. Qed.

End Race.

(** C5: if the operation settles before the timer fires, the wrapper
    settles with the operation's outcome, value or rejection, whatever
    happens later; if the timer fires first, the wrapper rejects with the
    timeout error and keeps it when the operation settles afterwards;
    the operation is left running after the timeout (still pending) and
    settles with its own outcome. *)
Theorem timeout_race {V E : Type} (timeoutMessage : string)
    (o : outcome V E) (later : list (event V E)) :
  wrapper (run timeoutMessage (OperationSettles o :: later))
    = match o with
      | Return v => Fulfilled v
      | Throw e => Rejected (OperationError e)
      end
  /\ wrapper (run timeoutMessage (TimerFires :: later))
     = Rejected (TimeoutError timeoutMessage)
  /\ wrapper (run timeoutMessage (TimerFires :: OperationSettles o :: later))
     = Rejected (TimeoutError timeoutMessage)
  /\ operation (run (V:=V) (E:=E) timeoutMessage [TimerFires]) = Pending
  /\ operation (run timeoutMessage (TimerFires :: OperationSettles o :: later))
     = match o with
       | Return v => Fulfilled v
       | Throw e => Rejected e
       end.
Proof.
  unfold run. cbn [fold_left].
  split; [| split; [| split; [| split]]].
  - rewrite wrapper_stable; destruct o; reflexivity.
  - rewrite wrapper_stable; reflexivity.
  - rewrite wrapper_stable; reflexivity.
  - reflexivity.
  - rewrite operation_stable; destruct o; reflexivity.
Qed.

End WithTimeoutFacts.

(** ** Scanner fallback *)
Module ScannerFacts.
Import JS.
Import Scanner.
Import ScannerProps.

(** The primary scanner never throws: it answers with a result, empty
    and carrying the message when something went wrong. *)
Lemma AxeScanner_scanPage_total (p : primaryPage) (page_name : string)
    (now : nat) :
  exists r, AxeScanner_scanPage p page_name now = Return (Some r).
Proof.
  unfold AxeScanner_scanPage.
  destruct (injected p); cbn [negb]; [| eexists; reflexivity].
  destruct (ready p) as [[] | m]; cbn; [| eexists; reflexivity].
  destruct (axeRun p) as [[r |] | m]; cbn; eexists; reflexivity.
Qed.

(** A failed primary scan resolves to the empty result carrying the
    message of what was thrown. *)
Lemma failed_scan_result (p : primaryPage) (page_name : string) (now : nat)
    (caught : thrown) :
  scan_fails p caught ->
  AxeScanner_scanPage p page_name now
  = Return (Some (empty_result page_name now (message_of caught) false)).
Proof.
  unfold scan_fails, AxeScanner_scanPage.
  intros [[-> ->] | [[-> ->] | [[-> [-> ->]] | [-> [-> [-> ->]]]]]];
    reflexivity.
Qed.

(** A successful primary scan resolves to the results of the rule
    engine, without error. *)
Lemma successful_scan_result (p : primaryPage) (page_name : string)
    (now : nat) :
  (forall caught, ~ scan_fails p caught) ->
  exists results,
    axeRun p = Return (Some results)
    /\ AxeScanner_scanPage p page_name now
       = Return (Some (with_metadata results page_name now)).
Proof.
  unfold scan_fails, AxeScanner_scanPage. intros Hnot.
  destruct (injected p); [| exfalso; eapply Hnot; left; eauto].
  destruct (ready p) as [[] | e]; [| exfalso; eapply Hnot; right; left; eauto].
  destruct (axeRun p) as [[results |] | e].
  - exists results. split; reflexivity.
  - exfalso. eapply Hnot. right. right. right. eauto.
  - exfalso. eapply Hnot. right. right. left. eauto.
Qed.

Lemma legacy_result_metadata (legacy : legacyPage) (page_name : string)
    (now : nat) (r : axeResults) :
  LegacyScanner_scanPage legacy page_name now = Return r ->
  pageName r = page_name /\ failedFallback r = false /\ error r = None.
Proof.
  unfold LegacyScanner_scanPage.
  destruct (loadState legacy) as [[] | m]; cbn; [| discriminate].
  destruct (injectAxe legacy) as [[] | m]; cbn; [| discriminate].
  destruct (legacyRun legacy) as [[e |] | m]; cbn; try discriminate.
  intros H. injection H as <-. repeat split.
Qed.

(** C3: [runAxeScan] never throws, but it does not see every failure of
    the primary scanner.  [AxeScanner.scanPage] turns what was thrown
    into an empty result carrying [error.message], and [runAxeScan] tests
    that field by truthiness.  When the message is a non-empty string the
    legacy scanner takes over: its result is returned, with its
    violations, tagged [usedLegacyFallback], or, when it throws too, the
    empty shape tagged [failedFallback] with the message of the legacy
    error.  When the message is empty ([new Error('')]) or missing (the
    thrown value is no [Error]) the empty result of the primary scanner
    is returned as it is, untagged, whatever the legacy scanner would
    have found. *)
Theorem silent_scan_failure_is_not_detected (p : primaryPage)
    (legacy : legacyPage) (page_name : string) (now : nat) (caught : thrown) :
  scan_fails p caught ->
  let primary := AxeScanner_scanPage p page_name now in
  (exists r, runAxeScan primary legacy page_name now = Return r)
  /\ (truthy (message_of caught) = true ->
      (forall legacyResult,
         LegacyScanner_scanPage legacy page_name now = Return legacyResult ->
         exists r,
           runAxeScan primary legacy page_name now = Return r
           /\ usedLegacyFallback r = true
           /\ failedFallback r = false
           /\ violations r = violations legacyResult
           /\ passes r = passes legacyResult
           /\ pageName r = page_name)
      /\ (forall legacyError,
            LegacyScanner_scanPage legacy page_name now = Throw legacyError ->
            exists r,
              runAxeScan primary legacy page_name now = Return r
              /\ violations r = [] /\ passes r = []
              /\ incomplete r = [] /\ inapplicable r = []
              /\ failedFallback r = true
              /\ error r = message_of legacyError
              /\ pageName r = page_name))
  /\ (truthy (message_of caught) = false ->
      exists r,
        runAxeScan primary legacy page_name now = Return r
        /\ r = empty_result page_name now (message_of caught) false
        /\ usedLegacyFallback r = false
        /\ failedFallback r = false
        /\ violations r = []
        /\ forall legacy',
             runAxeScan primary legacy' page_name now = Return r).
Proof.
  intros Hfails primary. unfold primary.
  rewrite (failed_scan_result p page_name now caught Hfails).
  unfold runAxeScan. cbn [and_then error empty_result].
  assert (Hcases : truthy (message_of caught) = true
                   \/ truthy (message_of caught) = false)
    by (destruct (truthy (message_of caught)); auto).
  split; [| split].
  - destruct (message_of caught) as [message |]; cbn [truthy] in *.
    + destruct (truthy_string message); cbn [try_catch].
      * destruct (LegacyScanner_scanPage legacy page_name now);
          cbn; eexists; reflexivity.
      * eexists; reflexivity.
    + eexists; reflexivity.
  - intros Htruthy.
    destruct (message_of caught) as [message |]; cbn [truthy] in Htruthy;
      [| discriminate].
    rewrite Htruthy. cbn [try_catch]. split.
    + intros legacyResult Hl. rewrite Hl. cbn.
      eexists. split; [reflexivity |]. cbn.
      destruct (legacy_result_metadata legacy page_name now legacyResult Hl)
        as [Hname [Htag _]].
      repeat split; assumption.
    + intros legacyError Hl. rewrite Hl. cbn.
      eexists. split; [reflexivity |]. cbn. repeat split.
  - intros Hfalsy.
    destruct (message_of caught) as [message |]; cbn [truthy] in Hfalsy.
    + rewrite Hfalsy. cbn [try_catch].
      eexists. split; [reflexivity |]. repeat split.
    + cbn [try_catch]. eexists. split; [reflexivity |]. repeat split.
Qed.

(** The theorem on the page whose readiness wait rejects with
    [new Error('')]: the empty result carrying [error = ''] comes back,
    untagged, although the legacy scanner would have found a violation. *)
Lemma silent_scan_failure_is_not_detected_witness :
  runAxeScan (AxeScanner_scanPage silent_primary "Home" 0)
             working_legacy "Home" 0
  = Return (mkAxeResults [] [] [] [] "Home" 0 "Home" (Some "") false false)
  /\ exists legacyResult,
       LegacyScanner_scanPage working_legacy "Home" 0 = Return legacyResult
       /\ violations legacyResult = ["color-contrast"].
Proof.
  split.
  - destruct (proj2 (proj2 (silent_scan_failure_is_not_detected
                             silent_primary working_legacy "Home" 0
                             (AnError "")
                             (or_intror (or_introl (conj eq_refl eq_refl)))))
                    eq_refl)
      as [r [Hr [-> _]]].
    exact Hr.
  - eexists. split; reflexivity.
Defined.

(** With a message the fallback works: the stalled page gets the legacy
    result, tagged. *)
Lemma stalled_scan_falls_back :
  exists r,
    runAxeScan (AxeScanner_scanPage stalled_primary "Home" 0)
               working_legacy "Home" 0 = Return r
    /\ usedLegacyFallback r = true
    /\ failedFallback r = false
    /\ violations r = ["color-contrast"]
    /\ passes r = ["html-has-lang"]
    /\ pageName r = "Home".
Proof. eexists. repeat split. Qed.

End ScannerFacts.

(** ** The page loop of the test engine *)
Module EngineFacts.
Import JS.
Import TestEngine.
Import EngineProps.

Section Pages.
Variable Data : Type.
Variable cfg : config Data.
Variable app : application.

(** The scan step never throws. *)
Lemma runAxeScan_returns primary legacy page_name now :
  exists r, Scanner.runAxeScan primary legacy page_name now = Return r.
Proof.
  unfold Scanner.runAxeScan.
  destruct primary as [[r |] | m]; cbn [and_then try_catch].
  - destruct (Scanner.error r) as [m |]; [| eexists; reflexivity].
    destruct (truthy_string m); cbn [try_catch]; [| eexists; reflexivity].
    destruct (Scanner.LegacyScanner_scanPage legacy page_name now);
      cbn; eexists; reflexivity.
  - destruct (Scanner.LegacyScanner_scanPage legacy page_name now);
      cbn; eexists; reflexivity.
  - destruct (Scanner.LegacyScanner_scanPage legacy page_name now);
      cbn; eexists; reflexivity.
Qed.

(** What one step of a page task does to the two result lists. *)
Lemma advance_page_lists (p : pageConfig) (pc : pagePc) (t : testResults Data) :
  let pc' := fst (TestEngine.advance_page cfg app p pc t) in
  let t' := snd (TestEngine.advance_page cfg app p pc t) in
  List.length (axeResults t') + (if scanned pc then 1 else 0)
    = List.length (axeResults t) + (if scanned pc' then 1 else 0)
  /\ List.length (extraResults t') + (if finished pc then 1 else 0)
     = List.length (extraResults t) + (if finished pc' then 1 else 0)
  /\ List.length (errors t) <= List.length (errors t')
  /\ (ended pc = true -> pc' = pc /\ t' = t).
Proof.
  destruct pc; cbn [TestEngine.advance_page].
  - destruct (navigate p (visit app p)); cbn.
    + repeat split; try lia; discriminate.
    + destruct (emergencyScreenshot (visit app p)); cbn;
        repeat split; try lia; discriminate.
  - cbn. rewrite length_app. cbn. repeat split; try lia; discriminate.
  - cbn. rewrite length_app. cbn. repeat split; try lia; discriminate.
  - destruct (runAxeScan_returns (primaryScan (visit app p))
                (legacyScan (visit app p)) (name p) (now app)) as [r Hr].
    rewrite Hr. cbn. rewrite length_app. cbn.
    repeat split; try lia; discriminate.
  - cbn. rewrite length_app. cbn. repeat split; try lia; discriminate.
  - cbn. repeat split; lia.
  - cbn. repeat split; lia.
Qed.

Lemma tally_cons (f : pagePc -> bool) (pc : pagePc) (ps : list pagePc) :
  tally f (pc :: ps) = (if f pc then 1 else 0) + tally f ps.
Proof. unfold tally. cbn. destruct (f pc); reflexivity. Qed.

(** The same for a step of the task of page [i] among all tasks. *)
Lemma advance_at_lists (i : nat) :
  forall (pages : list pageConfig) (ps : list pagePc) (t : testResults Data),
    let ps' := fst (TestEngine.advance_at cfg app i pages ps t) in
    let t' := snd (TestEngine.advance_at cfg app i pages ps t) in
    List.length ps' = List.length ps
    /\ List.length (axeResults t') + tally scanned ps
       = List.length (axeResults t) + tally scanned ps'
    /\ List.length (extraResults t') + tally finished ps
       = List.length (extraResults t) + tally finished ps'
    /\ List.length (errors t) <= List.length (errors t').
Proof.
  induction i as [| i IH]; intros pages ps t;
    destruct pages as [| p pages], ps as [| pc ps];
    cbn [TestEngine.advance_at fst snd]; try (repeat split; lia).
  - pose proof (advance_page_lists p pc t) as H.
    destruct (TestEngine.advance_page cfg app p pc t) as [pc' t']. cbn [fst snd] in *.
    rewrite !tally_cons. cbn [List.length]. repeat split; lia.
  - specialize (IH pages ps t).
    destruct (TestEngine.advance_at cfg app i pages ps t) as [ps' t']. cbn [fst snd] in *.
    rewrite !tally_cons. cbn [List.length]. repeat split; lia.
Qed.

Lemma advance_page_consistent (p : pageConfig) (pc : pagePc)
    (t : testResults Data) :
  (consistent app) p pc -> (consistent app) p (fst (TestEngine.advance_page cfg app p pc t)).
Proof.
  unfold consistent, nav_ok. destruct pc; cbn [TestEngine.advance_page];
    try (cbn; tauto).
  - destruct (navigate p (visit app p)); cbn; auto.
  - destruct (runAxeScan_returns (primaryScan (visit app p))
                (legacyScan (visit app p)) (name p) (now app)) as [r Hr].
    rewrite Hr. cbn. auto.
Qed.

Lemma advance_at_consistent (i : nat) :
  forall (pages : list pageConfig) (ps : list pagePc) (t : testResults Data),
    Forall2 (consistent app) pages ps ->
    Forall2 (consistent app) pages (fst (TestEngine.advance_at cfg app i pages ps t)).
Proof.
  induction i as [| i IH]; intros pages ps t H;
    destruct H as [| p pc pages ps Hc Hrest];
    cbn [TestEngine.advance_at fst]; try constructor; auto.
  - pose proof (advance_page_consistent p pc t Hc) as H.
    destruct (TestEngine.advance_page cfg app p pc t) as [pc' t']. cbn [fst] in *.
    constructor; assumption.
  - specialize (IH pages ps t Hrest).
    destruct (TestEngine.advance_at cfg app i pages ps t) as [ps' t']. cbn [fst] in *.
    constructor; assumption.
Qed.

(** Once every task has ended, the finished ones are those of the pages
    whose navigation succeeded. *)
Lemma ended_tally (pages : list pageConfig) (ps : list pagePc) :
  Forall2 (consistent app) pages ps ->
  forallb ended ps = true ->
  tally finished ps = List.length (filter (nav_ok app) pages)
  /\ tally scanned ps = List.length (filter (nav_ok app) pages).
Proof.
  induction 1 as [| p pc pages ps Hc Hrest IH]; intros Hend; [split; reflexivity |].
  cbn [forallb] in Hend. apply andb_true_iff in Hend. destruct Hend as [He Hend].
  destruct (IH Hend) as [IH1 IH2]. rewrite !tally_cons. cbn [filter].
  unfold consistent in Hc. destruct pc; try discriminate He;
    rewrite Hc; cbn [finished scanned List.length]; lia.
Qed.

Lemma advance_page_pc (p : pageConfig) (pc : pagePc) (t : testResults Data) :
  fst (TestEngine.advance_page cfg app p pc t) = (next_pc app) p pc.
Proof.
  destruct pc; cbn [TestEngine.advance_page next_pc]; try reflexivity.
  - destruct (navigate p (visit app p)); reflexivity.
  - destruct (Scanner.runAxeScan _ _ _ _); reflexivity.
Qed.

Lemma four_steps_end (p : pageConfig) (pc : pagePc) :
  ended ((next_pc app) p ((next_pc app) p ((next_pc app) p ((next_pc app) p pc)))) = true.
Proof.
  destruct pc; cbn [next_pc]; try reflexivity.
  - destruct (navigate p (visit app p)); cbn [next_pc]; [| reflexivity].
    destruct (Scanner.runAxeScan _ _ _ _); reflexivity.
  - destruct (Scanner.runAxeScan _ _ _ _); reflexivity.
Qed.

Lemma next_pc_ended (p : pageConfig) (pc : pagePc) :
  ended pc = true -> (next_pc app) p pc = pc.
Proof. destruct pc; try discriminate; reflexivity. Qed.

Lemma advance_at_pcs (i : nat) :
  forall (pages : list pageConfig) (ps : list pagePc) (t : testResults Data),
    fst (TestEngine.advance_at cfg app i pages ps t) = (step_pcs app) i pages ps.
Proof.
  induction i as [| i IH]; intros pages ps t;
    destruct pages as [| p pages], ps as [| pc ps];
    cbn [TestEngine.advance_at step_pcs fst]; try reflexivity.
  - rewrite <- (advance_page_pc p pc t).
    destruct (TestEngine.advance_page cfg app p pc t); reflexivity.
  - rewrite <- (IH pages ps t).
    destruct (TestEngine.advance_at cfg app i pages ps t); reflexivity.
Qed.

Lemma pcs_advance (s : scanState Data) (i : nat) :
  pcs (TestEngine.advance cfg app s i) = (step_pcs app) i (pagesToScan cfg) (pcs s).
Proof.
  unfold TestEngine.advance.
  rewrite <- (advance_at_pcs i (pagesToScan cfg) (pcs s) (shared s)).
  destruct (TestEngine.advance_at cfg app i (pagesToScan cfg) (pcs s) (shared s));
    reflexivity.
Qed.

Lemma pcs_run_to_end (s : scanState Data) (i : nat) :
  pcs (run_to_end cfg app s i) = (four_steps app) (pagesToScan cfg) (pcs s) i.
Proof.
  unfold run_to_end, four_steps. cbn [fold_left]. now rewrite !pcs_advance.
Qed.

Lemma pcs_finish (l : list nat) (s : scanState Data) :
  pcs (fold_left (run_to_end cfg app) l s)
  = fold_left ((four_steps app) (pagesToScan cfg)) l (pcs s).
Proof.
  revert s. induction l as [| i l IH]; intros s; [reflexivity |].
  cbn [fold_left]. now rewrite IH, pcs_run_to_end.
Qed.

Lemma four_steps_shift (p : pageConfig) (pages : list pageConfig)
    (pc : pagePc) (l : list nat) :
  forall ps,
    fold_left ((four_steps app) (p :: pages)) (map S l) (pc :: ps)
    = pc :: fold_left ((four_steps app) pages) l ps.
Proof.
  induction l as [| i l IH]; intros ps; [reflexivity |].
  cbn [map fold_left]. rewrite <- IH. reflexivity.
Qed.

(** Running every task to its end leaves no task unfinished. *)
Lemma finish_all_ended (pages : list pageConfig) :
  forall ps,
    List.length ps = List.length pages ->
    forallb ended (fold_left ((four_steps app) pages) (seq 0 (List.length pages)) ps)
    = true.
Proof.
  induction pages as [| p pages IH]; intros ps Hlen;
    destruct ps as [| pc ps]; try discriminate Hlen; [reflexivity |].
  cbn [List.length seq fold_left].
  rewrite <- seq_shift.
  unfold four_steps at 2. cbn [step_pcs].
  rewrite four_steps_shift. cbn [forallb].
  rewrite four_steps_end. apply IH. now injection Hlen.
Qed.

Lemma step_pcs_length (i : nat) :
  forall pages ps, List.length ((step_pcs app) i pages ps) = List.length ps.
Proof.
  induction i as [| i IH]; intros [| p pages] [| pc ps];
    cbn [step_pcs List.length]; auto.
Qed.

Lemma in_step_start (t0 : testResults Data) : in_step Data cfg app t0 (start_scan cfg t0).
Proof.
  unfold start_scan. constructor; cbn [pcs shared].
  - apply length_map.
  - induction (pagesToScan cfg); constructor; [exact I | assumption].
  - induction (pagesToScan cfg) as [| p l IH]; cbn [map]; [cbn; lia |].
    rewrite tally_cons. cbn [scanned]. lia.
  - induction (pagesToScan cfg) as [| p l IH]; cbn [map]; [cbn; lia |].
    rewrite tally_cons. cbn [finished]. lia.
  - lia.
Qed.

Lemma in_step_advance (t0 : testResults Data) (s : scanState Data) (i : nat) :
  in_step Data cfg app t0 s -> in_step Data cfg app t0 (TestEngine.advance cfg app s i).
Proof.
  intros [Hlen Hcons Haxe Hextra Herr].
  pose proof (advance_at_lists i (pagesToScan cfg) (pcs s) (shared s)) as H.
  pose proof (advance_at_consistent i (pagesToScan cfg) (pcs s) (shared s) Hcons)
    as Hc.
  unfold TestEngine.advance.
  destruct (TestEngine.advance_at cfg app i (pagesToScan cfg) (pcs s) (shared s))
    as [ps' t'].
  cbn [fst snd] in *. destruct H as [H1 [H2 [H3 H4]]].
  constructor; cbn [pcs shared]; try lia. exact Hc.
Qed.

Lemma in_step_run (t0 : testResults Data) (l : list nat) :
  forall s, in_step Data cfg app t0 s -> in_step Data cfg app t0 (fold_left (TestEngine.advance cfg app) l s).
Proof.
  induction l as [| i l IH]; intros s Hs; [exact Hs |].
  cbn [fold_left]. apply IH, in_step_advance, Hs.
Qed.

Lemma in_step_finish (t0 : testResults Data) (l : list nat) :
  forall s, in_step Data cfg app t0 s -> in_step Data cfg app t0 (fold_left (run_to_end cfg app) l s).
Proof.
  induction l as [| i l IH]; intros s Hs; [exact Hs |].
  cbn [fold_left]. apply IH. unfold run_to_end.
  apply in_step_run, Hs.
Qed.

(** The sequential loop that continues on error runs every page task to
    its end, in order. *)
Lemma sequential_continue (remaining : nat) :
  forall i s,
    sequential cfg app true i remaining s
    = (Return tt, fold_left (run_to_end cfg app) (seq i remaining) s).
Proof.
  induction remaining as [| r IH]; intros i s; [reflexivity |].
  cbn [sequential seq fold_left].
  destruct (nth_error (pcs (run_to_end cfg app s i)) i) as [[] |]; apply IH.
Qed.

(** A sequential loop that stops at the first error has run a prefix of
    the page tasks. *)
Lemma sequential_prefix (continueOnError : bool) (remaining : nat) :
  forall i s,
    exists k, k <= remaining
      /\ snd (sequential cfg app continueOnError i remaining s)
         = fold_left (run_to_end cfg app) (seq i k) s.
Proof.
  induction remaining as [| r IH]; intros i s.
  - exists 0. split; [lia | reflexivity].
  - cbn [sequential].
    destruct (IH (S i) (run_to_end cfg app s i)) as [k [Hk Heq]].
    assert (Hgo : exists k', k' <= S r
              /\ snd (sequential cfg app continueOnError (S i) r
                                 (run_to_end cfg app s i))
                 = fold_left (run_to_end cfg app) (seq i k') s).
    { exists (S k). split; [lia |]. rewrite Heq. reflexivity. }
    destruct (nth_error (pcs (run_to_end cfg app s i)) i) as [[] |]; try exact Hgo.
    destruct continueOnError; [exact Hgo |].
    exists 1. split; [lia | reflexivity].
Qed.

Lemma tally_scanned (ps : list pagePc) :
  tally scanned ps = tally finished ps + tally at_extra ps.
Proof.
  induction ps as [| pc ps IH]; [reflexivity |].
  rewrite !tally_cons, IH. destruct pc; cbn; lia.
Qed.

Lemma concurrent_ended (t0 : testResults Data) (schedule : list nat) :
  let done := concurrent cfg app schedule (start_scan cfg t0) in
  in_step Data cfg app t0 done /\ forallb ended (pcs done) = true.
Proof.
  unfold concurrent.
  assert (Hs : in_step Data cfg app t0 (fold_left (TestEngine.advance cfg app) schedule
                                     (start_scan cfg t0)))
    by apply in_step_run, in_step_start.
  split; [apply in_step_finish, Hs |].
  rewrite pcs_finish. apply finish_all_ended. apply Hs.
Qed.

Lemma tally_app (f : pagePc -> bool) (ps qs : list pagePc) :
  tally f (ps ++ qs) = tally f ps + tally f qs.
Proof. unfold tally. now rewrite filter_app, length_app. Qed.

Lemma tally_queued (f : pagePc -> bool) (pages : list pageConfig) :
  f Queued = false -> tally f (map (fun _ => Queued) pages) = 0.
Proof.
  intros Hq. induction pages as [| p pages IH]; [reflexivity |].
  cbn [map]. rewrite tally_cons, Hq, IH. reflexivity.
Qed.

(** A step of the task of the page that follows [before]. *)
Lemma step_pcs_at (before : list pageConfig) :
  forall (p : pageConfig) (after : list pageConfig)
         (ps : list pagePc) (pc : pagePc) (qs : list pagePc),
    List.length ps = List.length before ->
    step_pcs app (List.length before) (before ++ p :: after) (ps ++ pc :: qs)
    = ps ++ next_pc app p pc :: qs.
Proof.
  induction before as [| b before IH]; intros p after ps pc qs Hlen;
    destruct ps as [| x ps]; try discriminate Hlen; [reflexivity |].
  cbn [List.length List.app step_pcs]. rewrite IH; [reflexivity |].
  now injection Hlen.
Qed.

(** A queued page task run to its end. *)
Lemma queued_to_end (p : pageConfig) :
  let pc := next_pc app p (next_pc app p (next_pc app p
              (next_pc app p Queued))) in
  (nav_ok app p = true /\ pc = Finished)
  \/ (nav_ok app p = false /\ exists e, pc = Failed e).
Proof.
  unfold nav_ok. cbn [next_pc].
  destruct (navigate p (visit app p)) as [[] | e]; cbn [next_pc].
  - left. split; [reflexivity |].
    destruct (runAxeScan_returns (primaryScan (visit app p))
                (legacyScan (visit app p)) (name p) (now app)) as [r Hr].
    rewrite Hr. reflexivity.
  - right. split; [reflexivity |]. now exists e.
Qed.

(** The sequential loop that stops at the first error: the tasks it
    leaves finished are those of the pages through the first failure
    whose navigation succeeded. *)
Lemma sequential_stop_tally (f : pagePc -> bool) :
  f Queued = false -> f Finished = true -> (forall e, f (Failed e) = false) ->
  forall (after before : list pageConfig) (ps : list pagePc)
         (t : testResults Data),
    pagesToScan cfg = before ++ after ->
    List.length ps = List.length before ->
    tally f (pcs (snd (sequential cfg app false (List.length before)
                         (List.length after)
                         (mkScanState (ps ++ map (fun _ => Queued) after) t))))
    = tally f ps
      + List.length (filter (nav_ok app) (through_first_failure app after)).
Proof.
  intros Hq Hfin Hfail.
  induction after as [| p after IH]; intros before ps t Hpages Hlen.
  - cbn [List.length sequential snd pcs map through_first_failure filter].
    rewrite app_nil_r. lia.
  - cbn [List.length sequential].
    remember (run_to_end cfg app
                (mkScanState (ps ++ map (fun _ => Queued) (p :: after)) t)
                (List.length before)) as s' eqn:Hs'.
    assert (Hpcs : pcs s'
                   = ps ++ next_pc app p (next_pc app p (next_pc app p
                             (next_pc app p Queued)))
                        :: map (fun _ => Queued) after).
    { rewrite Hs', pcs_run_to_end. cbn [pcs map]. unfold four_steps.
      rewrite Hpages. now rewrite !step_pcs_at by exact Hlen. }
    assert (Hnth : nth_error (pcs s') (List.length before)
                   = Some (next_pc app p (next_pc app p (next_pc app p
                             (next_pc app p Queued))))).
    { rewrite Hpcs, <- Hlen, nth_error_app2 by lia.
      now rewrite Nat.sub_diag. }
    rewrite Hnth. cbn [through_first_failure].
    destruct (queued_to_end p) as [[Hok Hpc] | [Hok [e Hpc]]];
      rewrite Hpc in *; rewrite Hok.
    + destruct s' as [ps' t']. cbn [pcs] in Hpcs. subst ps'.
      replace (ps ++ Finished :: map (fun _ => Queued) after)
        with ((ps ++ [Finished]) ++ map (fun _ => Queued) after)
        by (now rewrite <- app_assoc).
      replace (S (List.length before)) with (List.length (before ++ [p]))
        by (rewrite length_app; cbn; lia).
      rewrite (IH (before ++ [p]) (ps ++ [Finished]) t').
      * rewrite tally_app, tally_cons, Hfin. cbn [filter]. rewrite Hok.
        change (tally f []) with 0. cbn [List.length]. lia.
      * now rewrite <- app_assoc.
      * rewrite !length_app. cbn. lia.
    + cbn [snd]. rewrite Hpcs, tally_app, tally_cons, Hfail.
      rewrite (tally_queued f after Hq). cbn [filter]. rewrite Hok. cbn. lia.
Qed.

(** What a scanning phase adds to the two result lists. *)
Lemma scanningPhase_lists (o : options) (t0 : testResults Data) :
  let t' := snd (scanningPhase cfg app o t0) in
  let reached := List.length (filter (nav_ok app) (visited Data cfg app o)) in
  List.length (axeResults t') = List.length (axeResults t0) + reached
  /\ List.length (extraResults t') = List.length (extraResults t0) + reached.
Proof.
  unfold scanningPhase, visited, effective_concurrency.
  set (conc := match concurrency o with
               | Some c => c
               | None => if maxConcurrency cfg =? 0 then 1
                         else maxConcurrency cfg
               end).
  destruct (List.length (pagesToScan cfg) =? 0) eqn:Hempty.
  - apply Nat.eqb_eq in Hempty. apply length_zero_iff_nil in Hempty.
    rewrite Hempty. cbn [snd logError axeResults extraResults].
    destruct (getMainWindow app); [destruct (_ && _) |]; cbn; lia.
  - destruct (getMainWindow app) as [[] | e];
      [| cbn; lia].
    destruct (conc =? 1); cbn [andb].
    + destruct (continueOnError o); cbn [negb].
      * rewrite sequential_continue.
        destruct (concurrent_ended t0 []) as [Hd Hend].
        unfold concurrent in Hd, Hend. cbn [fold_left] in Hd, Hend.
        destruct (ended_tally (pagesToScan cfg) _ (tasks_consistent _ _ _ _ _ Hd)
                              Hend) as [Hfin Hscan].
        destruct Hd as [_ _ Haxe Hextra _].
        cbn [snd]. lia.
      * pose proof (sequential_stop_tally scanned eq_refl eq_refl
                      (fun _ => eq_refl) (pagesToScan cfg) [] [] t0
                      eq_refl eq_refl) as Hscan.
        pose proof (sequential_stop_tally finished eq_refl eq_refl
                      (fun _ => eq_refl) (pagesToScan cfg) [] [] t0
                      eq_refl eq_refl) as Hfin.
        cbn [List.length List.app] in Hscan, Hfin.
        fold (start_scan cfg t0) in Hscan, Hfin.
        destruct (sequential_prefix false (List.length (pagesToScan cfg)) 0
                                    (start_scan cfg t0)) as [k [_ Hk]].
        assert (Hin : in_step Data cfg app t0
                        (snd (sequential cfg app false 0
                                (List.length (pagesToScan cfg))
                                (start_scan cfg t0))))
          by (rewrite Hk; apply in_step_finish, in_step_start).
        destruct Hin as [_ _ Haxe Hextra _].
        destruct (sequential cfg app false 0 (List.length (pagesToScan cfg))
                             (start_scan cfg t0)) as [[[] | e] s];
          cbn [snd fst] in *;
          change (tally scanned []) with 0 in Hscan;
          change (tally finished []) with 0 in Hfin;
          [lia | unfold logError, set_errors;
                 cbn [axeResults extraResults]; lia].
    + destruct (concurrent_ended t0 (schedule o)) as [Hd Hend].
      destruct (ended_tally (pagesToScan cfg) _ (tasks_consistent _ _ _ _ _ Hd)
                            Hend) as [Hfin Hscan].
      destruct Hd as [_ _ Haxe Hextra _].
      cbn [snd]. lia.
Qed.

(** The reporting and cleanup phases leave the two lists alone. *)
Lemma closing_phases_lists (t : testResults Data) :
  axeResults (cleanupPhase app (reportingPhase app t)) = axeResults t
  /\ extraResults (cleanupPhase app (reportingPhase app t)) = extraResults t.
Proof.
  unfold cleanupPhase, reportingPhase.
  destruct (closeApp app), (generateAllReports app) as [rr | m];
    try destruct (rr_success rr); split; reflexivity.
Qed.

(** What a run adds to the two result lists of the engine: what its
    scanning phase adds, when the setup succeeds. *)
Lemma runTestSuite_lists (o : options) (e : engine Data) :
  isRunning e = false ->
  exists r,
    fst (runTestSuite cfg app o e) = Return r
    /\ (List.length (axeResults (testResults_of e))
        = List.length (extraResults (testResults_of e)) ->
        List.length (axeResults r) = List.length (extraResults r))
    /\ (validateConfiguration cfg = true -> launchApp app = Return tt ->
        List.length (axeResults r)
        = List.length (axeResults (testResults_of e))
          + List.length (filter (nav_ok app) (visited Data cfg app o))).
Proof.
  intros Hidle. unfold runTestSuite. rewrite Hidle.
  set (t1 := mkTestResults (Some (now app)) (axeResults (testResults_of e))
               (extraResults (testResults_of e))
               (screenshots (testResults_of e)) (errors (testResults_of e))
               (warnings (testResults_of e)) (duration (testResults_of e))
               (success (testResults_of e)) (reports (testResults_of e))).
  unfold setupPhase.
  destruct (validateConfiguration cfg); cbn [negb].
  - destruct (launchApp app) as [[] | m].
    + destruct (scanningPhase_lists o t1) as [Haxe Hextra].
      cbn [axeResults extraResults t1] in Haxe, Hextra.
      destruct (scanningPhase cfg app o t1) as [[[] | m] t'];
        cbn [snd] in Haxe, Hextra; eexists; (split; [reflexivity |]).
      * destruct (closing_phases_lists t') as [Ha He].
        unfold finish. cbn [axeResults extraResults]. rewrite Ha, He.
        split; intros; lia.
      * unfold finish, set_errors. cbn [axeResults extraResults].
        split; intros; lia.
    + eexists. split; [reflexivity |].
      unfold finish, set_errors, logError. cbn [axeResults extraResults t1].
      split; [intros H; exact H | discriminate].
  - eexists. split; [reflexivity |].
    unfold finish, set_errors, logError. cbn [axeResults extraResults t1].
    split; [intros H; exact H | discriminate].
Qed.

End Pages.

(** C7, the claim as stated fails: while the extra checks of a page are
    awaited its scan result is already in [axeResults] and nothing is in
    [extraResults] yet. *)
Lemma lists_differ_during_extra_checks :
  let s := fold_left (advance one_page working_app) [0; 0]
                     (start_scan one_page (testResults_of new_engine)) in
  pcs s = [AtExtra]
  /\ List.length (axeResults (shared s)) = 1
  /\ List.length (extraResults (shared s)) = 0.
Proof. repeat split. Qed.

(** C7 (amended): at every point of a scanning phase, whatever the
    interleaving of the page tasks, [axeResults] has grown by one entry
    per page whose scan result was pushed and [extraResults] by one per
    page whose extra checks have completed, so [axeResults] is ahead by
    exactly the number of pages whose extra checks are running.  When the
    phase has run every page task to its end, concurrently or
    sequentially, both lists have grown by the number of pages whose
    navigation succeeded, and are of equal length if they were before.
    Whatever the options, a scanning phase adds to both lists one entry
    per visited page whose navigation succeeded, where a sequential scan
    that does not continue on error visits no page after the first
    failure and no page is visited without a main window; and the lists
    a run returns are of equal length if those of the engine were.
    A page whose navigation fails adds nothing to either list: it adds
    two error records, [page_processing] then [page_scan]. *)
Theorem result_lists_track_pages {Data : Type} (cfg : config Data)
    (app : application) (t0 : testResults Data) (schedule : list nat) :
  let pages := pagesToScan cfg in
  let s := fold_left (advance cfg app) schedule (start_scan cfg t0) in
  let done := concurrent cfg app schedule (start_scan cfg t0) in
  let reached := List.length (filter (nav_ok app) pages) in
  List.length (axeResults (shared s))
    = List.length (axeResults t0) + tally scanned (pcs s)
  /\ List.length (extraResults (shared s))
     = List.length (extraResults t0) + tally finished (pcs s)
  /\ tally scanned (pcs s) = tally finished (pcs s) + tally at_extra (pcs s)
  /\ List.length (axeResults (shared done))
     = List.length (axeResults t0) + reached
  /\ List.length (extraResults (shared done))
     = List.length (extraResults t0) + reached
  /\ sequential cfg app true 0 (List.length pages) (start_scan cfg t0)
     = (Return tt, concurrent cfg app [] (start_scan cfg t0))
  /\ (List.length (axeResults t0) = List.length (extraResults t0) ->
      List.length (axeResults (shared done))
      = List.length (extraResults (shared done))
      /\ (tally at_extra (pcs s) = 0 ->
          List.length (axeResults (shared s))
          = List.length (extraResults (shared s))))
  /\ (forall o,
        let t' := snd (scanningPhase cfg app o t0) in
        let reached_o :=
          List.length (filter (nav_ok app) (visited Data cfg app o)) in
        List.length (axeResults t') = List.length (axeResults t0) + reached_o
        /\ List.length (extraResults t')
           = List.length (extraResults t0) + reached_o)
  /\ (forall o e,
        isRunning e = false ->
        exists r,
          fst (runTestSuite cfg app o e) = Return r
          /\ (List.length (axeResults (testResults_of e))
              = List.length (extraResults (testResults_of e)) ->
              List.length (axeResults r) = List.length (extraResults r))
          /\ (validateConfiguration cfg = true -> launchApp app = Return tt ->
              List.length (axeResults r)
              = List.length (axeResults (testResults_of e))
                + List.length (filter (nav_ok app) (visited Data cfg app o))))
  /\ (forall p t e,
        navigate p (visit app p) = Throw e ->
        let s1 := advance_page cfg app p Queued t in
        let s2 := advance_page cfg app p (fst s1) (snd s1) in
        let s3 := advance_page cfg app p (fst s2) (snd s2) in
        fst s3 = Failed e
        /\ axeResults (snd s3) = axeResults t
        /\ extraResults (snd s3) = extraResults t
        /\ errors (snd s3)
           = errors t
             ++ [mkError "page_processing" e (now app) (Some (name p))
                         (Some (selector p));
                 mkError "page_scan" e (now app) (Some (name p)) None]).
Proof.
  intros pages s done reached.
  assert (Hs : in_step Data cfg app t0 s)
    by apply in_step_run, in_step_start.
  destruct (concurrent_ended Data cfg app t0 schedule) as [Hd Hend].
  fold done in Hd, Hend.
  destruct (ended_tally app pages (pcs done) (tasks_consistent _ _ _ _ _ Hd) Hend)
    as [Hfin Hscan].
  destruct Hs as [_ _ Haxe Hextra _]. destruct Hd as [_ _ Haxe' Hextra' _].
  pose proof (tally_scanned (pcs s)) as Hsplit.
  split; [exact Haxe |]. split; [exact Hextra |]. split; [exact Hsplit |].
  split; [unfold reached; lia |]. split; [unfold reached; lia |].
  split; [apply sequential_continue |]. split; [| split; [| split]].
  - intros H0. split; lia.
  - intros o. apply scanningPhase_lists.
  - intros o e. apply runTestSuite_lists.
  - intros p t e Hnav. cbn [advance_page]. rewrite Hnav.
    destruct (emergencyScreenshot (visit app p)); cbn;
      repeat split; now rewrite <- app_assoc.
Qed.

(** A sequential scan that stops at the first failure: "Settings" cannot
    be reached and comes first, so that "Home" is never visited and
    nothing is added to either list. *)
Lemma stopped_scan_visits_no_further_page :
  let o := mkOptions (Some 1) false [] in
  let t' := snd (scanningPhase SuiteProps.settings_first settings_unreachable o
                               (testResults_of new_engine)) in
  map name (visited unit SuiteProps.settings_first settings_unreachable o) = ["Settings"]
  /\ filter (nav_ok settings_unreachable) (pagesToScan SuiteProps.settings_first)
     = [mkPageConfig "Home" "a[href='#/main']" true]
  /\ axeResults t' = [] /\ extraResults t' = [].
Proof. repeat split. Qed.

(** The theorem on the one-page run, from a fresh engine. *)
Lemma result_lists_track_pages_witness :
  let done := concurrent one_page working_app [0]
                         (start_scan one_page (testResults_of new_engine)) in
  List.length (axeResults (shared done))
  = List.length (extraResults (shared done)).
Proof.
  exact (proj1 (proj1 (proj2 (proj2 (proj2 (proj2 (proj2 (proj2
           (result_lists_track_pages one_page working_app
              (testResults_of new_engine) [0])))))))
           eq_refl)).
Defined.

(** *** The suite *)

Lemma length_zero_iff_nil {A : Type} (l : list A) :
  (List.length l =? 0) = true <-> l = [].
Proof. destruct l; cbn; split; congruence. Qed.

(** Unless a suite is already running, [runTestSuite] returns the
    results, with [success] set to whether [errors] is empty, and leaves
    the engine idle. *)
Lemma runTestSuite_returns {Data : Type} (cfg : config Data)
    (app : application) (o : options) (e : engine Data) :
  isRunning e = false ->
  exists r b,
    runTestSuite cfg app o e = (Return r, mkEngine r false)
    /\ success r = Some b
    /\ (b = true <-> errors r = []).
Proof.
  intros Hidle. unfold runTestSuite. rewrite Hidle.
  match goal with
  | |- context [let (phases, t2) := ?x in _] => destruct x as [[[] | err] t2]
  end.
  - eexists. exists (List.length (errors t2) =? 0).
    split; [reflexivity |]. split; [reflexivity |].
    cbn. apply length_zero_iff_nil.
  - eexists. exists false.
    split; [reflexivity |]. split; [reflexivity |].
    cbn. split; [discriminate |]. intros H.
    apply (f_equal (@List.length _)) in H. rewrite length_app in H.
    cbn in H. lia.
Qed.

Section TwoPages.
Variable Data : Type.
Variable cfg : config Data.
Variable app : application.
Variables A B : pageConfig.
Variable rA : Scanner.axeResults.
Variable e : string.

Hypothesis pages_AB : pagesToScan cfg = [A; B].
Hypothesis A_navigates : navigate A (visit app A) = Return tt.
Hypothesis A_scans : primaryScan (visit app A) = Return (Some rA).
Hypothesis A_clean : Scanner.error rA = None.
Hypothesis B_fails : navigate B (visit app B) = Throw e.

Variable t1 : testResults Data.
Hypothesis fresh :
  axeResults t1 = [] /\ extraResults t1 = [] /\ screenshots t1 = []
  /\ errors t1 = [] /\ warnings t1 = [].

Lemma two_pages_start : two_pages_inv Data cfg app A B rA e t1 (start_scan cfg t1).
Proof.
  exists Queued, Queued. unfold start_scan. rewrite pages_AB.
  split; [reflexivity |]. split; [exact I |]. split; [now left |].
  cbn [shared]. destruct t1; cbn in *.
  destruct fresh as [-> [-> [-> [-> ->]]]]. reflexivity.
Qed.

Lemma A_scan_result :
  Scanner.runAxeScan (primaryScan (visit app A)) (legacyScan (visit app A))
                     (name A) (now app) = Return rA.
Proof. unfold Scanner.runAxeScan. rewrite A_scans. cbn. now rewrite A_clean. Qed.

Lemma two_pages_advance (s : scanState Data) (i : nat) :
  two_pages_inv Data cfg app A B rA e t1 s -> two_pages_inv Data cfg app A B rA e t1 (advance cfg app s i).
Proof.
  intros [pcA [pcB [Hpcs [HA [HB Hshared]]]]].
  unfold advance. rewrite pages_AB, Hpcs, Hshared.
  destruct i as [| [| i]]; cbn [advance_at].
  - destruct pcA; try contradiction; cbn [advance_page].
    + rewrite A_navigates. exists AtScan, pcB.
      split; [reflexivity |]. split; [exact I |]. split; [exact HB |].
      reflexivity.
    + rewrite A_scan_result. exists AtExtra, pcB.
      split; [reflexivity |]. split; [exact I |]. split; [exact HB |].
      reflexivity.
    + exists Finished, pcB.
      split; [reflexivity |]. split; [exact I |]. split; [exact HB |].
      reflexivity.
    + exists Finished, pcB.
      split; [reflexivity |]. split; [exact I |]. split; [exact HB |].
      reflexivity.
  - destruct HB as [-> | [-> | [-> | ->]]]; cbn [advance_page].
    + rewrite B_fails. exists pcA, (NavFailed e).
      split; [reflexivity |]. split; [exact HA |].
      split; [right; now left |].
      unfold added. destruct (emergencyScreenshot (visit app B)); reflexivity.
    + exists pcA, (Rejected e).
      split; [reflexivity |]. split; [exact HA |].
      split; [right; right; now left |].
      unfold added. destruct (emergencyScreenshot (visit app B)); reflexivity.
    + exists pcA, (Failed e).
      split; [reflexivity |]. split; [exact HA |].
      split; [right; right; now right |].
      unfold added. destruct (emergencyScreenshot (visit app B)); reflexivity.
    + exists pcA, (Failed e).
      split; [reflexivity |]. split; [exact HA |].
      split; [right; right; now right |]. reflexivity.
  - exists pcA, pcB.
    split; [destruct i; reflexivity |]. split; [exact HA |].
    split; [exact HB |]. destruct i; reflexivity.
Qed.

Lemma two_pages_run (l : list nat) :
  forall s, two_pages_inv Data cfg app A B rA e t1 s -> two_pages_inv Data cfg app A B rA e t1 (fold_left (advance cfg app) l s).
Proof.
  induction l as [| i l IH]; intros s Hs; [exact Hs |].
  cbn [fold_left]. apply IH, two_pages_advance, Hs.
Qed.

Lemma two_pages_finish (l : list nat) :
  forall s, two_pages_inv Data cfg app A B rA e t1 s ->
            two_pages_inv Data cfg app A B rA e t1 (fold_left (run_to_end cfg app) l s).
Proof.
  induction l as [| i l IH]; intros s Hs; [exact Hs |].
  cbn [fold_left]. apply IH. unfold run_to_end. apply two_pages_run, Hs.
Qed.

(** However the two page tasks interleave, the scanning phase ends with
    the scan and extra results of page A and the two error records of
    page B. *)
Lemma two_pages_done (schedule : list nat) :
  shared (concurrent cfg app schedule (start_scan cfg t1))
  = added Data cfg app A B rA e t1 Finished (Failed e).
Proof.
  destruct (concurrent_ended Data cfg app t1 schedule) as [_ Hend].
  assert (Hinv : two_pages_inv Data cfg app A B rA e t1 (concurrent cfg app schedule (start_scan cfg t1))).
  { unfold concurrent. apply two_pages_finish, two_pages_run, two_pages_start. }
  destruct Hinv as [pcA [pcB [Hpcs [HA [HB Hshared]]]]].
  cbv zeta in Hend. rewrite Hpcs in Hend. cbn [forallb] in Hend.
  apply andb_true_iff in Hend. destruct Hend as [HendA HendB].
  apply andb_true_iff in HendB. destruct HendB as [HendB _].
  rewrite Hshared.
  destruct pcA; try contradiction; try discriminate HendA.
  destruct HB as [-> | [-> | [-> | ->]]]; try discriminate HendB.
  reflexivity.
Qed.

Variable o : options.
Hypothesis continues : continueOnError o = true.
Hypothesis window_ready : getMainWindow app = Return tt.

Lemma scanning_two_pages :
  scanningPhase cfg app o t1 = (Return tt, added Data cfg app A B rA e t1 Finished (Failed e)).
Proof.
  unfold scanningPhase. rewrite pages_AB, window_ready, continues.
  cbn [List.length Nat.eqb].
  match goal with |- context [if ?c =? 1 then _ else _] => destruct (c =? 1) end.
  - replace 2 with (List.length (pagesToScan cfg)) by (now rewrite pages_AB).
    rewrite sequential_continue.
    change (fold_left (run_to_end cfg app)
                      (seq 0 (List.length (pagesToScan cfg))) (start_scan cfg t1))
      with (concurrent cfg app [] (start_scan cfg t1)).
    now rewrite two_pages_done.
  - now rewrite two_pages_done.
Qed.

End TwoPages.

(** C6, the claim as stated fails: the page whose navigation throws
    leaves two error records, one logged by [processPage] with the phase
    [page_processing] and one by the scanning loop with the phase
    [page_scan]. *)
Lemma failed_page_is_logged_twice :
  exists r,
    fst (runTestSuite two_pages settings_unreachable default_options new_engine)
    = Return r
    /\ List.length (axeResults r) = 1
    /\ map phase (errors r) = ["page_processing"; "page_scan"]
    /\ map err_page (errors r) = [Some "Settings"; Some "Settings"]
    /\ List.length (errors r) <> 1
    /\ success r = Some false.
Proof.
  eexists. split; [reflexivity |]. cbn. repeat split. discriminate.
Qed.

(** C6 (amended): unless a suite is already running on the engine (then
    the call throws), [runTestSuite] returns the results with a boolean
    [success] that is true exactly when [errors] is empty, and leaves the
    engine idle.  In a run over two pages from a fresh engine, where page
    A is reached and scans cleanly and the navigation to page B throws,
    with [continueOnError], the result holds the one scan result of page
    A, one extra-check result, two error records for page B (phase
    [page_processing], then phase [page_scan]) and [success = false]. *)
Theorem suite_result {Data : Type} (cfg : config Data) (app : application)
    (o : options) (e : engine Data) :
  (isRunning e = false ->
     exists r b,
       runTestSuite cfg app o e = (Return r, mkEngine r false)
       /\ success r = Some b
       /\ (b = true <-> errors r = []))
  /\ (isRunning e = true ->
      runTestSuite cfg app o e = (Throw "Test suite is already running", e))
  /\ (forall A B rA message reportResults,
        validateConfiguration cfg = true ->
        pagesToScan cfg = [A; B] ->
        launchApp app = Return tt ->
        getMainWindow app = Return tt ->
        generateAllReports app = Return reportResults ->
        closeApp app = Return tt ->
        continueOnError o = true ->
        navigate A (visit app A) = Return tt ->
        primaryScan (visit app A) = Return (Some rA) ->
        Scanner.error rA = None ->
        navigate B (visit app B) = Throw message ->
        exists r,
          fst (runTestSuite cfg app o new_engine) = Return r
          /\ axeResults r = [rA]
          /\ List.length (extraResults r) = 1
          /\ errors r
             = [mkError "page_processing" message (now app) (Some (name B))
                        (Some (selector B));
                mkError "page_scan" message (now app) (Some (name B)) None]
          /\ success r = Some false).
Proof.
  split; [apply runTestSuite_returns |]. split.
  { intros Hrun. unfold runTestSuite. now rewrite Hrun. }
  intros A B rA message reportResults Hvalid Hpages Hlaunch Hwindow
         Hreports Hclose Hcont HnavA HscanA HcleanA HnavB.
  unfold runTestSuite, new_engine, setupPhase.
  rewrite Hvalid, Hlaunch.
  cbn [isRunning testResults_of timestamp axeResults extraResults screenshots
       errors warnings duration success reports negb and_then].
  rewrite (scanning_two_pages Data cfg app A B rA message Hpages HnavA HscanA
             HcleanA HnavB
             (mkTestResults (Some (now app)) [] [] [] [] [] None None None)
             (conj eq_refl (conj eq_refl (conj eq_refl (conj eq_refl eq_refl))))
             o Hcont Hwindow).
  unfold reportingPhase, cleanupPhase. rewrite Hreports, Hclose.
  destruct (rr_success reportResults);
    eexists; (split; [reflexivity |]); cbn; repeat split.
Qed.

(** The theorem on the run over "Home" and "Settings". *)
Lemma suite_result_witness :
  exists r,
    fst (runTestSuite two_pages settings_unreachable default_options new_engine)
    = Return r
    /\ axeResults r = [clean_scan "Home"]
    /\ List.length (extraResults r) = 1
    /\ errors r
       = [mkError "page_processing" "locator.waitFor: Timeout 60000ms exceeded"
                  0 (Some "Settings") (Some "button.settings");
          mkError "page_scan" "locator.waitFor: Timeout 60000ms exceeded"
                  0 (Some "Settings") None]
    /\ success r = Some false.
Proof.
  exact (proj2 (proj2 (suite_result two_pages settings_unreachable
                         default_options new_engine))
           (mkPageConfig "Home" "a[href='#/main']" true)
           (mkPageConfig "Settings" "button.settings" true)
           (clean_scan "Home") "locator.waitFor: Timeout 60000ms exceeded"
           (mkReportResults true 0 [])
           eq_refl eq_refl eq_refl eq_refl eq_refl eq_refl eq_refl eq_refl
           eq_refl eq_refl eq_refl).
Defined.

End EngineFacts.

(** ** The bounded concurrency runner *)
Module ConcurrentLimitFacts.
Import JS.
Import ConcurrentLimit.
Import ConcurrentLimitProps.

Lemma mem_In (i : nat) (l : list nat) : mem i l = true <-> In i l.
Proof.
  unfold mem. rewrite existsb_exists. split.
  - intros [j [Hin Heq]]. apply Nat.eqb_eq in Heq. now subst.
  - intros Hin. exists i. split; [assumption | apply Nat.eqb_refl].
Qed.

Lemma mem_false (i : nat) (l : list nat) : mem i l = false <-> ~ In i l.
Proof.
  rewrite <- mem_In. destruct (mem i l); split; congruence.
Qed.

Lemma remove_In (i j : nat) (l : list nat) :
  In j (remove i l) <-> In j l /\ j <> i.
Proof.
  unfold remove. rewrite filter_In, negb_true_iff, Nat.eqb_neq. reflexivity.
Qed.

Lemma remove_length (i : nat) (l : list nat) :
  In i l -> List.length (remove i l) < List.length l.
Proof.
  unfold remove. induction l as [| j l IH]; intros Hin; [destruct Hin |].
  cbn [filter]. destruct (j =? i) eqn:Hj; cbn [negb List.length].
  - pose proof (filter_length_le (fun k => negb (k =? i)) l). lia.
  - destruct Hin as [-> | Hin]; [rewrite Nat.eqb_refl in Hj; discriminate |].
    specialize (IH Hin). lia.
Qed.

(** A duplicate-free list inside another that has one more element is
    strictly shorter. *)
Lemma NoDup_strict_incl (l m : list nat) (w : nat) :
  NoDup l -> incl l m -> In w m -> ~ In w l ->
  List.length l < List.length m.
Proof.
  intros Hnd Hincl Hw Hnw.
  assert (H : List.length (w :: l) <= List.length m).
  { apply NoDup_incl_length; [now constructor |].
    intros x [<- | Hx]; auto. }
  cbn in H. lia.
Qed.

Section Runner.
Variables V E : Type.
Variable tasks : list (task V E).
Variable concurrency : Z.

Lemma limit_positive : (1 <= effective concurrency)%Z.
Proof.
  unfold effective. destruct (concurrency <=? 0)%Z eqn:H; [lia |].
  apply Z.leb_gt in H. lia.
Qed.

(** When [Promise.all] fulfils over all the tasks, every task fulfilled
    and the array holds their values in task order. *)
Lemma values_of_seq (m : nat) :
  forall k vs,
    k + m = List.length tasks ->
    values_of tasks (seq k m) = Some vs ->
    skipn k tasks = map Return vs.
Proof.
  induction m as [| m IH]; intros k vs Hk Hv; cbn [seq values_of] in Hv.
  - injection Hv as <-. rewrite Nat.add_0_r in Hk. subst k.
    apply skipn_all.
  - destruct (nth_error tasks k) as [[v | e] |] eqn:Hnth; try discriminate.
    destruct (values_of tasks (seq (S k) m)) as [vs' |] eqn:Hrest;
      try discriminate.
    injection Hv as <-.
    specialize (IH (S k) vs' ltac:(lia) Hrest).
    cbn [map]. rewrite <- IH.
    clear - Hnth. revert k Hnth.
    induction tasks as [| t l IHl]; intros k Hnth;
      destruct k; cbn in *; try discriminate.
    + now injection Hnth as ->.
    + now apply IHl.
Qed.

(** When it cannot, one of the tasks rejected. *)
Lemma values_of_none (idx : list nat) :
  (forall i, In i idx -> i < List.length tasks) ->
  values_of tasks idx = None ->
  exists w e, In w idx /\ nth_error tasks w = Some (Throw e).
Proof.
  induction idx as [| i idx IH]; intros Hlt Hv; cbn [values_of] in Hv;
    [discriminate |].
  destruct (nth_error tasks i) as [[v | e] |] eqn:Hnth.
  - destruct (values_of tasks idx) eqn:Hrest; [discriminate |].
    destruct IH as [w [e [Hin Hw]]]; [intros j Hj; apply Hlt; now right | reflexivity |].
    exists w, e. split; [now right | exact Hw].
  - exists i, e. split; [now left | exact Hnth].
  - apply nth_error_None in Hnth. specialize (Hlt i (or_introl eq_refl)). lia.
Qed.

Lemma inv_init : inv V E tasks concurrency (init tasks).
Proof.
  unfold init. destruct tasks as [| t l] eqn:Ht;
    constructor; cbn; try lia; try constructor; try tauto; try reflexivity.
  all: pose proof limit_positive; lia.
Qed.

(** Every event the event loop can deliver preserves the invariant. *)
Lemma inv_step (ev : event) (s s' : state V E) :
  inv V E tasks concurrency s -> step tasks concurrency ev s = Some s' -> inv V E tasks concurrency s'.
Proof.
  intros [Hnext Hres Hsnd Hsst Hend Hest Hfly Hbound Hph Hseq] Hstep.
  pose proof limit_positive as Hpos.
  destruct ev as [| i | i | w | | w]; cbn [step] in Hstep.
  - (* LoopStep *)
    destruct (ph s) eqn:Hp; try discriminate.
    destruct (next s <? List.length tasks) eqn:Hlt.
    + apply Nat.ltb_lt in Hlt.
      assert (Hfresh : ~ In (next s) (executing s))
        by (intros Hin; apply Hest in Hin; lia).
      assert (Hnd' : NoDup (executing s ++ [next s])).
      { apply NoDup_app; [assumption | repeat constructor; tauto |].
        intros x Hx [<- | []]. tauto. }
      assert (Hall : forall i, In i (executing s ++ [next s]) -> i < S (next s)).
      { intros i Hi. apply in_app_iff in Hi. destruct Hi as [Hi | [<- | []]];
          [apply Hest in Hi |]; lia. }
      injection Hstep as <-. constructor; cbn [next results executing settled ph].
      * lia.
      * rewrite Hres, seq_S. reflexivity.
      * assumption.
      * intros i Hi. apply Hsst in Hi. lia.
      * assumption.
      * exact Hall.
      * intros i Hi Hns. apply in_app_iff.
        destruct (Nat.eq_dec i (next s)) as [-> | Hne]; [right; now left |].
        left. apply Hfly; [lia | assumption].
      * rewrite length_app. cbn [List.length]. lia.
      * assert (Hlen : List.length (executing s ++ [next s])
                       = S (List.length (executing s)))
          by (rewrite length_app; cbn; lia).
        destruct (Z.of_nat (List.length (executing s ++ [next s]))
                  >=? effective concurrency)%Z eqn:Hfull.
        -- split; [apply incl_refl |]. split; [assumption |].
           split; [lia |]. split; [| exact Hall].
           destruct (executing s); discriminate.
        -- rewrite Z.geb_leb in Hfull. apply Z.leb_gt in Hfull. exact Hfull.
      * intros H1 i Hi.
        destruct (in_dec Nat.eq_dec i (settled s)) as [Hs | Hns];
          [exact Hs | exfalso].
        assert (Hin : In i (executing s)) by (apply Hfly; [lia | assumption]).
        destruct (executing s); [destruct Hin | cbn in Hph; lia].
    + apply Nat.ltb_ge in Hlt. injection Hstep as <-.
      constructor; cbn [next results executing settled ph]; auto. lia.
  - (* Settle *)
    destruct ((i <? next s) && negb (mem i (settled s))) eqn:Hc;
      [| discriminate].
    apply andb_true_iff in Hc. destruct Hc as [Hi Hns].
    apply Nat.ltb_lt in Hi. apply negb_true_iff, mem_false in Hns.
    injection Hstep as <-.
    constructor; cbn [next results executing settled ph]; auto.
    + apply NoDup_app; [assumption | repeat constructor; tauto |].
      intros x Hx [<- | []]. tauto.
    + intros j Hj. apply in_app_iff in Hj.
      destruct Hj as [Hj | [<- | []]]; auto.
    + intros j Hj Hnj. apply Hfly; [assumption |].
      intros Hin. apply Hnj, in_app_iff. now left.
    + intros H1 j Hj. apply in_app_iff. left. now apply Hseq.
  - (* CleanUp *)
    destruct (mem i (settled s) && mem i (executing s)) eqn:Hc;
      [| discriminate].
    apply andb_true_iff in Hc. destruct Hc as [Hi He].
    apply mem_In in Hi. apply mem_In in He.
    injection Hstep as <-.
    constructor; cbn [next results executing settled ph]; auto.
    + apply NoDup_filter. assumption.
    + intros j Hj. apply remove_In in Hj. apply Hest. tauto.
    + intros j Hj Hnj. apply remove_In. split; [now apply Hfly |].
      intros ->. tauto.
    + pose proof (remove_length i (executing s) He). lia.
    + destruct (ph s) as [| members | | |]; auto.
      * pose proof (remove_length i (executing s) He). lia.
      * destruct Hph as [Hincl Hrest]. split; [| exact Hrest].
        intros j Hj. apply remove_In in Hj. apply Hincl. tauto.
  - (* RaceSettled *)
    destruct (ph s) as [| members | | |] eqn:Hp; try discriminate.
    destruct (mem w members && mem w (settled s)) eqn:Hc; [| discriminate].
    apply andb_true_iff in Hc. destruct Hc as [Hm Hws].
    apply mem_In in Hm. apply mem_In in Hws.
    destruct Hph as [Hincl [Hmnd [Hmlen [Hmne Hmst]]]].
    destruct (nth_error tasks w) as [[v | e] |] eqn:Hw; try discriminate.
    + destruct (mem w (executing s)) eqn:Hwe; [discriminate |].
      apply mem_false in Hwe. injection Hstep as <-.
      constructor; cbn [next results executing settled ph]; auto.
      pose proof (NoDup_strict_incl (executing s) members w Hend Hincl Hm Hwe).
      lia.
    + injection Hstep as <-.
      constructor; cbn [next results executing settled ph]; auto.
      exists w. split; [now apply Hsst | exact Hw].
  - (* AllFulfilled *)
    destruct (ph s) eqn:Hp; try discriminate.
    destruct (forallb (fun i => mem i (settled s)) (results s)); [| discriminate].
    destruct (values_of tasks (results s)) as [vs |] eqn:Hv; [| discriminate].
    injection Hstep as <-.
    constructor; cbn [next results executing settled ph]; auto.
    rewrite Hres, Hph in Hv.
    apply (values_of_seq (List.length tasks) 0 vs eq_refl) in Hv. exact Hv.
  - (* AllRejected *)
    destruct (ph s) eqn:Hp; try discriminate.
    destruct (mem w (results s) && mem w (settled s)) eqn:Hc; [| discriminate].
    apply andb_true_iff in Hc. destruct Hc as [_ Hws]. apply mem_In in Hws.
    destruct (nth_error tasks w) as [[v | e] |] eqn:Hw; try discriminate.
    injection Hstep as <-.
    constructor; cbn [next results executing settled ph]; auto.
    exists w. split; [now apply Hsst | exact Hw].
Qed.

Lemma inv_exec (evs : list event) :
  forall s s', inv V E tasks concurrency s -> exec tasks concurrency evs s = Some s' -> inv V E tasks concurrency s'.
Proof.
  induction evs as [| ev evs IH]; intros s s' Hs Hrun; cbn [exec] in Hrun.
  - now injection Hrun as <-.
  - destruct (step tasks concurrency ev s) as [s1 |] eqn:Hstep; [| discriminate].
    eapply IH; [eapply inv_step; eassumption | exact Hrun].
Qed.

(** The tasks in flight are among the promises in [executing]. *)
Lemma in_flight_bound (s : state V E) :
  inv V E tasks concurrency s ->
  (Z.of_nat (List.length (in_flight s)) <= effective concurrency)%Z.
Proof.
  intros Hs.
  assert (Hle : List.length (in_flight s) <= List.length (executing s)).
  { apply NoDup_incl_length.
    - unfold in_flight. apply NoDup_filter, seq_NoDup.
    - intros i Hi. unfold in_flight in Hi. apply filter_In in Hi.
      destruct Hi as [Hi Hns]. apply in_seq in Hi.
      apply negb_true_iff, mem_false in Hns.
      apply (inv_in_flight V E tasks concurrency s Hs); [lia | assumption]. }
  pose proof (inv_bound V E tasks concurrency s Hs). lia.
Qed.

(** A call that has not settled can always go on: there is no deadlock. *)
Lemma progress (s : state V E) :
  inv V E tasks concurrency s -> final s = false ->
  exists ev s', step tasks concurrency ev s = Some s'.
Proof.
  intros Hs Hfinal.
  destruct (in_flight s) as [| i rest] eqn:Hfly.
  - (* nothing in flight: every started task has settled *)
    assert (Hall : forall i, i < next s -> In i (settled s)).
    { intros i Hi.
      destruct (in_dec Nat.eq_dec i (settled s)) as [H | H]; [exact H |].
      assert (Hin : In i (in_flight s)).
      { unfold in_flight. apply filter_In. split; [apply in_seq; lia |].
        now apply negb_true_iff, mem_false. }
      rewrite Hfly in Hin. destruct Hin. }
    unfold final in Hfinal.
    pose proof (inv_phase V E tasks concurrency s Hs) as Hph.
    destruct (ph s) as [| members | | vs | e] eqn:Hp; try discriminate.
    + exists LoopStep. cbn [step]. rewrite Hp.
      destruct (next s <? List.length tasks); eexists; reflexivity.
    + destruct Hph as [Hincl [Hnd [Hlen [Hne Hst]]]].
      destruct members as [| w members]; [congruence |].
      assert (Hw : w < next s) by (apply Hst; now left).
      assert (Hws : In w (settled s)) by now apply Hall.
      pose proof (inv_next V E tasks concurrency s Hs) as Hnext.
      destruct (nth_error tasks w) as [[v | e] |] eqn:Hnth.
      * destruct (mem w (executing s)) eqn:Hwe.
        -- exists (CleanUp w). cbn [step].
           apply mem_In in Hws. rewrite Hws, Hwe. eexists; reflexivity.
        -- exists (RaceSettled w). cbn [step]. rewrite Hp.
           apply mem_In in Hws. rewrite Hws, Hnth, Hwe.
           cbn [mem existsb]. rewrite Nat.eqb_refl. eexists; reflexivity.
      * exists (RaceSettled w). cbn [step]. rewrite Hp.
        apply mem_In in Hws. rewrite Hws, Hnth.
        cbn [mem existsb]. rewrite Nat.eqb_refl. eexists; reflexivity.
      * apply nth_error_None in Hnth. lia.
    + pose proof (inv_results V E tasks concurrency s Hs) as Hres.
      assert (Hset : forallb (fun i => mem i (settled s)) (results s) = true).
      { apply forallb_forall. intros i Hi. apply mem_In, Hall.
        rewrite Hres in Hi. apply in_seq in Hi. lia. }
      destruct (values_of tasks (results s)) as [vs |] eqn:Hv.
      * exists AllFulfilled. cbn [step]. rewrite Hp, Hset, Hv.
        eexists; reflexivity.
      * destruct (values_of_none (results s)) as [w [e [Hin Hw]]];
          [| exact Hv |].
        { intros i Hi. rewrite Hres in Hi. apply in_seq in Hi. lia. }
        exists (AllRejected w). cbn [step]. rewrite Hp.
        assert (Hws : In w (settled s)).
        { apply Hall. rewrite Hres in Hin. apply in_seq in Hin. lia. }
        apply mem_In in Hin. apply mem_In in Hws. rewrite Hin, Hws, Hw.
        eexists; reflexivity.
  - (* a task in flight can settle *)
    assert (Hin : In i (in_flight s)) by (rewrite Hfly; now left).
    unfold in_flight in Hin. apply filter_In in Hin.
    destruct Hin as [Hi Hns]. apply in_seq in Hi.
    exists (Settle i). cbn [step].
    assert (Hlt : (i <? next s) = true) by (apply Nat.ltb_lt; lia).
    rewrite Hlt, Hns. eexists; reflexivity.
Qed.

(** Every event brings the call closer to its end. *)
Lemma measure_decreases (ev : event) (s s' : state V E) :
  inv V E tasks concurrency s -> step tasks concurrency ev s = Some s' ->
  measure tasks s' < measure tasks s.
Proof.
  intros Hs Hstep.
  pose proof (inv_next V E tasks concurrency s Hs) as Hnext.
  assert (Hsettled : List.length (settled s) <= next s).
  { assert (H : List.length (settled s) <= List.length (seq 0 (next s))).
    { apply NoDup_incl_length; [apply (inv_settled_nodup V E tasks concurrency s Hs) |].
      intros i Hi. apply in_seq.
      pose proof (inv_settled_started V E tasks concurrency s Hs i Hi). lia. }
    now rewrite length_seq in H. }
  unfold measure.
  destruct ev as [| i | i | w | | w]; cbn [step] in Hstep.
  - destruct (ph s) eqn:Hp; try discriminate.
    destruct (next s <? List.length tasks) eqn:Hlt.
    + apply Nat.ltb_lt in Hlt. injection Hstep as <-.
      cbn [next settled executing ph]. rewrite length_app. cbn [List.length].
      destruct (_ >=? _)%Z; lia.
    + injection Hstep as <-. cbn [next settled executing ph]. lia.
  - destruct ((i <? next s) && negb (mem i (settled s))) eqn:Hc;
      [| discriminate].
    apply andb_true_iff in Hc. destruct Hc as [Hi Hns].
    apply Nat.ltb_lt in Hi. apply negb_true_iff, mem_false in Hns.
    injection Hstep as <-. cbn [next settled executing ph].
    rewrite length_app. cbn [List.length].
    assert (Hstrict : List.length (settled s) < List.length (seq 0 (next s))).
    { apply (NoDup_strict_incl (settled s) (seq 0 (next s)) i);
        [apply (inv_settled_nodup V E tasks concurrency s Hs) | | apply in_seq; lia | exact Hns].
      intros j Hj. apply in_seq.
      pose proof (inv_settled_started V E tasks concurrency s Hs j Hj). lia. }
    rewrite length_seq in Hstrict. lia.
  - destruct (mem i (settled s) && mem i (executing s)) eqn:Hc;
      [| discriminate].
    apply andb_true_iff in Hc. destruct Hc as [_ He]. apply mem_In in He.
    injection Hstep as <-. cbn [next settled executing ph].
    pose proof (remove_length i (executing s) He). lia.
  - destruct (ph s) as [| members | | |] eqn:Hp; try discriminate.
    destruct (mem w members && mem w (settled s)); [| discriminate].
    destruct (nth_error tasks w) as [[v | e] |]; try discriminate.
    + destruct (mem w (executing s)); [discriminate |].
      injection Hstep as <-. cbn [next settled executing ph]. lia.
    + injection Hstep as <-. cbn [next settled executing ph]. lia.
  - destruct (ph s) eqn:Hp; try discriminate.
    destruct (forallb _ _); [| discriminate].
    destruct (values_of tasks (results s)); [| discriminate].
    injection Hstep as <-. cbn [next settled executing ph]. lia.
  - destruct (ph s) eqn:Hp; try discriminate.
    destruct (mem w (results s) && mem w (settled s)); [| discriminate].
    destruct (nth_error tasks w) as [[v | e] |]; try discriminate.
    injection Hstep as <-. cbn [next settled executing ph]. lia.
Qed.

Lemma effective_max : effective concurrency = Z.max 1 concurrency.
Proof.
  unfold effective. destruct (concurrency <=? 0)%Z eqn:H.
  - apply Z.leb_le in H. lia.
  - apply Z.leb_gt in H. lia.
Qed.

(** Every state a call can reach satisfies the invariant. *)
Lemma reachable_inv (evs : list event) (s : state V E) :
  concurrentLimit tasks concurrency evs = Some s -> inv V E tasks concurrency s.
Proof. intros Hrun. eapply inv_exec; [apply inv_init | exact Hrun]. Qed.

End Runner.

(** C1, the claim as stated fails: a failing task does not end up in a
    result slot.  With a limit of 2, when the second task fails first
    the awaited race rejects, the call rejects with the task's error,
    and the third task is never started; and no run of these tasks ever
    returns a results array. *)
Lemma failure_rejects_the_call :
  (exists s,
     concurrentLimit one_fails 2 [LoopStep; LoopStep; Settle 1; RaceSettled 1]
     = Some s
     /\ ph s = Rejected "boom" /\ next s = 2 /\ results s = [0; 1])
  /\ (forall evs s vs,
        concurrentLimit one_fails 2 evs = Some s -> ph s <> Resolved vs).
Proof.
  split.
  - eexists. split; [reflexivity |]. repeat split.
  - intros evs s vs Hrun Hp.
    pose proof (inv_phase _ _ _ _ _ (reachable_inv _ _ _ _ _ _ Hrun)) as H.
    rewrite Hp in H. destruct vs as [| v1 [| v2 vs]]; discriminate H.
Qed.

(** C1 (amended): in every state a call of [concurrentLimit] can reach,
    whatever the completion order of the tasks: at most [limit] tasks are
    in flight (the limit being at least 1); with a limit of 1 a task is
    started only after all earlier ones have settled; the tasks are
    started once each, in input order; if the call returns an array,
    every task fulfilled and the i-th entry is the value of the i-th
    task; if a task fails it is not retried and the call as a whole
    rejects with the error of a failed task, no array being returned;
    and the call always settles: an unsettled call can always take a
    step, and every step decreases a bounded measure. *)
Theorem bounded_runner {V E : Type} (tasks : list (task V E))
    (concurrency : Z) (evs : list event) (s : state V E) :
  concurrentLimit tasks concurrency evs = Some s ->
  (Z.of_nat (List.length (in_flight s)) <= Z.max 1 concurrency)%Z
  /\ (concurrency = 1%Z ->
      List.length (in_flight s) <= 1
      /\ forall i, S i < next s -> In i (settled s))
  /\ (results s = seq 0 (next s) /\ next s <= List.length tasks)
  /\ (forall vs, ph s = Resolved vs -> tasks = map Return vs)
  /\ (forall e, ph s = Rejected e ->
                exists w, w < next s /\ nth_error tasks w = Some (Throw e))
  /\ (final s = false ->
      exists ev s', step tasks concurrency ev s = Some s')
  /\ (forall ev s', step tasks concurrency ev s = Some s' ->
                    measure tasks s' < measure tasks s).
Proof.
  intros Hrun.
  pose proof (reachable_inv V E tasks concurrency evs s Hrun) as Hs.
  pose proof (in_flight_bound V E tasks concurrency s Hs) as Hbound.
  rewrite effective_max in Hbound.
  split; [exact Hbound |]. split.
  { intros ->. split; [cbn in Hbound; lia |].
    apply (inv_sequential _ _ _ _ _ Hs). reflexivity. }
  split; [split; [apply Hs | apply Hs] |]. split.
  { intros vs Hp. pose proof (inv_phase _ _ _ _ _ Hs) as H.
    now rewrite Hp in H. }
  split.
  { intros e Hp. pose proof (inv_phase _ _ _ _ _ Hs) as H.
    now rewrite Hp in H. }
  split; [now apply progress |].
  intros ev s' Hstep. eapply measure_decreases; eassumption.
Qed.

(** The theorem on the scrambled run of [three_tasks] with a limit of 2:
    the array is in task order. *)
Lemma bounded_runner_witness :
  concurrentLimit three_tasks 2 scrambled
  = Some (mkState 3 [0; 1; 2] [] [1; 2; 0] (Resolved [10; 20; 30]))
  /\ three_tasks = map Return [10; 20; 30].
Proof.
  split; [reflexivity |].
  exact (proj1 (proj2 (proj2 (proj2
           (bounded_runner three_tasks 2 scrambled
              (mkState 3 [0; 1; 2] [] [1; 2; 0] (Resolved [10; 20; 30]))
              eq_refl))))
           [10; 20; 30] eq_refl).
Defined.

End ConcurrentLimitFacts.

(** ** Headings and the tree summary *)
Module TreeFacts.
Import JS.
Import AccessibilityTreeChecker.
Import AccessibilityTree.
Import TreeProps.

(** Induction on a snapshot: a property that holds for a node whenever
    it holds for its children holds for every node. *)
Lemma axNode_induction (P : axNode -> Prop) :
  (forall role name level, P (AxNode role name level None)) ->
  (forall role name level cs,
      Forall P cs -> P (AxNode role name level (Some cs))) ->
  forall t, P t.
Proof.
  intros Hleaf Hnode. fix IH 1. intros [role name level [cs |]].
  - apply Hnode. induction cs as [| c cs IHcs]; constructor.
    + apply IH.
    + exact IHcs.
  - apply Hleaf.
Qed.

Lemma fold_walk {A : Type} (walk : axNode -> list A -> list A)
    (cs : list axNode) :
  Forall (fun c => forall acc, walk c acc = acc ++ walk c []) cs ->
  forall acc,
    fold_left (fun acc child => walk child acc) cs acc
    = acc ++ flat_map (fun c => walk c []) cs.
Proof.
  induction 1 as [| c cs Hc _ IH]; intros acc; cbn [fold_left flat_map].
  - now rewrite app_nil_r.
  - rewrite IH, Hc, app_assoc. reflexivity.
Qed.

Lemma extractLandmarks_app (t : axNode) :
  forall acc, extractLandmarks t acc = acc ++ extractLandmarks t [].
Proof.
  induction t as [role name level | role name level cs IH]
    using axNode_induction; intros acc; cbn [extractLandmarks].
  - destruct role as [r |]; [| now rewrite app_nil_r].
    destruct (truthy_string r && includes landmarkRoles r);
      [reflexivity | now rewrite app_nil_r].
  - rewrite !(fold_walk extractLandmarks cs IH).
    destruct role as [r |]; [| reflexivity].
    destruct (truthy_string r && includes landmarkRoles r);
      cbn [app]; rewrite <- ?app_assoc; reflexivity.
Qed.

Lemma extractHeadings_app (t : axNode) :
  forall acc, extractHeadings t acc = acc ++ extractHeadings t [].
Proof.
  induction t as [role name level | role name level cs IH]
    using axNode_induction; intros acc; cbn [extractHeadings].
  - destruct role as [r |], level as [l |]; try now rewrite app_nil_r.
    destruct (String.eqb r "heading" && negb (l =? 0)%Z);
      [reflexivity | now rewrite app_nil_r].
  - rewrite !(fold_walk extractHeadings cs IH).
    destruct role as [r |], level as [l |]; try reflexivity.
    destruct (String.eqb r "heading" && negb (l =? 0)%Z);
      cbn [app]; rewrite <- ?app_assoc; reflexivity.
Qed.

(** X1: both tree walkers only append to the array they are given, and
    they visit the snapshot in document order: the entry of a node, if it
    has one, comes first, then the entries of its children, from the
    first child to the last. *)
Theorem walkers_append_in_document_order (role name : option string)
    (level : option Z) (cs : list axNode) (t : axNode)
    (found : list landmark) (seen : list heading) :
  extractLandmarks t found = found ++ extractLandmarks t []
  /\ extractHeadings t seen = seen ++ extractHeadings t []
  /\ (exists own,
        (own = []
         \/ exists r, role = Some r
                      /\ own = [mkLandmark r name (level_or_zero level)
                                           (List.length cs)])
        /\ extractLandmarks (AxNode role name level (Some cs)) []
           = own ++ flat_map (fun c => extractLandmarks c []) cs)
  /\ extractHeadings (AxNode role name level (Some cs)) []
     = extractHeadings (AxNode role name level None) []
       ++ flat_map (fun c => extractHeadings c []) cs.
Proof.
  split; [apply extractLandmarks_app |].
  split; [apply extractHeadings_app |].
  split.
  - cbn [extractLandmarks children_count].
    match goal with
    | |- context [fold_left _ cs ?own] => exists own
    end.
    split.
    + destruct role as [r |]; [| now left].
      destruct (truthy_string r && includes landmarkRoles r); [| now left].
      right. exists r. split; reflexivity.
    + apply fold_walk.
      apply Forall_forall. intros c _. apply extractLandmarks_app.
  - cbn [extractHeadings]. apply fold_walk.
    apply Forall_forall. intros c _. apply extractHeadings_app.
Qed.

(** *** Skipped levels *)

Lemma existsb_Zeqb (i : Z) (l : list Z) :
  existsb (Z.eqb i) l = true <-> In i l.
Proof.
  rewrite existsb_exists. split.
  - intros [x [Hin Heq]]. apply Z.eqb_eq in Heq. now subst.
  - intros Hin. exists i. split; [assumption | apply Z.eqb_refl].
Qed.

Lemma none_below (i : Z) (l : list Z) :
  (List.length (filter (fun x => (x <? i)%Z) l) =? 0) = true
  <-> forall x, In x l -> (i <= x)%Z.
Proof.
  rewrite Nat.eqb_eq. split.
  - intros Hlen x Hin.
    destruct (x <? i)%Z eqn:Hlt; [| apply Z.ltb_ge in Hlt; exact Hlt].
    assert (Hin' : In x (filter (fun x => (x <? i)%Z) l))
      by (apply filter_In; auto).
    destruct (filter (fun x => (x <? i)%Z) l); [destruct Hin' | discriminate].
  - intros Hall.
    rewrite (ListFacts.filter_none (fun x => (x <? i)%Z) l); [reflexivity |].
    intros x Hin. apply Z.ltb_ge. auto.
Qed.

Lemma skipped_spec (levels : list Z) (i : Z) :
  In i (skipped levels)
  <-> (2 <= i <= 6)%Z /\ In i levels /\ forall l, In l levels -> (i <= l)%Z.
Proof.
  unfold skipped. rewrite filter_In, !andb_true_iff, existsb_Zeqb, none_below,
    Z.ltb_lt.
  cbn [In]. split.
  - intros [Hi [[Hin Hmin] H1]]. split; [lia | auto].
  - intros [Hi [Hin Hmin]]. split; [| split; [auto | lia]].
    assert (i = 2 \/ i = 3 \/ i = 4 \/ i = 5 \/ i = 6)%Z by lia.
    intuition auto.
Qed.

Lemma skipped_at_most_one (levels : list Z) :
  List.length (skipped levels) <= 1.
Proof.
  assert (Hnd : NoDup (skipped levels)).
  { unfold skipped. apply NoDup_filter.
    repeat (constructor; [cbn [In]; intuition lia |]). constructor. }
  destruct (skipped levels) as [| a [| b rest]] eqn:Hs; cbn; try lia.
  exfalso.
  assert (Ha : In a (skipped levels)) by (rewrite Hs; now left).
  assert (Hb : In b (skipped levels)) by (rewrite Hs; right; now left).
  apply skipped_spec in Ha, Hb.
  destruct Ha as [_ [Hina Hmina]], Hb as [_ [Hinb Hminb]].
  assert (a = b) by (apply Z.le_antisymm; auto).
  subst b. inversion Hnd as [| ? ? Hnotin _]. apply Hnotin. now left.
Qed.

Lemma skipped_with_h1 (levels : list Z) :
  existsb (Z.eqb 1) levels = true -> skipped levels = [].
Proof.
  intros H1. apply existsb_Zeqb in H1.
  destruct (skipped levels) as [| a rest] eqn:Hs; [reflexivity |].
  assert (Ha : In a (skipped levels)) by (rewrite Hs; now left).
  apply skipped_spec in Ha. destruct Ha as [H2 [_ Hmin]].
  specialize (Hmin 1%Z H1). lia.
Qed.

(** X2: [skippedLevels] holds a level from 2 to 6 exactly when it is the
    smallest heading level of the page; so it never has more than one
    entry, and it is empty as soon as the page has an h1, whatever levels
    are left out after it. *)
Theorem skipped_levels_only_the_smallest (axTree : option axNode) :
  let r := checkHeadings axTree in
  let levels := map h_level (hd_headings r) in
  (forall i, In i (skippedLevels r)
             <-> (2 <= i <= 6)%Z /\ In i levels
                 /\ forall l, In l levels -> (i <= l)%Z)
  /\ List.length (skippedLevels r) <= 1
  /\ (hasH1 r = true -> skippedLevels r = []).
Proof.
  cbv zeta. unfold checkHeadings.
  cbn [skippedLevels hd_headings hasH1].
  split; [intros i; apply skipped_spec |].
  split; [apply skipped_at_most_one | apply skipped_with_h1].
Qed.

(** The theorem on the page with h1, h3, h3: level 2 is left out and
    nothing is reported as skipped. *)
Lemma skipped_levels_only_the_smallest_witness :
  map h_level (hd_headings (checkHeadings (Some h1_h3_h3))) = [1; 3; 3]%Z
  /\ skippedLevels (checkHeadings (Some h1_h3_h3)) = [].
Proof.
  split; [reflexivity |].
  exact (proj2 (proj2 (skipped_levels_only_the_smallest (Some h1_h3_h3)))
           eq_refl).
Defined.

(** *** Heading order *)

Lemma heading_order_loop_app (rest : list heading) :
  forall i previous issues,
    heading_order_loop i previous rest issues
    = issues ++ heading_order_loop i previous rest [].
Proof.
  induction rest as [| current rest IH]; intros i previous issues;
    cbn [heading_order_loop].
  - now rewrite app_nil_r.
  - destruct (h_level previous + 1 <? h_level current)%Z; [| apply IH].
    rewrite (IH _ _ (issues ++ _)), (IH _ _ ([] ++ _)).
    cbn [app]. now rewrite <- app_assoc.
Qed.

(** The issue [checkHeadingOrder] reports for a jump at index [i]. *)
Lemma heading_order_loop_spec (rest : list heading) :
  forall i previous iss,
    In iss (heading_order_loop i previous rest [])
    <-> exists k prev cur,
          nth_error (previous :: rest) k = Some prev
          /\ nth_error (previous :: rest) (S k) = Some cur
          /\ (h_level prev + 1 < h_level cur)%Z
          /\ iss = mkOrderIssue "level-skip" (i + k) (h_level prev)
                     (h_level cur)
                     ("Heading level skips from "
                      ++ number_to_string (h_level prev) ++ " to "
                      ++ number_to_string (h_level cur)).
Proof.
  induction rest as [| current rest IH]; intros i previous iss;
    cbn [heading_order_loop].
  - split; [intros [] |].
    intros [k [prev [cur [_ [Hcur _]]]]].
    destruct k; discriminate Hcur.
  - rewrite heading_order_loop_app, in_app_iff, IH. split.
    + intros [Hhere | [k [prev [cur [Hp [Hc [Hlt Heq]]]]]]].
      * destruct (h_level previous + 1 <? h_level current)%Z eqn:Hjump;
          [| destruct Hhere].
        destruct Hhere as [<- | []].
        exists 0, previous, current. rewrite Nat.add_0_r.
        apply Z.ltb_lt in Hjump. repeat split; auto.
      * exists (S k), prev, cur.
        replace (i + S k) with (S i + k) by lia. repeat split; auto.
    + intros [k [prev [cur [Hp [Hc [Hlt Heq]]]]]].
      destruct k as [| k].
      * left. cbn in Hp, Hc. injection Hp as <-. injection Hc as <-.
        apply Z.ltb_lt in Hlt. rewrite Hlt, Nat.add_0_r in *.
        now left.
      * right. exists k, prev, cur.
        replace (S i + k) with (i + S k) by lia. repeat split; auto.
Qed.

Lemma heading_order_loop_length (rest : list heading) :
  forall i previous,
    List.length (heading_order_loop i previous rest []) <= List.length rest.
Proof.
  induction rest as [| current rest IH]; intros i previous;
    cbn [heading_order_loop List.length]; [lia |].
  rewrite heading_order_loop_app, length_app.
  specialize (IH (S i) current).
  destruct (h_level previous + 1 <? h_level current)%Z;
    cbn [app List.length]; lia.
Qed.

(** X3: [checkHeadingOrder] reports one issue for each heading whose
    level exceeds the level of the heading before it by more than one,
    with the index of that heading and the two levels; a step down, of
    any size, is never reported, and there are fewer issues than
    headings. *)
Theorem heading_order_issues (headings : list heading) :
  (forall iss,
     In iss (checkHeadingOrder headings)
     <-> exists i prev cur,
           nth_error headings i = Some prev
           /\ nth_error headings (S i) = Some cur
           /\ (h_level prev + 1 < h_level cur)%Z
           /\ iss = mkOrderIssue "level-skip" (S i) (h_level prev)
                      (h_level cur)
                      ("Heading level skips from "
                       ++ number_to_string (h_level prev) ++ " to "
                       ++ number_to_string (h_level cur)))
  /\ List.length (checkHeadingOrder headings) <= List.length headings - 1
  /\ ((forall i prev cur,
         nth_error headings i = Some prev ->
         nth_error headings (S i) = Some cur ->
         (h_level cur <= h_level prev + 1)%Z)
      <-> checkHeadingOrder headings = []).
Proof.
  assert (Hspec : forall iss,
     In iss (checkHeadingOrder headings)
     <-> exists i prev cur,
           nth_error headings i = Some prev
           /\ nth_error headings (S i) = Some cur
           /\ (h_level prev + 1 < h_level cur)%Z
           /\ iss = mkOrderIssue "level-skip" (S i) (h_level prev)
                      (h_level cur)
                      ("Heading level skips from "
                       ++ number_to_string (h_level prev) ++ " to "
                       ++ number_to_string (h_level cur))).
  { intros iss. destruct headings as [| first rest]; cbn [checkHeadingOrder].
    - split; [intros [] |]. intros [i [prev [cur [Hp _]]]].
      destruct i; discriminate Hp.
    - apply heading_order_loop_spec. }
  split; [exact Hspec |]. split.
  - destruct headings as [| first rest]; cbn [checkHeadingOrder List.length];
      [lia |].
    pose proof (heading_order_loop_length rest 1 first). lia.
  - split.
    + intros Hsteps.
      destruct (checkHeadingOrder headings) as [| iss l] eqn:Hc;
        [reflexivity |].
      destruct (proj1 (Hspec iss) (or_introl eq_refl))
        as [i [prev [cur [Hp [Hcur [Hlt _]]]]]].
      specialize (Hsteps i prev cur Hp Hcur). lia.
    + intros Hnil i prev cur Hp Hcur.
      destruct (Z.le_gt_cases (h_level cur) (h_level prev + 1)) as [Hle | Hgt];
        [exact Hle |].
      exfalso.
      assert (Hin : In (mkOrderIssue "level-skip" (S i) (h_level prev)
                          (h_level cur)
                          ("Heading level skips from "
                           ++ number_to_string (h_level prev) ++ " to "
                           ++ number_to_string (h_level cur)))
                       (checkHeadingOrder headings)).
      { apply Hspec. exists i, prev, cur. repeat split; auto. }
      rewrite Hnil in Hin. destruct Hin.
Qed.

(** The theorem on the headings h1, h3, h3: the second heading is
    reported, and only it. *)
Lemma heading_order_issues_witness :
  In (mkOrderIssue "level-skip" 1 1 3 "Heading level skips from 1 to 3")
     (checkHeadingOrder (extractHeadings h1_h3_h3 [])).
Proof.
  apply (proj1 (heading_order_issues (extractHeadings h1_h3_h3 []))).
  exists 0, (mkHeading 1 (Some "Title") "Title"),
    (mkHeading 3 (Some "Details") "Details").
  repeat split; reflexivity.
Defined.

(** *** The heading score *)

(** X4: the heading score is between 0 and 100; it is 100 exactly when
    the page has an h1 and no order issue; without an h1 it is at most
    80, and a page without any heading scores 70. *)
Theorem heading_score_full_marks (axTree : option axNode) :
  let r := checkHeadings axTree in
  (0 <= hd_score r <= 100)%Z
  /\ (hd_score r = 100%Z <-> hasH1 r = true /\ orderIssues r = [])
  /\ (hasH1 r = false -> (hd_score r <= 80)%Z)
  /\ (hd_headings r = [] -> hd_score r = 70%Z).
Proof.
  cbv zeta. unfold checkHeadings.
  cbn [hd_score hasH1 orderIssues hd_headings].
  set (headings := extractHeadings_root axTree).
  set (levels := map h_level headings).
  assert (Hh1 : existsb (fun h => (h_level h =? 1)%Z) headings
                = existsb (Z.eqb 1) levels).
  { unfold levels. clear. induction headings as [| h hs IH];
      cbn [existsb map]; [reflexivity |].
    rewrite IH. f_equal. apply Z.eqb_sym. }
  pose proof (skipped_at_most_one levels) as Hone.
  pose proof (skipped_with_h1 levels) as Hnone.
  unfold calculateHeadingScore. rewrite Hh1.
  destruct (existsb (Z.eqb 1) levels) eqn:H1; cbn [negb].
  - assert (Hne : headings = [] -> False).
    { intros Hnil. revert H1. unfold levels. rewrite Hnil. discriminate. }
    rewrite (Hnone eq_refl). cbn [List.length].
    destruct (checkHeadingOrder headings) as [| iss l] eqn:Ho;
      cbn [List.length Nat.eqb andb].
    + rewrite andb_true_r.
      destruct (3 <=? List.length headings) eqn:H3;
        repeat split; try lia; try discriminate; try reflexivity;
        intros Hnil; destruct (Hne Hnil).
    + rewrite andb_false_r.
      repeat split; try lia; try discriminate.
      * intros [_ Habs]. discriminate Habs.
      * intros Hnil; destruct (Hne Hnil).
  - destruct ((3 <=? List.length headings)
              && (List.length (checkHeadingOrder headings) =? 0)) eqn:Hb.
    + repeat split; try lia; try (intros [Habs _]; discriminate Habs).
      intros Hnil. rewrite Hnil in Hb. discriminate Hb.
    + repeat split; try lia; try (intros [Habs _]; discriminate Habs).
      intros Hnil. unfold levels. rewrite Hnil. reflexivity.
Qed.

(** The theorem on the page with h1, h3, h3: it has an h1 and one order
    issue, so it does not reach 100. *)
Lemma heading_score_full_marks_witness :
  hd_score (checkHeadings (Some h1_h3_h3)) <> 100%Z.
Proof.
  intros H.
  apply (proj1 (proj1 (proj2 (heading_score_full_marks (Some h1_h3_h3))))) in H.
  destruct H as [_ H]. discriminate H.
Defined.

(** *** The summary *)

Lemma rounded_quotient (t : Z) (c : nat) :
  (0 <= t <= 300)%Z -> 1 <= c <= 3 ->
  JSNumber.Math_round (PrimFloat.div (of_Z t) (JSNumber.of_nat c))
  = ((2 * t + Z.of_nat c) / (2 * Z.of_nat c))%Z.
Proof.
  intros Ht Hc.
  assert (Hall : rounded_quotients_agree = true) by (vm_compute; reflexivity).
  unfold rounded_quotients_agree in Hall.
  rewrite forallb_forall in Hall.
  assert (Hin : In c [1; 2; 3]) by (cbn; lia).
  specialize (Hall c Hin). rewrite forallb_forall in Hall.
  specialize (Hall (Z.to_nat t)).
  rewrite Z2Nat.id in Hall by lia.
  apply Z.eqb_eq, Hall, in_seq. lia.
Qed.

Lemma landmark_score_range (axTree : option axNode) :
  (0 <= score (checkLandmarks axTree) <= 100)%Z.
Proof.
  unfold checkLandmarks. cbn [score]. unfold calculateLandmarkScore. lia.
Qed.

Lemma heading_score_range (axTree : option axNode) :
  (0 <= hd_score (checkHeadings axTree) <= 100)%Z.
Proof.
  unfold checkHeadings. cbn [hd_score]. unfold calculateHeadingScore. lia.
Qed.

Lemma generateSummary_spec (language : option languageReport)
    (landmarks : option landmarkReport) (headings : option headingReport) :
  (forall l, landmarks = Some l -> (0 <= score l <= 100)%Z) ->
  (forall h, headings = Some h -> (0 <= hd_score h <= 100)%Z) ->
  exists (t : Z) (c : nat) (iss : list string),
    generateSummary language landmarks headings
    = mkTreeSummary
        (if 0 <? c
         then JSNumber.Math_round
                (PrimFloat.div (of_Z t) (JSNumber.of_nat c))
         else 0%Z)
        iss (List.length iss) c
    /\ (0 <= t <= 100 * Z.of_nat c)%Z
    /\ c <= 3
    /\ (language <> None -> 1 <= c)
    /\ List.length iss <= 5
    /\ (In "missing-language" iss -> (t + 100 <= 100 * Z.of_nat c)%Z).
Proof.
  intros Hlm Hhd. unfold generateSummary.
  destruct landmarks as [lm |];
    [specialize (Hlm lm eq_refl);
     destruct (0 <? List.length (missing lm));
     destruct (0 <? List.length (AccessibilityTreeChecker.issues lm)) |];
  (destruct headings as [hd |];
    [specialize (Hhd hd eq_refl);
     destruct (hasH1 hd); destruct (0 <? List.length (orderIssues hd)) |]);
  (destruct language as [l |];
    [destruct (hasDeclaration l); [destruct (validFormat l) |] |]);
  cbn [negb app];
  do 3 eexists; (split; [reflexivity |]);
  cbn [List.length];
  (split; [lia |]); (split; [lia |]);
  (split; [try lia; intros H; now destruct H |]);
  (split; [lia |]);
  intros Hin; cbn [In] in Hin;
  first [lia | exfalso; intuition discriminate].
Qed.

(** X5: when the snapshot and the language are read, the summary of
    [executeCheck] counts between one and three components, lists at most
    five issues, and its overall score is between 0 and 100; the score of
    a page that declares no language is at most 67, however good its
    landmarks and headings are.  When either read of the page throws, the
    result carries the error and the fixed summary [{ issues: 1, score: 0 }]. *)
Theorem tree_summary_bounds (p : treePage) (o : treeOptions) :
  match tr_summary (executeCheck p o) with
  | Generated s =>
      tr_error (executeCheck p o) = None
      /\ (0 <= overallScore s <= 100)%Z
      /\ 1 <= components s <= 3
      /\ issueCount s = List.length (s_issues s)
      /\ issueCount s <= 5
      /\ (In "missing-language" (s_issues s) -> (overallScore s <= 67)%Z)
  | Fallback issues score =>
      issues = 1 /\ score = 0%Z
      /\ exists message,
           tr_error (executeCheck p o) = Some message
           /\ (snapshot p = Throw message
               \/ documentLang p = Throw message)
  end.
Proof.
  unfold executeCheck.
  destruct (snapshot p) as [axTree | m1] eqn:Hs; cbn [and_then].
  2: { cbn. repeat split. exists m1. auto. }
  destruct (documentLang p) as [lang | m2] eqn:Hl; cbn [and_then].
  2: { cbn. repeat split. exists m2. auto. }
  cbn [tr_summary tr_error].
  destruct (generateSummary_spec (Some (checkLanguage lang))
              (if checkLandmarks_opt o then Some (checkLandmarks axTree)
               else None)
              (if checkHeadings_opt o then Some (checkHeadings axTree)
               else None))
    as [t [c [iss [Heq [Ht [Hc3 [Hc1 [Hiss Hlang]]]]]]]].
  { intros l Hl'. destruct (checkLandmarks_opt o); [| discriminate].
    injection Hl' as <-. apply landmark_score_range. }
  { intros h Hh'. destruct (checkHeadings_opt o); [| discriminate].
    injection Hh' as <-. apply heading_score_range. }
  rewrite Heq. cbn [overallScore components issueCount s_issues].
  assert (H1 : 1 <= c) by (apply Hc1; discriminate).
  assert (Hpos : (0 <? c) = true) by (apply Nat.ltb_lt; lia).
  rewrite Hpos, rounded_quotient by lia.
  split; [reflexivity |]. split.
  { split; [apply Z.div_pos; lia |].
    apply Z.lt_succ_r, Z.div_lt_upper_bound; lia. }
  split; [lia |]. split; [reflexivity |]. split; [exact Hiss |].
  intros Hin. specialize (Hlang Hin).
  apply Z.lt_succ_r, Z.div_lt_upper_bound; lia.
Qed.

(** The theorem on a page without a language declaration whose headings
    are h1, h3, h3. *)
Lemma tree_summary_bounds_witness :
  exists s,
    tr_summary (executeCheck (a_page "" h1_h3_h3) default_treeOptions)
    = Generated s
    /\ (overallScore s <= 67)%Z.
Proof.
  pose proof (tree_summary_bounds (a_page "" h1_h3_h3) default_treeOptions) as H.
  destruct (tr_summary (executeCheck (a_page "" h1_h3_h3) default_treeOptions))
    as [s | i sc] eqn:Hs; [| discriminate Hs].
  exists s. split; [reflexivity |].
  apply H. injection Hs as <-. vm_compute. auto.
Defined.

End TreeFacts.


(** ** Keyboard focus problems *)
Module FocusFacts.
Import JS.
Import KeyboardFocusChecker.
Import FocusProps.

Lemma identify_loop_app (elements : list element) :
  forall index problems,
    identify_loop index elements problems
    = problems ++ identify_loop index elements [].
Proof.
  induction elements as [| el rest IH]; intros index problems;
    cbn [identify_loop].
  - now rewrite app_nil_r.
  - destruct (0 <? List.length (element_issues el)); [| apply IH].
    rewrite (IH _ (problems ++ _)), (IH _ ([] ++ _)).
    cbn [app]. now rewrite <- app_assoc.
Qed.

Lemma reported_iff_defective (el : element) :
  (0 <? List.length (element_issues el)) = defective el.
Proof.
  unfold element_issues, defective.
  destruct (focused el) as [[|] |], (hasVisibleFocus el),
    (negb (truthy (ariaLabel el)) && negb (truthy (text el)));
    reflexivity.
Qed.

Lemma identify_loop_spec (elements : list element) :
  forall index pr,
    In pr (identify_loop index elements [])
    <-> exists i el,
          nth_error elements i = Some el
          /\ defective el = true
          /\ pr = mkProblem (index + i) el (element_issues el)
                    (calculateSeverity (element_issues el)).
Proof.
  induction elements as [| el rest IH]; intros index pr;
    cbn [identify_loop].
  - split; [intros [] |]. intros [i [el [Hnth _]]].
    destruct i; discriminate Hnth.
  - rewrite identify_loop_app, in_app_iff, IH, reported_iff_defective.
    split.
    + intros [Hhere | [i [el' [Hnth [Hd Heq]]]]].
      * destruct (defective el) eqn:Hd; [| destruct Hhere].
        destruct Hhere as [<- | []].
        exists 0, el. rewrite Nat.add_0_r. auto.
      * exists (S i), el'.
        replace (index + S i) with (S index + i) by lia. auto.
    + intros [i [el' [Hnth [Hd Heq]]]]. destruct i as [| i].
      * left. cbn in Hnth. injection Hnth as <-.
        rewrite Hd, Nat.add_0_r in *. now left.
      * right. exists i, el'.
        replace (S index + i) with (index + S i) by lia. auto.
Qed.

Lemma identify_loop_length (elements : list element) :
  forall index,
    List.length (identify_loop index elements []) <= List.length elements.
Proof.
  induction elements as [| el rest IH]; intros index;
    cbn [identify_loop List.length]; [lia |].
  rewrite identify_loop_app, length_app. specialize (IH (S index)).
  destruct (0 <? List.length (element_issues el));
    cbn [app List.length]; lia.
Qed.

(** X6: [identifyProblems] reports exactly the elements that cannot take
    the focus, that take it without a visible indicator, or that have
    neither a label nor a text, each with its position in the array, in
    order; an element whose focus check threw is always reported, as
    [missing-label] with the severity [medium]. *)
Theorem focus_problems_cover (elements : list element) :
  (forall pr,
     In pr (identifyProblems elements)
     <-> exists i el,
           nth_error elements i = Some el
           /\ defective el = true
           /\ pr = mkProblem i el (element_issues el)
                     (calculateSeverity (element_issues el)))
  /\ List.length (identifyProblems elements) <= List.length elements
  /\ (forall i el,
        nth_error elements i = Some el ->
        focused el = None -> ariaLabel el = None -> text el = None ->
        In (mkProblem i el ["missing-label"] "medium")
           (identifyProblems elements)).
Proof.
  split; [intros pr; apply (identify_loop_spec elements 0) |].
  split; [apply identify_loop_length |].
  intros i el Hnth Hf Ha Ht.
  apply (identify_loop_spec elements 0). exists i, el.
  unfold defective, element_issues. rewrite Hf, Ha, Ht. auto.
Qed.

(** The theorem on [sample_elements]: the input whose check threw is
    reported at its position. *)
Lemma focus_problems_cover_witness :
  In (mkProblem 2 (mkElement "input" None None None false None)
                ["missing-label"] "medium")
     (identifyProblems sample_elements).
Proof.
  apply (proj2 (proj2 (focus_problems_cover sample_elements)) 2);
    reflexivity.
Defined.

(** X7: a reported problem has one or two issues, [not-focusable] and
    [no-visible-focus] never together; its severity is never [low]: it is
    [critical] exactly when the element could not take the focus, [high]
    exactly when it took it without a visible indicator, and [medium]
    exactly when the missing label is its only issue. *)
Theorem focus_problem_severity (elements : list element) (pr : problem) :
  In pr (identifyProblems elements) ->
  1 <= List.length (pr_issues pr) <= 2
  /\ pr_severity pr <> "low"
  /\ (pr_severity pr = "critical" <-> focused (pr_element pr) = Some false)
  /\ (pr_severity pr = "high"
      <-> focused (pr_element pr) = Some true
          /\ hasVisibleFocus (pr_element pr) = false)
  /\ (pr_severity pr = "medium" <-> pr_issues pr = ["missing-label"]).
Proof.
  intros Hin. apply (identify_loop_spec elements 0) in Hin.
  destruct Hin as [i [el [_ [Hd ->]]]].
  cbn [pr_issues pr_severity pr_element].
  revert Hd. unfold defective, element_issues.
  destruct (focused el) as [[|] |], (hasVisibleFocus el),
    (negb (truthy (ariaLabel el)) && negb (truthy (text el)));
    cbn; intros Hd; try discriminate Hd;
    repeat split; try lia; try discriminate; try reflexivity;
    try (intros H; discriminate H);
    try (intros [H1 H2]; discriminate).
Qed.

(** The theorem on the button of [sample_elements]: focused without an
    indicator, it is a problem of severity [high]. *)
Lemma focus_problem_severity_witness :
  pr_severity (mkProblem 1
                 (mkElement "button" (Some "Close") (Some "") (Some true)
                            false (Some "button.close"))
                 ["no-visible-focus"] "high") <> "low".
Proof.
  refine (proj1 (proj2 (focus_problem_severity sample_elements _ _))).
  left. reflexivity.
Defined.

End FocusFacts.

(** ** The contrast checker *)
Module ContrastFacts.
Import JS.
Import BaseChecker.
Import CheckerManager.
Import ColorContrastChecker.
Import ContrastProps.

(** X8: the contrast checker never reports a scan that failed.  The
    scanner turns every failure into an empty result carrying the error,
    [executeCheck] copies the arrays and drops the error, and
    [BaseChecker.run] marks the result successful: whatever the page
    answers, the check comes out with [success = true] and no error, is
    counted as passed, and after a failed scan it shows zero violations. *)
Theorem failed_contrast_scan_passes (contrast_ratio : string -> option float)
    (p : Scanner.primaryPage) (page_name : string) (now : nat) :
  let c := checker contrast_ratio p now in
  let result := runSingleCheck c page_name now in
  success result = Some true
  /\ error result = None
  /\ passed (res_summary (runAllChecks [c] 3 page_name now)) = 1
  /\ (forall r message,
        Scanner.AxeScanner_scanPage p page_name now = Return (Some r) ->
        Scanner.error r = Some message ->
        data result = Some (mkContrastResults None [] [] 0 0)).
Proof.
  cbv zeta.
  assert (Hscan : exists r,
            Scanner.AxeScanner_scanPage p page_name now = Return (Some r)
            /\ (Scanner.error r <> None ->
                Scanner.violations r = [] /\ Scanner.passes r = [])).
  { unfold Scanner.AxeScanner_scanPage.
    destruct (Scanner.injected p); cbn [negb try_catch].
    2: { eexists. split; [reflexivity |]. intros _. split; reflexivity. }
    destruct (Scanner.ready p) as [[] | m]; cbn [and_then try_catch].
    2: { eexists. split; [reflexivity |]. intros _. split; reflexivity. }
    destruct (Scanner.axeRun p) as [[r |] | m]; cbn [and_then try_catch].
    - eexists. split; [reflexivity |]. intros H. now destruct H.
    - eexists. split; [reflexivity |]. intros _. split; reflexivity.
    - eexists. split; [reflexivity |]. intros _. split; reflexivity. }
  destruct Hscan as [r [Hr Hfailed]].
  unfold runAllChecks, sort_by_priority, process_all, runSingleCheck, checker,
    derived, BaseChecker.run, executeCheck.
  cbn [run_method fold_left insert_by_priority map combine fst snd
       Nat.eqb Nat.ltb Nat.leb name].
  rewrite Hr. cbn [and_then out_error out_data cc_error truthy negb].
  unfold processCheckResult.
  cbn [success error data res_summary passed totalChecks failed errors].
  repeat split.
  intros r' message Hr' Herr. injection Hr' as <-.
  destruct Hfailed as [Hv Hp]; [congruence |].
  now rewrite Hv, Hp.
Qed.

(** The theorem on a page where the rule engine cannot be injected: the
    scan fails, the check reports no violation. *)
Lemma failed_contrast_scan_passes_witness :
  data (runSingleCheck (checker (fun _ => None) no_engine 0) "Home" 0)
  = Some (mkContrastResults None [] [] 0 0).
Proof.
  exact (proj2 (proj2 (proj2
           (failed_contrast_scan_passes (fun _ => None) no_engine "Home" 0)))
           _ "Failed to inject axe-core" eq_refl eq_refl).
Defined.

End ContrastFacts.

(** ** The registry of checkers *)
Module RegistryFacts.
Import JS.
Import BaseChecker.
Import CheckerManager.
Import CheckerRegistry.
Import CheckerProps.
Import RegistryProps.

Section Order.
Variable Data : Type.

Lemma insert_sorted (c : checker_obj Data) (l : list (checker_obj Data)) :
  StronglySorted by_priority l ->
  StronglySorted by_priority (insert_by_priority Data c l).
Proof.
  induction 1 as [| d l Hl IH Hd]; cbn [insert_by_priority].
  - repeat constructor.
  - destruct (getPriority c <? getPriority d)%Z eqn:Hlt.
    + apply Z.ltb_lt in Hlt. constructor.
      * now constructor.
      * constructor; [unfold by_priority; lia |].
        apply Forall_forall. intros x Hx.
        rewrite Forall_forall in Hd. specialize (Hd x Hx).
        unfold by_priority in *. lia.
    + apply Z.ltb_ge in Hlt. constructor; [exact IH |].
      apply Forall_forall. intros x Hx.
      apply (Permutation_in _ (CheckerFacts.insert_by_priority_perm Data c l))
        in Hx.
      destruct Hx as [<- | Hx]; [exact Hlt |].
      rewrite Forall_forall in Hd. auto.
Qed.

Lemma insert_stable (p : Z) (c : checker_obj Data)
    (l : list (checker_obj Data)) :
  StronglySorted by_priority l ->
  of_priority p (insert_by_priority Data c l)
  = of_priority p l ++ of_priority p [c].
Proof.
  unfold of_priority.
  induction 1 as [| d l Hl IH Hd]; cbn [insert_by_priority filter app].
  - reflexivity.
  - destruct (getPriority c <? getPriority d)%Z eqn:Hlt.
    + apply Z.ltb_lt in Hlt. cbn [filter].
      destruct (getPriority c =? p)%Z eqn:Hc.
      * apply Z.eqb_eq in Hc.
        assert (Hd' : (getPriority d =? p)%Z = false)
          by (apply Z.eqb_neq; lia).
        rewrite Hd'.
        rewrite (ListFacts.filter_none _ l); [reflexivity |].
        intros x Hx. rewrite Forall_forall in Hd. specialize (Hd x Hx).
        unfold by_priority in Hd. apply Z.eqb_neq. lia.
      * now rewrite app_nil_r.
    + cbn [filter]. rewrite IH.
      destruct (getPriority d =? p)%Z; reflexivity.
Qed.

Lemma sort_fold (cs : list (checker_obj Data)) :
  forall acc,
    StronglySorted by_priority acc ->
    let sorted := fold_left (fun sorted c => insert_by_priority Data c sorted)
                            cs acc in
    StronglySorted by_priority sorted
    /\ forall p, of_priority p sorted = of_priority p acc ++ of_priority p cs.
Proof.
  induction cs as [| c cs IH]; intros acc Hacc; cbn [fold_left].
  - split; [exact Hacc |]. intros p. unfold of_priority. cbn [filter].
    now rewrite app_nil_r.
  - destruct (IH _ (insert_sorted c acc Hacc)) as [Hs Hp].
    split; [exact Hs |]. intros p.
    rewrite Hp, (insert_stable p c acc Hacc), <- app_assoc.
    unfold of_priority. cbn [filter].
    destruct (getPriority c =? p)%Z; reflexivity.
Qed.

(** *** The object [results.checks] *)

Lemma put_keys {A : Type} (o : list (string * A)) (k : string) (v : A) :
  map fst (put o k v)
  = if includes (map fst o) k then map fst o else map fst o ++ [k].
Proof.
  unfold includes.
  induction o as [| [k' v'] o IH]; cbn [put map existsb fst];
    [reflexivity |].
  rewrite (String.eqb_sym k k').
  destruct (String.eqb k' k) eqn:Hk; cbn [orb map fst]; [reflexivity |].
  rewrite IH. destruct (existsb (String.eqb k) (map fst o)); reflexivity.
Qed.

Lemma set_check_keys (cs : list (string * checkResult Data)) (k : string)
    (v : checkResult Data) :
  map fst (set_check Data cs k v)
  = if String.eqb k "__proto__" || includes (map fst cs) k
    then map fst cs else map fst cs ++ [k].
Proof.
  unfold set_check, assign.
  destruct (String.eqb k "__proto__"); [reflexivity |]. apply put_keys.
Qed.

Lemma set_check_fresh (cs : list (string * checkResult Data)) (k : string)
    (v : checkResult Data) :
  k <> "__proto__" -> ~ In k (map fst cs) ->
  set_check Data cs k v = cs ++ [(k, v)].
Proof.
  intros Hk. unfold set_check, assign.
  apply String.eqb_neq in Hk. rewrite Hk. clear Hk.
  induction cs as [| [k' v'] cs IH]; cbn [put map fst In app];
    intros Hnotin; [reflexivity |].
  destruct (String.eqb k' k) eqn:Hk.
  - apply String.eqb_eq in Hk. tauto.
  - rewrite IH; tauto.
Qed.

Lemma process_checks (r : results Data) (k : string) (v : checkResult Data) :
  checks (processCheckResult r k v) = set_check Data (checks r) k v.
Proof. reflexivity. Qed.

Lemma fold_checks_fresh (l : list (string * checkResult Data)) :
  forall r,
    NoDup (map fst (checks r) ++ map fst l) ->
    ~ In "__proto__" (map fst l) ->
    checks (fold_left (fun acc kr => processCheckResult acc (fst kr) (snd kr))
                      l r)
    = checks r ++ l.
Proof.
  induction l as [| [k v] l IH]; intros r Hnd Hproto; cbn [fold_left fst snd].
  - now rewrite app_nil_r.
  - cbn [map fst In] in Hnd, Hproto.
    assert (Hfresh : ~ In k (map fst (checks r))).
    { intros Hin. apply NoDup_remove_2 in Hnd. apply Hnd.
      apply in_or_app. now left. }
    assert (Hk : k <> "__proto__") by (intros ->; tauto).
    rewrite IH.
    + rewrite process_checks, set_check_fresh by assumption.
      now rewrite <- app_assoc.
    + rewrite process_checks, set_check_fresh by assumption.
      rewrite map_app, <- app_assoc. exact Hnd.
    + tauto.
Qed.

Lemma fold_checks_keys (l : list (string * checkResult Data)) :
  forall r,
    let r' := fold_left
                (fun acc kr => processCheckResult acc (fst kr) (snd kr)) l r in
    (forall k, In k (map fst (checks r'))
               <-> In k (map fst (checks r))
                   \/ (In k (map fst l) /\ k <> "__proto__"))
    /\ (NoDup (map fst (checks r)) -> NoDup (map fst (checks r')))
    /\ List.length (checks r')
       <= List.length (checks r) + List.length l.
Proof.
  induction l as [| [k v] l IH]; intros r; cbn [fold_left fst snd map].
  - split; [intros k; cbn; tauto |]. split; [auto |]. cbn. lia.
  - destruct (IH (processCheckResult r k v)) as [Hkeys [Hnd Hlen]].
    rewrite process_checks in Hkeys, Hnd, Hlen.
    pose proof (set_check_keys (checks r) k v) as Hset.
    assert (Hinc : includes (map fst (checks r)) k = true
                   <-> In k (map fst (checks r)))
      by apply LandmarkFacts.includes_In.
    destruct (String.eqb k "__proto__") eqn:Hproto; cbn [orb] in Hset.
    + apply String.eqb_eq in Hproto. subst k. split; [| split].
      * intros k0. rewrite Hkeys, Hset. cbn [In]. split; [tauto |].
        intros [H | [[<- | H] Hne]]; tauto.
      * intros Hr. apply Hnd. now rewrite Hset.
      * assert (Hl : List.length (set_check Data (checks r) "__proto__" v)
                     = List.length (checks r))
          by (rewrite <- (length_map fst), Hset; apply length_map).
        cbn [List.length]. lia.
    + apply String.eqb_neq in Hproto. split; [| split].
      * intros k0. rewrite Hkeys, Hset.
        destruct (includes (map fst (checks r)) k) eqn:Hi.
        -- cbn [In]. split; [tauto |].
           intros [H | [[<- | H] Hne]]; auto. left. now apply Hinc.
        -- rewrite in_app_iff. cbn [In]. split; [| tauto].
           intros [[H | [<- | []]] | H]; tauto.
      * intros Hr. apply Hnd. rewrite Hset.
        destruct (includes (map fst (checks r)) k) eqn:Hi; [exact Hr |].
        apply NoDup_app; [exact Hr | repeat constructor; intros [] |].
        intros x Hx [<- | []]. apply Hinc in Hx. congruence.
      * assert (Hl : List.length (set_check Data (checks r) k v)
                     <= S (List.length (checks r))).
        { rewrite <- (length_map fst), Hset, <- (length_map fst (checks r)).
          destruct (includes (map fst (checks r)) k);
            rewrite ?length_app; cbn [List.length]; lia. }
        cbn [List.length]. lia.
Qed.

(** Without an array index among its names an object is enumerated in
    the order of creation. *)
Lemma keys_in_creation_order {A : Type} (o : list (string * A)) :
  (forall k, In k (map fst o) -> is_array_index k = false) ->
  keys o = map fst o.
Proof.
  intros Hnone. unfold keys.
  rewrite (ListFacts.filter_none is_array_index (map fst o) Hnone).
  cbn [fold_left app].
  induction (map fst o) as [| k ks IH]; [reflexivity |].
  cbn [filter]. rewrite (Hnone k (or_introl eq_refl)). cbn [negb].
  f_equal. apply IH. intros k' Hk'. apply Hnone. now right.
Qed.

(** *** [removeChecker] *)

Lemma removeChecker_spec (n : string) (cs : list (checker_obj Data)) :
  match removeChecker n cs with
  | (true, cs') =>
      exists before c after,
        cs = before ++ c :: after
        /\ name c = n
        /\ (forall d, In d before -> name d <> n)
        /\ cs' = before ++ after
        /\ getChecker cs n = Some c
  | (false, cs') => cs' = cs /\ getChecker cs n = None
  end.
Proof.
  unfold getChecker.
  induction cs as [| c cs IH]; cbn [removeChecker find]; [auto |].
  destruct (String.eqb (name c) n) eqn:Hc.
  - apply String.eqb_eq in Hc. exists [], c, cs. cbn. repeat split; tauto.
  - apply String.eqb_neq in Hc.
    destruct (removeChecker n cs) as [[|] cs'].
    + destruct IH as [before [d [after [-> [Hd [Hbefore [-> Hfind]]]]]]].
      exists (c :: before), d, after. cbn [app In].
      repeat split; auto. intros x [<- | Hx]; auto.
    + destruct IH as [-> Hfind]. auto.
Qed.

End Order.

(** X9: the stable sort [runAllChecks] applies puts the checkers in
    ascending priority and keeps the checkers of equal priority in the
    order of registration; it only reorders them. *)
Theorem checkers_run_by_priority {Data : Type}
    (checkers : list (checker_obj Data)) (p : Z) :
  StronglySorted by_priority (sort_by_priority checkers)
  /\ of_priority p (sort_by_priority checkers) = of_priority p checkers
  /\ Permutation (sort_by_priority checkers) checkers.
Proof.
  destruct (sort_fold Data checkers [] (SSorted_nil _)) as [Hs Hp].
  split; [exact Hs |]. split; [apply (Hp p) |].
  apply CheckerFacts.sort_by_priority_perm.
Qed.

(** X10: [results.checks] holds one property per checker name, the name
    [__proto__] apart (an assignment under that name creates none): its
    names are those of the registered checkers, without repetition, so it
    never has more entries than [totalChecks].  When the names are
    distinct and none is [__proto__] it holds every checker with its
    result, created in ascending priority; and it is enumerated in that
    order when no name is an array index (such names come first, in
    numeric order). *)
Theorem checks_are_keyed_by_name {Data : Type}
    (checkers : list (checker_obj Data)) (maxConcurrency : nat)
    (page_name : string) (now : nat) :
  let r := runAllChecks checkers maxConcurrency page_name now in
  let names := map name checkers in
  (forall n, In n (map fst (checks r)) <-> In n names /\ n <> "__proto__")
  /\ NoDup (map fst (checks r))
  /\ List.length (checks r) <= totalChecks (res_summary r)
  /\ (NoDup names -> ~ In "__proto__" names ->
      checks r
      = map (fun c => (name c, runSingleCheck c page_name now))
            (sort_by_priority checkers)
      /\ ((forall n, In n names -> is_array_index n = false) ->
          keys (checks r) = map name (sort_by_priority checkers))).
Proof.
  cbv zeta. unfold runAllChecks. cbn [checks res_summary totalChecks].
  rewrite CheckerFacts.process_all_fold.
  set (sorted := sort_by_priority checkers).
  assert (Hperm : Permutation sorted checkers)
    by apply CheckerFacts.sort_by_priority_perm.
  set (l := map (fun c => (name c, runSingleCheck c page_name now)) sorted).
  set (r0 := mkResults Data page_name now []
               (mkSummary (List.length checkers) 0 0 0 None)).
  assert (Hnames : map fst l = map name sorted).
  { unfold l. rewrite map_map. reflexivity. }
  assert (Hsame : forall n, In n (map name sorted) <-> In n (map name checkers)).
  { intros n. split; intros Hin.
    - eapply Permutation_in; [apply Permutation_map, Hperm | exact Hin].
    - eapply Permutation_in;
        [apply Permutation_map, Permutation_sym, Hperm | exact Hin]. }
  destruct (fold_checks_keys Data l r0) as [Hkeys [Hnd Hlen]].
  destruct (CheckerFacts.fold_process_counts Data l r0) as [Htotal _].
  cbn [res_summary totalChecks checks r0 map List.length] in *.
  split; [| split; [| split]].
  - intros n. rewrite Hkeys, Hnames, Hsame. cbn [In]. tauto.
  - apply Hnd. constructor.
  - rewrite Htotal. unfold l in Hlen. rewrite length_map in Hlen.
    rewrite (Permutation_length Hperm) in Hlen. cbn in Hlen. exact Hlen.
  - intros Hdistinct Hproto.
    assert (Hchecks : checks (fold_left
                (fun acc kr => processCheckResult acc (fst kr) (snd kr)) l r0)
              = l).
    { rewrite (fold_checks_fresh Data l r0); [reflexivity | |].
      - cbn [checks r0 map app]. rewrite Hnames.
        eapply Permutation_NoDup;
          [apply Permutation_map, Permutation_sym, Hperm | exact Hdistinct].
      - rewrite Hnames, Hsame. exact Hproto. }
    split; [exact Hchecks |].
    intros Hnone. rewrite Hchecks, <- Hnames.
    apply keys_in_creation_order.
    intros k Hk. apply Hnone. rewrite <- Hsame, <- Hnames. exact Hk.
Qed.

(** The theorem on the four checkers of the manager: their names are
    distinct, [checks] is enumerated by priority. *)
Lemma checks_are_keyed_by_name_witness :
  keys (checks (runAllChecks builtin_checkers 3 "Home" 0))
  = ["ColorContrastChecker"; "KeyboardFocusChecker"; "ZoomChecker";
     "AccessibilityTreeChecker"].
Proof.
  destruct (proj2 (proj2 (proj2
              (checks_are_keyed_by_name builtin_checkers 3 "Home" 0))))
    as [_ Hkeys].
  - repeat (constructor; [cbn; intuition discriminate |]). constructor.
  - cbn. intuition discriminate.
  - rewrite Hkeys; [reflexivity |].
    intros n [<- | [<- | [<- | [<- | []]]]]; reflexivity.
Defined.

(** A name that is an array index is enumerated before the others,
    whatever the priorities, and a checker named [__proto__] is counted
    but leaves no entry. *)
Lemma checks_enumeration_examples :
  keys (checks (runAllChecks [passing "b" 1; passing "1" 2] 3 "Home" 0))
  = ["1"; "b"]
  /\ checks (runAllChecks [passing "__proto__" 1] 3 "Home" 0) = []
  /\ totalChecks (res_summary
                    (runAllChecks [passing "__proto__" 1] 3 "Home" 0)) = 1.
Proof. vm_compute. repeat split. Qed.

(** X11: [runSpecificChecks] runs the registered checkers whose name is
    asked for, in the order of the registry: names that are not
    registered are ignored, and when none is registered no check runs and
    the answer is the error object.  Otherwise the summary counts the
    results of those checkers by class, the three counters adding up to
    [totalChecks], which is the number of checkers run, not of names
    asked for. *)
Theorem specific_checks_summary {Data : Type}
    (checkers : list (checker_obj Data)) (checkerNames : list string)
    (page_name : string) (now : nat) :
  let targets := filter (fun c => includes checkerNames (name c)) checkers in
  let rs := map (fun c => runSingleCheck c page_name now) targets in
  (targets = [] ->
     runSpecificChecks checkers checkerNames page_name now
     = inr "No matching checkers found")
  /\ (targets <> [] ->
      exists r,
        runSpecificChecks checkers checkerNames page_name now = inl r
        /\ totalChecks (res_summary r) = List.length targets
        /\ passed (res_summary r) = count Pass rs
        /\ failed (res_summary r) = count Fail rs
        /\ errors (res_summary r) = count Error rs
        /\ passed (res_summary r) + failed (res_summary r)
           + errors (res_summary r) = totalChecks (res_summary r)
        /\ successRate (res_summary r)
           = Some (JSNumber.percentage (count Pass rs) (List.length targets)))
  /\ (forall unknown,
        ~ In unknown (map name checkers) ->
        runSpecificChecks checkers (checkerNames ++ [unknown]) page_name now
        = runSpecificChecks checkers checkerNames page_name now).
Proof.
  cbv zeta. split; [| split].
  - intros Hnone. unfold runSpecificChecks. now rewrite Hnone.
  - intros Hsome. unfold runSpecificChecks.
    set (targets := filter (fun c => includes checkerNames (name c)) checkers)
      in *.
    destruct targets as [| t ts] eqn:Ht; [congruence |].
    rewrite <- Ht. cbn [List.length Nat.eqb].
    assert (Hlen : List.length targets = S (List.length ts))
      by now rewrite Ht.
    rewrite Hlen. cbn [Nat.eqb].
    eexists. split; [reflexivity |].
    cbn [res_summary totalChecks passed failed errors successRate].
    match goal with
    | |- context [fold_left _ targets ?r0] =>
        pose proof (CheckerFacts.fold_process_counts Data
                      (map (fun c => (name c, runSingleCheck c page_name now))
                           targets) r0) as H;
        assert (Hfold :
          fold_left (fun acc kr => processCheckResult acc (fst kr) (snd kr))
            (map (fun c => (name c, runSingleCheck c page_name now)) targets)
            r0
          = fold_left
              (fun acc c =>
                 processCheckResult acc (name c)
                                    (runSingleCheck c page_name now))
              targets r0)
    end.
    { clear. generalize (mkResults Data page_name now []
                           (mkSummary (S (List.length ts)) 0 0 0 None)).
      induction targets as [| c cs IH]; intros r; [reflexivity |].
      cbn [map fold_left fst snd]. apply IH. }
    cbv zeta in H. rewrite Hfold, map_map in H.
    cbn [snd res_summary totalChecks passed failed errors] in H.
    destruct H as [Htot [Hp [Hf He]]].
    rewrite Htot, Hp, Hf, He. cbn [Nat.ltb Nat.leb].
    pose proof (CheckerFacts.count_total Data
                  (map (fun c => runSingleCheck c page_name now) targets))
      as Hsum.
    rewrite length_map, Hlen in Hsum.
    repeat split; lia.
  - intros unknown Hunknown. unfold runSpecificChecks.
    assert (Hsame :
      filter (fun c => includes (checkerNames ++ [unknown]) (name c)) checkers
      = filter (fun c => includes checkerNames (name c)) checkers).
    { apply filter_ext_in. intros c Hc.
      unfold includes. rewrite existsb_app. cbn [existsb].
      rewrite orb_false_r.
      destruct (String.eqb (name c) unknown) eqn:Heq;
        [| now rewrite orb_false_r].
      apply String.eqb_eq in Heq. exfalso. apply Hunknown.
      rewrite <- Heq. now apply in_map. }
    now rewrite Hsame.
Qed.

(** The theorem on the four checkers of the manager: asked for the zoom
    checker and for a checker that does not exist, the manager runs one
    check. *)
Lemma specific_checks_summary_witness :
  exists r,
    runSpecificChecks builtin_checkers ["ZoomChecker"; "SpellChecker"]
                      "Home" 0 = inl r
    /\ totalChecks (res_summary r) = 1.
Proof.
  destruct (proj1 (proj2 (specific_checks_summary builtin_checkers
                            ["ZoomChecker"; "SpellChecker"] "Home" 0)))
    as [r [Hr [Ht _]]]; [discriminate |].
  exists r. split; [exact Hr | exact Ht].
Defined.

(** X12: [removeChecker] takes out the first checker of the given name
    and nothing else, the one [getChecker] returns, and answers [true];
    when there is none it answers [false] and leaves the registry as it
    is.  [addChecker] appends a checker and ignores anything without a
    [run] function; adding a checker under a name that is not registered
    and removing that name gives the registry back. *)
Theorem registry_add_remove {Data : Type}
    (checkers : list (checker_obj Data)) (n : string) :
  (forall cs',
     removeChecker n checkers = (true, cs') ->
     exists before c after,
       checkers = before ++ c :: after
       /\ name c = n
       /\ (forall d, In d before -> name d <> n)
       /\ cs' = before ++ after
       /\ getChecker checkers n = Some c)
  /\ (getChecker checkers n = None
      <-> removeChecker n checkers = (false, checkers))
  /\ addChecker Nothing checkers = checkers
  /\ addChecker (WithoutRun n) checkers = checkers
  /\ (forall c,
        name c = n -> getChecker checkers n = None ->
        getChecker (addChecker (Checker c) checkers) n = Some c
        /\ removeChecker n (addChecker (Checker c) checkers)
           = (true, checkers)).
Proof.
  pose proof (removeChecker_spec Data n checkers) as Hspec.
  split; [| split; [| split; [| split]]].
  - intros cs' Heq. rewrite Heq in Hspec. exact Hspec.
  - destruct (removeChecker n checkers) as [[|] cs'].
    + destruct Hspec as [before [c [after [_ [_ [_ [_ Hfind]]]]]]].
      rewrite Hfind. split; discriminate.
    + destruct Hspec as [-> Hfind]. tauto.
  - reflexivity.
  - reflexivity.
  - intros c Hname Hnone. cbn [addChecker]. unfold getChecker in *.
    assert (Hno : forall d, In d checkers -> String.eqb (name d) n = false).
    { intros d Hd. destruct (String.eqb (name d) n) eqn:Heq; [| reflexivity].
      pose proof (find_none _ _ Hnone d Hd) as Hf. cbv beta in Hf.
      congruence. }
    clear Hspec Hnone. split.
    + induction checkers as [| d ds IH]; cbn [app find].
      * rewrite Hname, String.eqb_refl. reflexivity.
      * rewrite (Hno d (or_introl eq_refl)). apply IH.
        intros x Hx. apply Hno. now right.
    + induction checkers as [| d ds IH]; cbn [app removeChecker].
      * rewrite Hname, String.eqb_refl. reflexivity.
      * rewrite (Hno d (or_introl eq_refl)), IH; [reflexivity |].
        intros x Hx. apply Hno. now right.
Qed.

(** The theorem on the four checkers of the manager: a fifth checker is
    added and removed again. *)
Lemma registry_add_remove_witness :
  removeChecker "SpellChecker"
    (addChecker (Checker (passing "SpellChecker" 5)) builtin_checkers)
  = (true, builtin_checkers).
Proof.
  exact (proj2 (proj2 (proj2 (proj2 (proj2
           (registry_add_remove builtin_checkers "SpellChecker"))))
           (passing "SpellChecker" 5) eq_refl eq_refl)).
Defined.

End RegistryFacts.


(** ** Polling *)
Module PollFacts.
Import JS.
Import Poll.
Import PollProps.

Section Loop.
Variable E : Type.
Variable conditionFn : nat -> outcome bool E.
Variable clock : nat -> Z.
Variable o : options.
Variable startTime : Z.

(** Rounds in which the condition does not hold and the deadline has not
    passed are a call and a sleep each. *)
Lemma poll_loop_idle (k : nat) :
  forall n fuel done,
    (forall i, n <= i < n + k ->
       conditionFn i = Return false
       /\ (clock i - startTime <= timeout o)%Z) ->
    poll_loop conditionFn clock o startTime n (k + fuel) done
    = poll_loop conditionFn clock o startTime (n + k) fuel
                (done ++ idle_rounds o n k).
Proof.
  induction k as [| k IH]; intros n fuel done Hidle.
  - cbn [Nat.add idle_rounds seq flat_map].
    now rewrite Nat.add_0_r, app_nil_r.
  - cbn [Nat.add poll_loop].
    destruct (Hidle n ltac:(lia)) as [Hc Ht]. rewrite Hc.
    apply Z.ltb_ge in Ht. rewrite Ht.
    rewrite IH by (intros i Hi; apply Hidle; lia).
    unfold idle_rounds. cbn [seq flat_map app].
    rewrite <- app_assoc. cbn [app].
    replace (S n + k) with (n + S k) by lia. reflexivity.
Qed.

Lemma checks_app (t u : list effect) : checks (t ++ u) = checks t + checks u.
Proof. unfold checks. now rewrite filter_app, length_app. Qed.

Lemma checks_idle_rounds (n k : nat) : checks (idle_rounds o n k) = k.
Proof.
  unfold idle_rounds. revert n.
  induction k as [| k IH]; intros n; [reflexivity |].
  cbn [seq flat_map app]. change (checks (Call n :: Sleep (interval o)
    :: flat_map (fun i => [Call i; Sleep (interval o)]) (seq (S n) k)))
    with (S (checks (flat_map (fun i => [Call i; Sleep (interval o)])
                              (seq (S n) k)))).
  now rewrite IH.
Qed.

(** The first round after the deadline, under a clock that passes it. *)
Lemma first_late (bound : nat) :
  (timeout o < clock bound - startTime)%Z ->
  exists m,
    m <= bound
    /\ (timeout o < clock m - startTime)%Z
    /\ forall i, i < m -> (clock i - startTime <= timeout o)%Z.
Proof.
  induction bound as [bound IH] using lt_wf_ind. intros Hlate.
  destruct (Forall_Exists_dec (fun i => (clock i - startTime <= timeout o)%Z)
              (fun i => Z_le_dec (clock i - startTime) (timeout o))
              (seq 0 bound)) as [Hall | Hex].
  - exists bound. split; [lia |]. split; [exact Hlate |].
    intros i Hi. rewrite Forall_forall in Hall. apply Hall, in_seq. lia.
  - apply Exists_exists in Hex. destruct Hex as [j [Hj Hlatej]].
    apply in_seq in Hj.
    destruct (IH j ltac:(lia) ltac:(lia)) as [m [Hm [Hlatem Hbefore]]].
    exists m. split; [lia | auto].
Qed.

End Loop.

(** X13: [poll] resolves at the first call of the condition that gives a
    truthy value, provided the calls before gave falsy values within the
    deadline: it has then called the condition [k + 1] times and slept
    [k] times for [interval].  The condition is checked before the
    clock, so a condition that holds at once is honoured whatever the
    timeout is; and an error of the condition is rethrown at once. *)
Theorem poll_first_success {E : Type} (conditionFn : nat -> outcome bool E)
    (clock : nat -> Z) (o : options) (startTime : Z) (k fuel : nat) :
  (forall i, i < k ->
     conditionFn i = Return false
     /\ (clock i - startTime <= timeout o)%Z) ->
  k < fuel ->
  (conditionFn k = Return true ->
     poll conditionFn clock o startTime fuel
     = Some (Return tt, idle_rounds o 0 k ++ [Call k])
     /\ checks (idle_rounds o 0 k ++ [Call k]) = k + 1)
  /\ (forall e,
        conditionFn k = Throw e ->
        poll conditionFn clock o startTime fuel
        = Some (Throw (ConditionError e), idle_rounds o 0 k ++ [Call k])).
Proof.
  intros Hidle Hfuel. unfold poll.
  replace fuel with (k + S (fuel - S k)) by lia.
  rewrite (poll_loop_idle E conditionFn clock o startTime k 0)
    by (intros i Hi; apply Hidle; lia).
  cbn [Nat.add app poll_loop]. split.
  - intros Hk. rewrite Hk. split; [reflexivity |].
    rewrite checks_app, checks_idle_rounds. reflexivity.
  - intros e Hk. now rewrite Hk.
Qed.

(** The theorem on a condition that holds at its third call, with the
    default options: three calls, two sleeps of 100 ms. *)
Lemma poll_first_success_witness :
  poll third_time seconds default_options 0 10
  = Some (Return tt, [Call 0; Sleep 100; Call 1; Sleep 100; Call 2]).
Proof.
  refine (proj1 (proj1 (poll_first_success third_time seconds default_options
                          0%Z 2 10 _ _) _)).
  - intros i Hi. destruct i as [| [| i]]; [| | lia]; split;
      first [reflexivity | cbn; lia].
  - lia.
  - reflexivity.
Defined.

(** X14: when the condition never holds and every round takes at least
    [interval > 0] of the clock, [poll] ends: it rejects with the timeout
    error at the first round whose clock reading is more than [timeout]
    after the start, which comes after [timeout / interval + 1] sleeps at
    most. *)
Theorem poll_times_out {E : Type} (conditionFn : nat -> outcome bool E)
    (clock : nat -> Z) (o : options) (startTime : Z) :
  (0 < interval o)%Z -> (0 <= timeout o)%Z ->
  (startTime <= clock 0%nat)%Z ->
  (forall n, (clock n + interval o <= clock (S n))%Z) ->
  (forall n, conditionFn n = Return false) ->
  exists m,
    m <= Z.to_nat (timeout o / interval o) + 1
    /\ (timeout o < clock m - startTime)%Z
    /\ (forall i, i < m -> (clock i - startTime <= timeout o)%Z)
    /\ forall fuel,
         m < fuel ->
         poll conditionFn clock o startTime fuel
         = Some (Throw (TimedOut (timeoutMessage o)),
                 idle_rounds o 0 m ++ [Call m]).
Proof.
  intros Hint Htime Hstart Hclock Hnever.
  set (bound := Z.to_nat (timeout o / interval o) + 1).
  assert (Hadvance : forall n,
            (startTime + Z.of_nat n * interval o <= clock n)%Z).
  { induction n as [| n IH]; [cbn; lia |].
    specialize (Hclock n). rewrite Nat2Z.inj_succ. lia. }
  assert (Hlate : (timeout o < clock bound - startTime)%Z).
  { specialize (Hadvance bound).
    assert (Hb : Z.of_nat bound = (timeout o / interval o + 1)%Z).
    { unfold bound. rewrite Nat2Z.inj_add, Z2Nat.id; [reflexivity |].
      apply Z.div_pos; lia. }
    rewrite Hb in Hadvance.
    pose proof (Z.mul_succ_div_gt (timeout o) (interval o) Hint) as Hgt.
    unfold Z.succ in Hgt. lia. }
  destruct (first_late clock o startTime bound Hlate)
    as [m [Hm [Hlatem Hbefore]]].
  exists m. split; [exact Hm |]. split; [exact Hlatem |].
  split; [exact Hbefore |].
  intros fuel Hfuel. unfold poll.
  replace fuel with (m + S (fuel - S m)) by lia.
  rewrite (poll_loop_idle E conditionFn clock o startTime m 0)
    by (intros i Hi; split; [apply Hnever | apply Hbefore; lia]).
  cbn [Nat.add app poll_loop]. rewrite Hnever.
  apply Z.ltb_lt in Hlatem. now rewrite Hlatem.
Qed.

(** The theorem on a condition that never holds, polled every second for
    three seconds under a clock of one second per round: the timeout
    comes at the fifth call. *)
Lemma poll_times_out_witness :
  exists m,
    m <= 4
    /\ poll never seconds (mkOptions 1000 3000 "too late") 0 10
       = Some (Throw (TimedOut "too late"),
               idle_rounds (mkOptions 1000 3000 "too late") 0 m ++ [Call m]).
Proof.
  destruct (poll_times_out never seconds (mkOptions 1000 3000 "too late") 0%Z)
    as [m [Hm [Hlate [_ Hpoll]]]].
  - reflexivity.
  - cbn; lia.
  - reflexivity.
  - intros n. unfold seconds. cbn [interval]. lia.
  - reflexivity.
  - exists m. split; [exact Hm |]. apply Hpoll.
    change (Z.to_nat (timeout (mkOptions 1000 3000 "too late")
                      / interval (mkOptions 1000 3000 "too late")) + 1)
      with 4 in Hm.
    lia.
Defined.

End PollFacts.

(** ** The application manager *)
Module AppFacts.
Import JS.
Import JSString.
Import AppManager.
Import AppProps.

(** X15: while the application shows no window, [getMainWindow] asks for
    its windows five times, waiting 1, 2, 4 and 8 seconds in between,
    then rethrows [No windows available]: the title is never read and no
    main window is recorded.  An error of [app.windows()] that does not
    mention [No windows available] is rethrown after one attempt, and
    without an application the call throws [Application not launched] at
    once. *)
Theorem main_window_retries {Window : Type} (app : electronApp Window)
    (w : option Window) (fuel : nat) :
  ((forall n, 1 <= n <= 5 -> windows app n = Return []) ->
     getMainWindow (mkManager (Some app) w) fuel
     = Some (Throw "No windows available", mkManager (Some app) w,
             map Retried
               [Retry.Invoke 1; Retry.Delay 1000; Retry.Invoke 2;
                Retry.Delay 2000; Retry.Invoke 3; Retry.Delay 4000;
                Retry.Invoke 4; Retry.Delay 8000; Retry.Invoke 5]))
  /\ (forall message,
        windows app 1 = Throw message ->
        string_includes message "No windows available" = false ->
        getMainWindow (mkManager (Some app) w) fuel
        = Some (Throw message, mkManager (Some app) w,
                [Retried (Retry.Invoke 1)]))
  /\ getMainWindow (mkManager None w) fuel
     = Some (Throw "Application not launched", mkManager None w, []).
Proof.
  split; [| split].
  - intros Hnone. unfold getMainWindow. cbn [electronApp_of].
    unfold Retry.retry, first_window.
    change (Retry.rounds window_retry) with 5.
    cbn [Retry.retry_loop].
    rewrite !Hnone by lia.
    cbn [and_then Retry.retryCondition]. reflexivity.
  - intros message Hthrow Hother. unfold getMainWindow. cbn [electronApp_of].
    unfold Retry.retry, first_window.
    change (Retry.rounds window_retry) with 5.
    cbn [Retry.retry_loop].
    rewrite Hthrow. cbn [and_then Retry.retryCondition window_retry].
    rewrite Hother. reflexivity.
  - reflexivity.
Qed.

(** The theorem on [windowless]. *)
Lemma main_window_retries_witness :
  exists t,
    getMainWindow (mkManager (Some windowless) None) 0
    = Some (Throw "No windows available", mkManager (Some windowless) None, t)
    /\ Retry.delays (flat_map (fun e => match e with
                                        | Retried r => [r]
                                        | _ => []
                                        end) t)
       = [1000; 2000; 4000; 8000]%Z.
Proof.
  eexists. split.
  - apply (proj1 (main_window_retries windowless None 0)).
    intros n _. reflexivity.
  - reflexivity.
Defined.

Lemma race_settles (evs : list (WithTimeout.event unit string)) :
  delivered evs = true ->
  WithTimeoutProps.is_pending
    (WithTimeout.wrapper (WithTimeout.run "App close timeout" evs)) = false.
Proof.
  destruct evs as [| ev evs]; [discriminate |]. intros _.
  unfold WithTimeout.run. cbn [fold_left].
  rewrite WithTimeoutFacts.wrapper_stable;
    destruct ev as [[[] | e] |]; reflexivity.
Qed.

(** X16: [closeApp] never throws and always forgets the application: once
    the close or its ten-second timer is delivered, the manager holds no
    application and no window, whether the close succeeded, failed or
    hung, and whether the forced kill worked or not.  The forced kill is
    issued exactly when the graceful close lost the race or rejected;
    without an application nothing is done. *)
Theorem close_app_forgets {Window : Type} (app : electronApp Window)
    (w : option Window) (taskkill : outcome unit string) :
  closeApp (mkManager None w) taskkill = Some (mkManager None w, [])
  /\ (delivered (closing app) = true ->
      exists t,
        closeApp (mkManager (Some app) w) taskkill
        = Some (mkManager None None, t)
        /\ isRunning (mkManager (Window:=Window) None None) = false
        /\ (In Taskkill t
            <-> WithTimeout.wrapper
                  (WithTimeout.run "App close timeout" (closing app))
                <> WithTimeout.Fulfilled tt)
        /\ (forall later,
              closing app = WithTimeout.TimerFires :: later ->
              t = [GracefulClose; Taskkill]))
  /\ (closing app = [] -> closeApp (mkManager (Some app) w) taskkill = None).
Proof.
  split; [reflexivity |]. split.
  - intros Hd. pose proof (race_settles (closing app) Hd) as Hsettled.
    unfold closeApp. cbn [electronApp_of].
    destruct (WithTimeout.wrapper
                (WithTimeout.run "App close timeout" (closing app)))
      as [| [] | e] eqn:Hw; [discriminate Hsettled | |].
    + eexists. split; [reflexivity |]. split; [reflexivity |]. split.
      * split; [intros [H | []]; discriminate | intros H; now destruct H].
      * intros later Hlater. rewrite Hlater in Hw.
        unfold WithTimeout.run in Hw. cbn [fold_left] in Hw.
        rewrite WithTimeoutFacts.wrapper_stable in Hw by reflexivity.
        discriminate Hw.
    + eexists. split; [reflexivity |]. split; [reflexivity |]. split.
      * split; [discriminate | intros _; right; now left].
      * reflexivity.
  - intros Hnone. unfold closeApp. cbn [electronApp_of]. now rewrite Hnone.
Qed.

(** The theorem on an application whose close hangs: the timer fires,
    the process is killed, the manager forgets the application. *)
Lemma close_app_forgets_witness :
  closeApp (mkManager (Some hanging) (Some 7)) (Throw "access denied")
  = Some (mkManager None None, [GracefulClose; Taskkill]).
Proof.
  destruct (proj1 (proj2 (close_app_forgets hanging (Some 7)
                            (Throw "access denied"))) eq_refl)
    as [t [Hclose [_ [_ Hkill]]]].
  rewrite Hclose, (Hkill [] eq_refl). reflexivity.
Defined.

End AppFacts.


(** ** Reports *)
Module ReportFacts.
Import JS.
Import JSString.
Import ReportManager.
Import Reporters.
Import ReportProps.

(** X17: [validateReportData] declares the data valid exactly when it
    lists no error; warnings never make data invalid.  Only a falsy
    value, a value that is no object, or an [axeResults] or
    [extraResults] that is no array are errors; in particular the empty
    object, which is what [TestEngine.validateConfiguration] submits, is
    valid, with two warnings. *)
Theorem report_data_validity (data : reportData) :
  (valid (validateReportData data) = true
   <-> v_errors (validateReportData data) = [])
  /\ List.length (v_errors (validateReportData data)) <= 2
  /\ (valid (validateReportData data) = true
      <-> exists timestamp axeResults extraResults,
            data = AnObject timestamp axeResults extraResults
            /\ axeResults <> NotAnArray /\ extraResults <> NotAnArray)
  /\ validateReportData empty_object
     = mkValidation true []
         ["Missing timestamp in report data";
          "No test results found in report data"].
Proof.
  split; [| split; [| split]].
  - destruct data as [| | ts [| |] [| |]]; try destruct ts; cbn;
      split; intros H; first [reflexivity | discriminate H].
  - destruct data as [| | ts [| |] [| |]]; try destruct ts; cbn; lia.
  - split.
    + destruct data as [| | ts axe extra]; cbn; try discriminate.
      intros Hvalid. exists ts, axe, extra. split; [reflexivity |].
      destruct axe, extra, ts; cbn in Hvalid;
        first [discriminate Hvalid | split; discriminate].
    + intros [ts [axe [extra [-> [Haxe Hextra]]]]].
      destruct axe, extra, ts; cbn; first [reflexivity | congruence].
  - reflexivity.
Qed.

(** *** [generateAllReports] *)

Lemma record_reports_counts (reporters : list reporter)
    (formats : list string) :
  forall acc,
    let acc' := fold_left (record_report reporters) formats acc in
    totalReports (snd acc') = totalReports (snd acc)
    /\ successful (snd acc')
       = successful (snd acc)
         + List.length (filter (fun f => rep_success (generateReport reporters f))
                               formats)
    /\ failed (snd acc')
       = failed (snd acc)
         + List.length
             (filter (fun f => negb (rep_success (generateReport reporters f)))
                     formats).
Proof.
  induction formats as [| f formats IH]; intros acc; cbn [fold_left filter].
  - cbn. repeat split; lia.
  - specialize (IH (record_report reporters acc f)). cbv zeta in IH.
    destruct IH as [Ht [Hs Hf]]. rewrite Ht, Hs, Hf.
    unfold record_report. cbn [snd].
    destruct (rep_success (generateReport reporters f));
      cbn [negb List.length totalReports successful failed];
      repeat split; lia.
Qed.

(** X18: [generateAllReports] counts one report per requested format:
    [successful + failed = totalReports], the number of formats, and
    [success] holds exactly when no report failed, that is when every
    format has a reporter whose report succeeded.  A format without a
    reporter counts as a failed report, so it makes the whole call
    unsuccessful, and an unsuccessful call has at least one failed
    report. *)
Theorem reports_are_counted (reporters : list reporter)
    (formats : list string) (generateSummary : bool) :
  let r := generateAllReports reporters formats generateSummary in
  let s := res_summary r in
  totalReports s = List.length formats
  /\ successful s + failed s = totalReports s
  /\ (success r = true <-> failed s = 0)
  /\ (success r = true
      <-> forall f, In f formats ->
                    rep_success (generateReport reporters f) = true)
  /\ (forall f, In f formats -> getReporter reporters f = None ->
                success r = false)
  /\ (success r = false -> 1 <= failed s).
Proof.
  cbv zeta. unfold generateAllReports.
  pose proof (record_reports_counts reporters formats
                ([], mkSummary (List.length formats) 0 0)) as H.
  cbv zeta in H.
  destruct (fold_left (record_report reporters) formats
              ([], mkSummary (List.length formats) 0 0)) as [reports s].
  cbn [snd totalReports successful failed res_summary success] in *.
  destruct H as [Ht [Hs Hf]].
  pose proof (ListFacts.filter_split_length
                (fun f => rep_success (generateReport reporters f)) formats)
    as Hsplit.
  cbv beta in Hsplit.
  assert (Hall : failed s = 0
                 <-> forall f, In f formats ->
                               rep_success (generateReport reporters f) = true).
  { rewrite Hf. cbn [Nat.add]. split.
    - intros Hzero f Hin.
      destruct (rep_success (generateReport reporters f)) eqn:Hok;
        [reflexivity |].
      assert (Hin' : In f (filter (fun f => negb (rep_success
                                     (generateReport reporters f))) formats)).
      { apply filter_In. now rewrite Hok. }
      apply length_zero_iff_nil in Hzero. rewrite Hzero in Hin'.
      destruct Hin'.
    - intros Hok.
      rewrite (ListFacts.filter_none _ formats); [reflexivity |].
      intros f Hin. now rewrite (Hok f Hin). }
  split; [exact Ht |]. split; [lia |].
  split; [apply Nat.eqb_eq |].
  split; [rewrite Nat.eqb_eq; exact Hall |].
  split.
  - intros f Hin Hnone. apply Nat.eqb_neq. intros Hzero.
    pose proof (proj1 Hall Hzero f Hin) as Hok.
    unfold generateReport in Hok. rewrite Hnone in Hok. discriminate Hok.
  - intros Hfalse. apply Nat.eqb_neq in Hfalse. lia.
Qed.

(** The theorem on the two reporters of the manager, asked for a PDF
    besides: the call is unsuccessful, with one failed report. *)
Lemma reports_are_counted_witness :
  success (generateAllReports builtin_reporters ["html"; "json"; "pdf"] true)
  = false.
Proof.
  apply (proj1 (proj2 (proj2 (proj2 (proj2
           (reports_are_counted builtin_reporters ["html"; "json"; "pdf"]
                                true))))) "pdf").
  - right. right. now left.
  - reflexivity.
Defined.

(** *** The statistics of the reporters *)

Lemma bump_total (counts : list (string * tally)) (k : string) :
  proper counts ->
  proper (bump counts k)
  /\ total (bump counts k) = total counts + (if inherited k then 0 else 1).
Proof.
  unfold proper.
  induction counts as [| [k' c] counts IH]; intros Hwf; cbn [bump].
  - destruct (inherited k) eqn:Hk.
    + destruct (String.eqb k "__proto__"); split; try reflexivity;
        repeat constructor. exact Hk.
    + split; [repeat constructor; exact Hk | reflexivity].
  - inversion Hwf as [| x l Hhead Htail]; subst. cbn [fst snd] in Hhead.
    destruct (String.eqb k' k) eqn:Heq.
    + apply String.eqb_eq in Heq. subst k'. destruct c as [n |].
      * rewrite Hhead. split; [now constructor |].
        cbn [total fold_right snd]. fold (total counts). lia.
      * rewrite Hhead. split; [now constructor |].
        cbn [total fold_right snd]. fold (total counts). lia.
    + destruct (IH Htail) as [Hwf' Htotal]. split; [now constructor |].
      cbn [total fold_right snd].
      fold (total (bump counts k)) (total counts). rewrite Htotal.
      destruct c; lia.
Qed.

Lemma hidden_split (key_of : ruleResult -> string) (vs : list ruleResult) :
  List.length (filter (fun v => negb (inherited (key_of v))) vs)
  + hidden key_of vs = List.length vs.
Proof.
  unfold hidden.
  pose proof (ListFacts.filter_split_length
                (fun v => inherited (key_of v)) vs) as H.
  cbv beta in H. lia.
Qed.

Lemma count_violations (violations : list ruleResult) :
  forall stats,
    proper (violationsByImpact stats) -> proper (violationsByRule stats) ->
    let stats' := fold_left count_violation violations stats in
    totalPages stats' = totalPages stats
    /\ totalViolations stats' = totalViolations stats
    /\ totalPasses stats' = totalPasses stats
    /\ totalIncomplete stats' = totalIncomplete stats
    /\ totalInapplicable stats' = totalInapplicable stats
    /\ pagesWithViolations stats' = pagesWithViolations stats
    /\ pagesWithoutViolations stats' = pagesWithoutViolations stats
    /\ proper (violationsByImpact stats')
    /\ proper (violationsByRule stats')
    /\ total (violationsByImpact stats') + hidden impact_of violations
       = total (violationsByImpact stats) + List.length violations
    /\ total (violationsByRule stats') + hidden rule_of violations
       = total (violationsByRule stats) + List.length violations.
Proof.
  induction violations as [| v violations IH]; intros stats Hi Hr;
    cbn [fold_left List.length].
  - unfold hidden. cbn [filter List.length]. repeat split; auto; lia.
  - destruct (bump_total (violationsByImpact stats) (impact_of v) Hi)
      as [Hi' Hti].
    destruct (bump_total (violationsByRule stats) (rule_of v) Hr)
      as [Hr' Htr].
    specialize (IH (count_violation stats v) Hi' Hr'). cbv zeta in IH.
    destruct IH as [H1 [H2 [H3 [H4 [H5 [H6 [H7 [H8 [H9 [H10 H11]]]]]]]]]].
    change (violationsByImpact (count_violation stats v))
      with (bump (violationsByImpact stats) (impact_of v)) in H10.
    change (violationsByRule (count_violation stats v))
      with (bump (violationsByRule stats) (rule_of v)) in H11.
    rewrite Hti in H10. rewrite Htr in H11.
    unfold hidden in *. cbn [filter].
    split; [exact H1 |]. split; [exact H2 |]. split; [exact H3 |].
    split; [exact H4 |]. split; [exact H5 |]. split; [exact H6 |].
    split; [exact H7 |]. split; [exact H8 |]. split; [exact H9 |]. split.
    + destruct (inherited (impact_of v)); cbn [List.length]; lia.
    + destruct (inherited (rule_of v)); cbn [List.length]; lia.
Qed.

Lemma count_pages (pages : list pageResult) :
  forall stats,
    proper (violationsByImpact stats) -> proper (violationsByRule stats) ->
    let stats' := fold_left count_page pages stats in
    totalPages stats' = totalPages stats
    /\ totalViolations stats'
       = totalViolations stats + entries p_violations pages
    /\ totalPasses stats' = totalPasses stats + entries p_passes pages
    /\ totalIncomplete stats'
       = totalIncomplete stats + entries p_incomplete pages
    /\ totalInapplicable stats'
       = totalInapplicable stats + entries p_inapplicable pages
    /\ pagesWithViolations stats' + pagesWithoutViolations stats'
       = pagesWithViolations stats + pagesWithoutViolations stats
         + List.length pages
    /\ total (violationsByImpact stats') + hidden impact_of (violations_of pages)
       = total (violationsByImpact stats) + entries p_violations pages
    /\ total (violationsByRule stats') + hidden rule_of (violations_of pages)
       = total (violationsByRule stats) + entries p_violations pages.
Proof.
  induction pages as [| p pages IH]; intros stats Hi Hr;
    cbn [fold_left List.length entries fold_right violations_of flat_map].
  - unfold hidden. cbn [filter List.length]. repeat split; lia.
  - fold (violations_of pages).
    remember (count_page stats p) as sp eqn:Hsp.
    unfold count_page in Hsp.
    match type of Hsp with
    | sp = fold_left count_violation ?vs ?st =>
        pose proof (count_violations vs st Hi Hr) as Hc
    end.
    cbv zeta in Hc. rewrite <- Hsp in Hc.
    cbn [totalPages totalViolations totalPasses totalIncomplete
         totalInapplicable pagesWithViolations pagesWithoutViolations
         violationsByImpact violationsByRule] in Hc.
    destruct Hc as [V1 [V2 [V3 [V4 [V5 [V6 [V7 [V8 [V9 [V10 V11]]]]]]]]]].
    specialize (IH sp V8 V9). cbv zeta in IH.
    destruct IH as [H1 [H2 [H3 [H4 [H5 [H6 [H7 H8]]]]]]].
    fold (entries p_violations pages) (entries p_passes pages)
         (entries p_incomplete pages) (entries p_inapplicable pages).
    unfold hidden in *. rewrite !filter_app, !length_app.
    destruct (0 <? List.length (or_empty (p_violations p)));
      repeat split; lia.
Qed.

Lemma stats_totals (axeResults : list pageResult) :
  let stats := calculateAxeStats axeResults in
  totalPages stats = List.length axeResults
  /\ pagesWithViolations stats + pagesWithoutViolations stats
     = totalPages stats
  /\ totalViolations stats = entries p_violations axeResults
  /\ totalPasses stats = entries p_passes axeResults
  /\ totalIncomplete stats = entries p_incomplete axeResults
  /\ totalInapplicable stats = entries p_inapplicable axeResults
  /\ total (violationsByImpact stats)
     + hidden impact_of (violations_of axeResults) = totalViolations stats
  /\ total (violationsByRule stats)
     + hidden rule_of (violations_of axeResults) = totalViolations stats.
Proof.
  cbv zeta. unfold calculateAxeStats.
  pose proof (count_pages axeResults
                (mkAxeStats (List.length axeResults) 0 0 0 0 [] [] 0 0)
                (Forall_nil _) (Forall_nil _)) as H.
  cbv zeta in H.
  cbn [totalPages totalViolations totalPasses totalIncomplete
       totalInapplicable pagesWithViolations pagesWithoutViolations
       violationsByImpact violationsByRule total fold_right] in H.
  destruct H as [H1 [H2 [H3 [H4 [H5 [H6 [H7 H8]]]]]]].
  repeat split; lia.
Qed.

(** X19: the statistics of the JSON report add up: every page is counted
    once, as a page with or as a page without violations, and the four
    totals are the numbers of entries of the four arrays of the pages (a
    missing array counting for none).  The violations are counted once
    by impact and once by rule, those apart whose impact, or rule id, is
    the name of a member of [Object.prototype] ([constructor],
    [toString], ...): such a name gets a string, not a count.  So the
    counts of [violationsByImpact] and those of [violationsByRule] sum to
    [totalViolations] less the violations so named, and to
    [totalViolations] when there is none. *)
Theorem axe_stats_add_up (axeResults : list pageResult) :
  let stats := calculateAxeStats axeResults in
  let violations := violations_of axeResults in
  totalPages stats = List.length axeResults
  /\ pagesWithViolations stats + pagesWithoutViolations stats
     = totalPages stats
  /\ totalViolations stats = List.length violations
  /\ totalViolations stats = entries p_violations axeResults
  /\ totalPasses stats = entries p_passes axeResults
  /\ totalIncomplete stats = entries p_incomplete axeResults
  /\ totalInapplicable stats = entries p_inapplicable axeResults
  /\ total (violationsByImpact stats) + hidden impact_of violations
     = totalViolations stats
  /\ total (violationsByRule stats) + hidden rule_of violations
     = totalViolations stats
  /\ (Forall (fun v => inherited (impact_of v) = false) violations ->
      total (violationsByImpact stats) = totalViolations stats)
  /\ (Forall (fun v => inherited (rule_of v) = false) violations ->
      total (violationsByRule stats) = totalViolations stats).
Proof.
  intros stats violations.
  destruct (stats_totals axeResults) as [H1 [H2 [H3 [H4 [H5 [H6 [H7 H8]]]]]]].
  fold stats violations in H1, H2, H3, H4, H5, H6, H7, H8.
  assert (Hlen : entries p_violations axeResults = List.length violations).
  { unfold violations, violations_of, entries. clear.
    induction axeResults as [| p pages IH]; [reflexivity |].
    cbn [fold_right flat_map]. rewrite length_app, IH. reflexivity. }
  assert (Hnone : forall key_of,
            Forall (fun v => inherited (key_of v) = false) violations ->
            hidden key_of violations = 0).
  { intros key_of Hall. unfold hidden.
    rewrite (ListFacts.filter_none (fun v => inherited (key_of v)) violations);
      [reflexivity |].
    intros v Hv. rewrite Forall_forall in Hall. now apply Hall. }
  repeat split; try assumption; try lia.
  - intros Hall. rewrite (Hnone impact_of Hall) in H7. lia.
  - intros Hall. rewrite (Hnone rule_of Hall) in H8. lia.
Qed.

(** The theorem on a page with three violations: the rule id
    [constructor] gets a string, the two other violations are counted. *)
Lemma axe_stats_add_up_witness :
  let stats := calculateAxeStats [named_after_a_member] in
  totalViolations stats = 3
  /\ violationsByRule stats
     = [("color-contrast", Count 2); ("constructor", Text)]
  /\ total (violationsByRule stats) = 2
  /\ total (violationsByImpact stats) = 3.
Proof.
  destruct (axe_stats_add_up [named_after_a_member])
    as [_ [_ [_ [_ [_ [_ [_ [_ [Hrule [Himpact _]]]]]]]]]].
  cbv zeta in Hrule, Himpact.
  split; [reflexivity |]. split; [reflexivity |]. split; [reflexivity |].
  apply Himpact. repeat constructor.
Defined.

Lemma aggregate_pages (pages : list pageResult) :
  forall acc,
    let acc' := fold_left aggregate_page pages acc in
    List.length (a_violations acc')
    = List.length (a_violations acc) + entries p_violations pages
    /\ List.length (a_passes acc')
       = List.length (a_passes acc) + entries p_passes pages
    /\ List.length (a_incomplete acc')
       = List.length (a_incomplete acc) + entries p_incomplete pages
    /\ List.length (a_inapplicable acc')
       = List.length (a_inapplicable acc) + entries p_inapplicable pages
    /\ (Forall (fun v => exists label, r_page v = Some label
                                       /\ truthy_string label = true)
               (a_violations acc) ->
        Forall (fun v => exists label, r_page v = Some label
                                       /\ truthy_string label = true)
               (a_violations acc')).
Proof.
  induction pages as [| p pages IH]; intros acc;
    cbn [fold_left entries fold_right].
  - repeat split; try lia. auto.
  - specialize (IH (aggregate_page acc p)). cbv zeta in IH.
    destruct IH as [H1 [H2 [H3 [H4 H5]]]].
    rewrite H1, H2, H3, H4.
    fold (entries p_violations pages) (entries p_passes pages)
         (entries p_incomplete pages) (entries p_inapplicable pages).
    unfold aggregate_page in *.
    cbn [a_violations a_passes a_incomplete a_inapplicable] in *.
    rewrite !length_app.
    split; [| split; [| split; [| split]]]; try lia.
    + destruct (p_violations p) as [vs |]; cbn [or_empty List.length];
        rewrite ?length_app, ?length_map; lia.
    + intros Hacc. apply H5.
      destruct (p_violations p) as [vs |]; [| exact Hacc].
      apply Forall_app. split; [exact Hacc |].
      apply Forall_forall. intros v Hv. apply in_map_iff in Hv.
      destruct Hv as [v0 [<- _]]. cbn [r_page].
      eexists. split; [reflexivity |].
      unfold page_label, or_else.
      destruct (p_url p) as [u |]; [destruct (truthy_string u) eqn:Hu |];
        try exact Hu;
        destruct (p_pageName p) as [n |];
        try destruct (truthy_string n) eqn:Hn; auto.
Qed.

(** X20: the HTML report and the JSON report agree: the four arrays
    [prepareAxeResults] hands to the HTML report have as many entries as
    the four totals of [calculateAxeStats] say, and every violation of
    the HTML report carries the label of its page, which is never empty
    ([Unknown Page] for a page without [url] and [pageName]).  Without
    [axeResults] the HTML report gets four empty arrays. *)
Theorem html_and_json_agree (axeResults : list pageResult) :
  let a := prepareAxeResults (Some axeResults) in
  let stats := calculateAxeStats axeResults in
  List.length (a_violations a) = totalViolations stats
  /\ List.length (a_passes a) = totalPasses stats
  /\ List.length (a_incomplete a) = totalIncomplete stats
  /\ List.length (a_inapplicable a) = totalInapplicable stats
  /\ Forall (fun v => exists label, r_page v = Some label
                                    /\ truthy_string label = true)
            (a_violations a)
  /\ prepareAxeResults None = mkAggregated [] [] [] [].
Proof.
  cbv zeta.
  destruct (stats_totals axeResults) as [_ [_ [S1 [S2 [S3 [S4 _]]]]]].
  rewrite S1, S2, S3, S4. unfold prepareAxeResults.
  destruct axeResults as [| p pages]; [cbn; repeat split; constructor |].
  cbn [List.length Nat.eqb].
  pose proof (aggregate_pages (p :: pages) (mkAggregated [] [] [] [])) as H.
  cbv zeta in H. cbn [a_violations a_passes a_incomplete a_inapplicable
                      List.length Nat.add] in H.
  destruct H as [H1 [H2 [H3 [H4 H5]]]].
  repeat split; auto.
Qed.

End ReportFacts.


(** ** The summary of the zoom check *)
Module ZoomSummaryFacts.
Import JS.
Import ZoomChecker.
Import ZoomProps.
Import ZoomSummaryProps.

Ltac scripted :=
  match goal with
  | |- context [match ?l with [] => _ | _ :: _ => _ end] =>
      is_var l; destruct l as [| [?msg |] ?]
  end;
  cbn [faults next_call set_zoom style_zoom metrics_at offScreenCount_at
       brokenElements_at calls tl fst snd].

(** X21: the support flags of the recommendation are consistent:
    [meetsWCAG] is [supports200Percent], which implies
    [supports150Percent], which implies [supports125Percent]; and when no
    test is clean the recommendation is [maxSupportedZoom = 1.0] with
    every flag off, as it is when only the test at 100% is clean. *)
Theorem zoom_support_flags (tests : list zoomTest) :
  let r := calculateRecommendedZoom tests in
  meetsWCAG r = supports200Percent r
  /\ (supports200Percent r = true -> supports150Percent r = true)
  /\ (supports150Percent r = true -> supports125Percent r = true)
  /\ (filter clean tests = [] ->
      r = mkRecommendation 1 false false false false)
  /\ (forall t, filter clean tests = [t] -> (zoomLevel t == 1)%Q ->
      supports125Percent r = false /\ meetsWCAG r = false).
Proof.
  cbv zeta. unfold calculateRecommendedZoom.
  cbn [meetsWCAG supports200Percent supports150Percent supports125Percent].
  split; [reflexivity |].
  split.
  { rewrite !Qle_bool_iff. intros H. eapply Qle_trans; [| exact H].
    unfold Qle. cbn. lia. }
  split.
  { rewrite !Qle_bool_iff. intros H. eapply Qle_trans; [| exact H].
    unfold Qle. cbn. lia. }
  split.
  { intros Hnone. rewrite Hnone. reflexivity. }
  intros t Hone Hlevel. rewrite Hone. cbn [map max_of fold_left].
  assert (Hlow : forall c, (1 < c)%Q -> Qle_bool c (zoomLevel t) = false).
  { intros c Hc. destruct (Qle_bool c (zoomLevel t)) eqn:Hle; [| reflexivity].
    apply Qle_bool_iff in Hle. rewrite Hlevel in Hle.
    exfalso. exact (Qlt_not_le _ _ Hc Hle). }
  split; apply Hlow; reflexivity.
Qed.

(** The theorem on a run without a test: nothing is supported. *)
Lemma zoom_support_flags_witness :
  calculateRecommendedZoom [] = mkRecommendation 1 false false false false.
Proof.
  exact (proj1 (proj2 (proj2 (proj2 (zoom_support_flags []))))
           eq_refl).
Defined.

(** What the loop of [executeCheck] adds to the three arrays. *)
Lemma zoom_loop_arrays (o : options) (levels : list Q) :
  forall (acc : results) (p : page),
    let r := fst (zoom_loop o levels acc p) in
    exists new,
      zoomTests r = zoomTests acc ++ new
      /\ map zoomLevel new = filter (fun z => Qle_bool z (maxZoom o)) levels
      /\ layoutIssues r
         = layoutIssues acc
           ++ map layout_issue
                (filter (fun t => checkLayout o && layoutBroken t) new)
      /\ overflowIssues r
         = overflowIssues acc
           ++ map overflow_issue
                (filter (fun t => checkOverflow o && overflow t) new).
Proof.
  induction levels as [| z levels IH]; intros acc p; cbn [zoom_loop filter].
  - exists []. cbn. now rewrite !app_nil_r.
  - destruct (Qle_bool z (maxZoom o)) eqn:Hz; cbn [negb]; [| apply IH].
    pose proof (ZoomFacts.testZoomLevel_spec p z) as Ht.
    destruct (testZoomLevel p z) as [t p1]. cbn [fst snd] in Ht.
    destruct Ht as [Hlevel _].
    match goal with
    | |- context [zoom_loop o levels ?a p1] =>
        specialize (IH a p1);
          cbn [zoomTests layoutIssues overflowIssues] in IH
    end.
    destruct IH as [new [Htests [Hlevels [Hlayout Hover]]]].
    exists (t :: new). rewrite Htests, Hlayout, Hover.
    clear Htests Hlayout Hover.
    cbn [map filter]. rewrite Hlevels, <- Hlevel.
    destruct (checkLayout o && layoutBroken t),
      (checkOverflow o && overflow t);
      cbn [app map]; rewrite <- ?app_assoc; repeat split; reflexivity.
Qed.

(** X22: [executeCheck] runs one test per zoom level within [maxZoom], in
    the order of [zoomLevels], and its summary counts them: [totalTests]
    is the number of those levels, [layoutIssues] and [overflowIssues]
    hold an entry for each test flagged as broken, as overflowing, when
    the corresponding option is on and none when it is off, so neither
    count exceeds [totalTests]; [maxZoomTested] is the highest level
    tested.  On a page that never throws every test succeeds and the
    zoom is left reset after a run with a test. *)
Theorem zoom_summary_counts (p : page) (o : options) :
  let r := fst (executeCheck p o) in
  let p' := snd (executeCheck p o) in
  exists s,
    res_summary r = Some s
    /\ map zoomLevel (zoomTests r) = tested o
    /\ totalTests s = List.length (tested o)
    /\ layoutIssues r
       = map layout_issue
           (filter (fun t => checkLayout o && layoutBroken t) (zoomTests r))
    /\ overflowIssues r
       = map overflow_issue
           (filter (fun t => checkOverflow o && overflow t) (zoomTests r))
    /\ layoutIssuesCount s = List.length (layoutIssues r)
    /\ overflowIssuesCount s = List.length (overflowIssues r)
    /\ layoutIssuesCount s <= totalTests s
    /\ overflowIssuesCount s <= totalTests s
    /\ (maxZoomTested s = None <-> tested o = [])
    /\ (forall m, maxZoomTested s = Some m ->
          In m (tested o) /\ forall z, In z (tested o) -> (z <= m)%Q)
    /\ (faults p = [] ->
          Forall (fun t => success t = true) (zoomTests r)
          /\ (tested o <> [] -> style_zoom p' = None)).
Proof.
  cbv zeta. unfold executeCheck.
  pose proof (zoom_loop_arrays o (zoomLevels o) (mkResults [] [] [] None) p)
    as Harr.
  pose proof (ZoomFacts.zoom_loop_spec o (zoomLevels o)
                (mkResults [] [] [] None) p) as Hspec.
  cbv zeta in Harr, Hspec.
  assert (Hreset : forall levels acc q,
            faults q = [] ->
            filter (fun z => Qle_bool z (maxZoom o)) levels <> [] ->
            style_zoom (snd (zoom_loop o levels acc q)) = None).
  { induction levels as [| z levels IH]; intros acc q Hq Hne;
      cbn [zoom_loop filter] in *; [congruence |].
    destruct (Qle_bool z (maxZoom o)) eqn:Hz; cbn [negb]; [| now apply IH].
    pose proof (ZoomFacts.testZoomLevel_spec q z) as Ht.
    destruct (testZoomLevel q z) as [t q1]. cbn [fst snd] in Ht.
    destruct Ht as [_ [_ [Hf _]]]. destruct (Hf Hq) as [Hq1 [_ Hzoom]].
    destruct (filter (fun z0 => Qle_bool z0 (maxZoom o)) levels) eqn:Hrest.
    - clear IH.
      assert (Hsame : forall a q0,
                zoom_loop o levels a q0
                = (a, q0)).
      { clear - Hrest. induction levels as [| y ys IHy]; intros a q0;
          cbn [zoom_loop filter] in *; [reflexivity |].
        destruct (Qle_bool y (maxZoom o)); [discriminate Hrest |].
        cbn [negb]. now apply IHy. }
      rewrite Hsame. exact Hzoom.
    - apply IH; [exact Hq1 | discriminate]. }
  specialize (Hreset (zoomLevels o) (mkResults [] [] [] None) p).
  destruct (zoom_loop o (zoomLevels o) (mkResults [] [] [] None) p)
    as [r0 p0].
  cbn [fst snd zoomTests layoutIssues overflowIssues res_summary app] in *.
  destruct Harr as [new [Htests [Hlevels [Hlayout Hover]]]].
  destruct Hspec as [_ [new' [Htests' [_ [_ Hfaults]]]]].
  assert (new' = new) by congruence. subst new'.
  fold (tested o) in Hlevels |- *.
  eexists. split; [reflexivity |].
  cbn [totalTests layoutIssuesCount overflowIssuesCount maxZoomTested].
  rewrite Htests, Hlayout, Hover, Hlevels.
  assert (Hlen : List.length new = List.length (tested o))
    by (rewrite <- Hlevels; now rewrite length_map).
  split; [reflexivity |]. split; [exact Hlen |].
  split; [reflexivity |]. split; [reflexivity |].
  split; [reflexivity |]. split; [reflexivity |].
  split.
  { rewrite length_map. apply filter_length_le. }
  split.
  { rewrite length_map. apply filter_length_le. }
  split.
  { destruct (tested o); split; congruence. }
  split.
  { intros m Hm. destruct (tested o) as [| z zs]; [discriminate Hm |].
    injection Hm as <-. apply ZoomFacts.max_of_spec. }
  intros Hp. destruct (Hfaults Hp) as [_ Hall].
  split; [now rewrite <- Htests |]. intros Hne. apply Hreset; assumption.
Qed.

(** The theorem on [breaking_page] with the default options: four tests,
    three of them reported as layout issues, the zoom reset. *)
Lemma zoom_summary_counts_witness :
  style_zoom (snd (executeCheck breaking_page default_options)) = None.
Proof.
  destruct (zoom_summary_counts breaking_page default_options)
    as [s [_ [_ [_ [_ [_ [_ [_ [_ [_ [_ [_ Hrun]]]]]]]]]]]].
  apply (proj2 (Hrun eq_refl)). discriminate.
Defined.

(** The two shapes of a zoom test: it failed, or it ran and holds the
    measurements taken at its zoom level. *)
Lemma testZoomLevel_shape (p : page) (z : Q) :
  let t := fst (testZoomLevel p z) in
  let mz := metrics_at p (Some z) in
  let over :=
    ((bodyScrollWidth mz >? windowInnerWidth mz + 10)
     || (bodyScrollHeight mz >? windowInnerHeight mz + 10))%Z in
  (exists msg, t = mkZoomTest z false (Some msg) None false None false None)
  \/ (exists broken details,
        t = mkZoomTest z true None
              (Some (mkLayoutData mz
                       (bodyScrollWidth mz >? windowInnerWidth mz)%Z
                       (bodyScrollHeight mz >? windowInnerHeight mz)%Z))
              over
              (if over
               then Some (Z.max 0 (bodyScrollWidth mz - windowInnerWidth mz),
                          Z.max 0 (bodyScrollHeight mz - windowInnerHeight mz))%Z
               else None)
              broken details
        /\ (broken = true -> 5 < offScreenCount_at p (Some z))
        /\ (broken = true ->
            exists d, details = Some d
                      /\ forall l, d = Return l -> List.length l <= 10)
        /\ (broken = false -> details = None)).
Proof.
  destruct p as [sz f m o b c].
  unfold testZoomLevel, testZoomLevel_catch, checkLayoutBreakage,
    getLayoutBreakageDetails, evaluate, measure_script.
  cbn [faults next_call set_zoom style_zoom metrics_at offScreenCount_at
       brokenElements_at calls tl fst snd].
  assert (Hten : forall l : list string, List.length (firstn 10 l) <= 10)
    by (intros l; apply firstn_le_length).
  repeat scripted;
    try (destruct (5 <? o (Some z)) eqn:Hoff; repeat scripted);
    cbn [fst snd measured];
    first
      [ left; eexists; reflexivity
      | right; do 2 eexists; split; [reflexivity |];
        split; [first [intros _; now apply Nat.ltb_lt | discriminate] |];
        split;
        [ first [ discriminate
                | intros _; eexists; split; [reflexivity |];
                  intros l Hl; first [discriminate Hl
                                     | injection Hl as <-; apply Hten] ]
        | first [reflexivity | discriminate] ] ].
Qed.

(** X23: a test carries [overflowData] exactly when it is flagged as
    overflowing; the two excesses are then never negative and one of them
    is more than 10 pixels.  It carries [layoutBreakageData] exactly when
    it is flagged as broken, which takes more than five elements off
    screen, and the details list ten elements at most. *)
Theorem zoom_test_details (p : page) (z : Q) :
  let t := fst (testZoomLevel p z) in
  (overflow t = true <-> overflowData t <> None)
  /\ (forall w h,
        overflowData t = Some (w, h) ->
        (0 <= w /\ 0 <= h /\ (10 < w \/ 10 < h))%Z
        /\ exists d,
             zt_layoutData t = Some d
             /\ w = Z.max 0 (bodyScrollWidth (measured d)
                             - windowInnerWidth (measured d))
             /\ h = Z.max 0 (bodyScrollHeight (measured d)
                             - windowInnerHeight (measured d)))
  /\ (layoutBroken t = true <-> layoutBreakageData t <> None)
  /\ (layoutBroken t = true -> 5 < offScreenCount_at p (Some z))
  /\ (forall l, layoutBreakageData t = Some (Return l) ->
                List.length l <= 10).
Proof.
  cbv zeta.
  destruct (testZoomLevel_shape p z)
    as [[msg ->] | [broken [details [-> [Hoff [Hsome Hnone]]]]]];
    cbn [overflow overflowData layoutBroken layoutBreakageData zt_layoutData
         measured].
  - split; [split; [discriminate | intros H; now destruct H] |].
    split; [discriminate |].
    split; [split; [discriminate | intros H; now destruct H] |].
    split; discriminate.
  - set (mz := metrics_at p (Some z)) in *.
    destruct ((bodyScrollWidth mz >? windowInnerWidth mz + 10)
              || (bodyScrollHeight mz >? windowInnerHeight mz + 10))%Z
      eqn:Ho.
    + split; [split; [discriminate | reflexivity] |].
      split.
      { intros w h Heq. injection Heq as <- <-.
        apply orb_true_iff in Ho. rewrite !Z.gtb_gt in Ho.
        split; [lia |]. eexists. repeat split. }
      split; [| split; [exact Hoff |]].
      * destruct broken.
        -- destruct (Hsome eq_refl) as [d [-> _]].
           split; [discriminate | reflexivity].
        -- rewrite (Hnone eq_refl).
           split; [discriminate | intros H; now destruct H].
      * intros l Hl. destruct broken;
          [| rewrite (Hnone eq_refl) in Hl; discriminate Hl].
        destruct (Hsome eq_refl) as [d [Hd Hlen]]. rewrite Hd in Hl.
        injection Hl as ->. now apply Hlen.
    + split; [split; [discriminate | intros H; now destruct H] |].
      split; [discriminate |].
      split; [| split; [exact Hoff |]].
      * destruct broken.
        -- destruct (Hsome eq_refl) as [d [-> _]].
           split; [discriminate | reflexivity].
        -- rewrite (Hnone eq_refl).
           split; [discriminate | intros H; now destruct H].
      * intros l Hl. destruct broken;
          [| rewrite (Hnone eq_refl) in Hl; discriminate Hl].
        destruct (Hsome eq_refl) as [d [Hd Hlen]]. rewrite Hd in Hl.
        injection Hl as ->. now apply Hlen.
Qed.

(** The theorem on [overflowing_page] at 200%: the content is 581 pixels
    wider than the window. *)
Lemma zoom_test_details_witness :
  overflowData (fst (testZoomLevel overflowing_page 2)) = Some (581, 0)%Z
  /\ (10 < 581)%Z.
Proof.
  split; [reflexivity |].
  destruct (proj1 (proj1 (proj2 (zoom_test_details overflowing_page 2))
                     581%Z 0%Z eq_refl))
    as [_ [_ [H | H]]]; [exact H | discriminate H].
Defined.

End ZoomSummaryFacts.

(** ** The suite over several runs *)
Module SuiteFacts.
Import JS.
Import TestEngine.
Import EngineProps.
Import SuiteProps.

Section Growth.
Variable Data : Type.
Variable cfg : config Data.
Variable app : application.

Lemma grows_refl (t : testResults Data) : grows t t.
Proof. split; try (exists []; now rewrite app_nil_r). reflexivity. Qed.

Lemma grows_trans (t t' t'' : testResults Data) :
  grows t t' -> grows t' t'' -> grows t t''.
Proof.
  intros [[a Ha] [x Hx] [e He] [w Hw] Hs] [[a' Ha'] [x' Hx'] [e' He'] [w' Hw'] Hs'].
  split.
  - exists (a ++ a'). now rewrite Ha', Ha, app_assoc.
  - exists (x ++ x'). now rewrite Hx', Hx, app_assoc.
  - exists (e ++ e'). now rewrite He', He, app_assoc.
  - exists (w ++ w'). now rewrite Hw', Hw, app_assoc.
  - congruence.
Qed.

Lemma logError_grows (ph msg : string) (page sel : option string)
    (t : testResults Data) :
  grows t (logError app ph msg page sel t).
Proof.
  split; cbn; try (exists []; now rewrite app_nil_r);
    [eexists; reflexivity | reflexivity].
Qed.

Lemma push_warning_grows (w : warningRecord) (t : testResults Data) :
  grows t (push_warning w t).
Proof.
  split; cbn; try (exists []; now rewrite app_nil_r);
    [eexists; reflexivity | reflexivity].
Qed.

Lemma advance_page_grows (p : pageConfig) (pc : pagePc)
    (t : testResults Data) :
  grows t (snd (advance_page cfg app p pc t)).
Proof.
  destruct pc; cbn [advance_page].
  - destruct (navigate p (visit app p)); cbn [snd]; [apply grows_refl |].
    destruct (emergencyScreenshot (visit app p));
      [apply push_warning_grows | apply grows_refl].
  - apply logError_grows.
  - apply logError_grows.
  - destruct (Scanner.runAxeScan _ _ _ _); cbn [snd];
      [| apply logError_grows].
    split; cbn; try (exists []; now rewrite app_nil_r);
      [eexists; reflexivity | reflexivity].
  - split; cbn; try (exists []; now rewrite app_nil_r);
      [eexists; reflexivity | reflexivity].
  - apply grows_refl.
  - apply grows_refl.
Qed.

Lemma advance_at_grows (i : nat) :
  forall pages ps (t : testResults Data),
    grows t (snd (advance_at cfg app i pages ps t)).
Proof.
  induction i as [| i IH]; intros pages ps t;
    destruct pages as [| p pages], ps as [| pc ps]; cbn [advance_at snd];
    try apply grows_refl.
  - pose proof (advance_page_grows p pc t) as H.
    destruct (advance_page cfg app p pc t). exact H.
  - specialize (IH pages ps t).
    destruct (advance_at cfg app i pages ps t). exact IH.
Qed.

Lemma advance_grows (s : scanState Data) (i : nat) :
  grows (shared s) (shared (advance cfg app s i)).
Proof.
  unfold advance.
  pose proof (advance_at_grows i (pagesToScan cfg) (pcs s) (shared s)) as H.
  destruct (advance_at cfg app i (pagesToScan cfg) (pcs s) (shared s)).
  exact H.
Qed.

Lemma advances_grow (l : list nat) :
  forall s : scanState Data,
    grows (shared s) (shared (fold_left (advance cfg app) l s)).
Proof.
  induction l as [| i l IH]; intros s; cbn [fold_left]; [apply grows_refl |].
  eapply grows_trans; [apply advance_grows | apply IH].
Qed.

Lemma run_to_end_grows (s : scanState Data) (i : nat) :
  grows (shared s) (shared (run_to_end cfg app s i)).
Proof. apply advances_grow. Qed.

Lemma runs_grow (l : list nat) :
  forall s : scanState Data,
    grows (shared s) (shared (fold_left (run_to_end cfg app) l s)).
Proof.
  induction l as [| i l IH]; intros s; cbn [fold_left]; [apply grows_refl |].
  eapply grows_trans; [apply run_to_end_grows | apply IH].
Qed.

Lemma scanningPhase_grows (o : options) (t : testResults Data) :
  grows t (snd (scanningPhase cfg app o t)).
Proof.
  unfold scanningPhase.
  destruct (List.length (pagesToScan cfg) =? 0).
  { cbn [snd]. apply logError_grows. }
  destruct (getMainWindow app); [| cbn [snd]; apply logError_grows].
  match goal with
  | |- context [if ?c =? 1 then _ else _] => destruct (c =? 1)
  end.
  - destruct (EngineFacts.sequential_prefix Data cfg app (continueOnError o)
                (List.length (pagesToScan cfg)) 0 (start_scan cfg t))
      as [k [_ Hk]].
    destruct (sequential cfg app (continueOnError o) 0
                (List.length (pagesToScan cfg)) (start_scan cfg t))
      as [[[] | e] s]; cbn [snd] in *; subst s.
    + apply (runs_grow (seq 0 k) (start_scan cfg t)).
    + eapply grows_trans;
        [apply (runs_grow (seq 0 k) (start_scan cfg t))
        | apply logError_grows].
  - cbn [snd]. unfold concurrent.
    eapply grows_trans;
      [apply (advances_grow (schedule o) (start_scan cfg t)) | apply runs_grow].
Qed.

Lemma setupPhase_grows (t : testResults Data) :
  grows t (snd (setupPhase cfg app t)).
Proof.
  unfold setupPhase.
  destruct (validateConfiguration cfg); cbn [negb];
    [| cbn [snd]; apply logError_grows].
  destruct (launchApp app); cbn [snd];
    [apply grows_refl | apply logError_grows].
Qed.

Lemma reportingPhase_grows (t : testResults Data) :
  grows t (reportingPhase app t).
Proof.
  unfold reportingPhase.
  destruct (generateAllReports app) as [rr | e]; [| apply logError_grows].
  destruct (rr_success rr); [| apply push_warning_grows].
  split; cbn; try (exists []; now rewrite app_nil_r). reflexivity.
Qed.

Lemma cleanupPhase_grows (t : testResults Data) :
  grows t (cleanupPhase app t).
Proof.
  unfold cleanupPhase.
  destruct (closeApp app); [apply grows_refl | apply logError_grows].
Qed.

(** A run extends the results the engine holds. *)
Lemma runTestSuite_grows (o : options) (e : engine Data) :
  isRunning e = false ->
  exists r,
    runTestSuite cfg app o e = (Return r, mkEngine r false)
    /\ grows (testResults_of e) r
    /\ (errors (testResults_of e) <> [] -> success r = Some false).
Proof.
  intros Hidle. unfold runTestSuite. rewrite Hidle.
  set (t1 := mkTestResults (Some (now app)) (axeResults (testResults_of e))
               (extraResults (testResults_of e))
               (screenshots (testResults_of e)) (errors (testResults_of e))
               (warnings (testResults_of e)) (duration (testResults_of e))
               (success (testResults_of e)) (reports (testResults_of e))).
  assert (H1 : grows (testResults_of e) t1).
  { split; cbn; try (exists []; now rewrite app_nil_r). reflexivity. }
  assert (Hphases : forall x,
            x = (match setupPhase cfg app t1 with
                 | (Throw err, t) => (Throw err, t)
                 | (Return _, t) =>
                     match scanningPhase cfg app o t with
                     | (Throw err, t') => (Throw err, t')
                     | (Return _, t') =>
                         (Return tt, cleanupPhase app (reportingPhase app t'))
                     end
                 end : outcome unit string * testResults Data) ->
            grows (testResults_of e) (snd x)).
  { intros x ->.
    pose proof (setupPhase_grows t1) as Hs.
    destruct (setupPhase cfg app t1) as [[[] | err] t]; cbn [snd] in *;
      [| eapply grows_trans; eassumption].
    pose proof (scanningPhase_grows o t) as Hc.
    destruct (scanningPhase cfg app o t) as [[[] | err] t']; cbn [snd] in *.
    - eapply grows_trans; [exact H1 |].
      eapply grows_trans; [exact Hs |].
      eapply grows_trans; [exact Hc |].
      eapply grows_trans; [apply reportingPhase_grows |].
      apply cleanupPhase_grows.
    - eapply grows_trans; [exact H1 |].
      eapply grows_trans; eassumption. }
  match goal with
  | |- context [let (phases, t2) := ?x in _] =>
      specialize (Hphases x eq_refl); destruct x as [[[] | err] t2]
  end; cbn [snd] in Hphases.
  - eexists. split; [reflexivity |]. split.
    + destruct Hphases as [Ha Hx He Hw Hs].
      split; cbn; assumption.
    + intros Hne. cbn [finish success]. f_equal.
      destruct Hphases as [_ _ [l He] _ _]. rewrite He.
      destruct (errors (testResults_of e)); [congruence | reflexivity].
  - eexists. split; [reflexivity |]. split; [| reflexivity].
    destruct Hphases as [Ha Hx [l He] Hw Hs].
    split; cbn; try assumption.
    exists (l ++ [mkError "unknown" err (now app) None None]).
    now rewrite He, app_assoc.
Qed.

End Growth.

(** X24: a setup that fails (the configuration is invalid or the
    application cannot be launched; nothing else in it throws) ends the
    run before any page is visited: the result has the lists of
    scan and extra results the engine held before, no report, two new
    error records for the one failure, logged by [setupPhase] with the
    phase [setup] and by [runTestSuite] with the phase [unknown], and
    [success = false]. *)
Theorem setup_failure_ends_the_run {Data : Type} (cfg : config Data)
    (app : application) (o : options) (e : engine Data) (message : string) :
  isRunning e = false ->
  setup_fails cfg app message ->
  exists r,
    runTestSuite cfg app o e = (Return r, mkEngine r false)
    /\ axeResults r = axeResults (testResults_of e)
    /\ extraResults r = extraResults (testResults_of e)
    /\ warnings r = warnings (testResults_of e)
    /\ reports r = reports (testResults_of e)
    /\ errors r
       = errors (testResults_of e)
         ++ [mkError "setup" message (now app) None None;
             mkError "unknown" message (now app) None None]
    /\ success r = Some false.
Proof.
  intros Hidle Hfail. unfold runTestSuite, setupPhase. rewrite Hidle.
  destruct Hfail as [[Hv ->] | [Hv Hl]];
    rewrite Hv; cbn [negb]; rewrite ?Hl;
    eexists; (split; [reflexivity |]);
    cbn; rewrite <- app_assoc; repeat split.
Qed.

(** The theorem on an application that cannot be launched. *)
Lemma setup_failure_ends_the_run_witness :
  exists r,
    fst (runTestSuite two_pages unlaunchable default_options new_engine)
    = Return r
    /\ map phase (errors r) = ["setup"; "unknown"]
    /\ axeResults r = [].
Proof.
  destruct (setup_failure_ends_the_run two_pages unlaunchable default_options
              new_engine "Executable not found: app.exe" eq_refl)
    as [r [Hr [Ha [_ [_ [_ [He _]]]]]]].
  - right. repeat split.
  - exists r. rewrite Hr, He, Ha. repeat split.
Defined.

(** X25: the engine never resets its results.  A second run on the same
    engine starts from the lists of the first: the scan results, extra
    results, errors and warnings of the first run are a prefix of those of
    the second, and once a run has logged an error every later run on
    that engine reports [success = false], whatever happens in it. *)
Theorem results_accumulate_over_runs {Data : Type}
    (cfg1 cfg2 : config Data) (app1 app2 : application) (o1 o2 : options)
    (e0 e1 : engine Data) (r1 : testResults Data) :
  runTestSuite cfg1 app1 o1 e0 = (Return r1, e1) ->
  exists r2,
    runTestSuite cfg2 app2 o2 e1 = (Return r2, mkEngine r2 false)
    /\ grows r1 r2
    /\ List.length (axeResults r1) <= List.length (axeResults r2)
    /\ (errors r1 <> [] -> success r2 = Some false).
Proof.
  intros Hfirst.
  assert (He1 : e1 = mkEngine r1 false).
  { unfold runTestSuite in Hfirst.
    destruct (isRunning e0); [discriminate Hfirst |].
    match type of Hfirst with
    | (let (phases, t2) := ?x in _) = _ => destruct x as [[[] | err] t2]
    end; injection Hfirst as <- <-; reflexivity. }
  subst e1.
  destruct (runTestSuite_grows Data cfg2 app2 o2 (mkEngine r1 false) eq_refl)
    as [r2 [Hr2 [Hgrows Herr]]].
  exists r2. cbn [testResults_of] in *.
  split; [exact Hr2 |]. split; [exact Hgrows |]. split; [| exact Herr].
  destruct Hgrows as [[l Hl] _ _ _ _]. rewrite Hl, length_app. lia.
Qed.

(** The theorem on two runs over "Home" and "Settings": the second run
    holds the results of the first, and is unsuccessful. *)
Lemma results_accumulate_over_runs_witness :
  exists r2,
    fst (runTestSuite two_pages working_app default_options
           (snd (runTestSuite two_pages settings_unreachable default_options
                              new_engine)))
    = Return r2
    /\ success r2 = Some false.
Proof.
  destruct (results_accumulate_over_runs two_pages two_pages
              settings_unreachable working_app default_options
              default_options new_engine _ _ eq_refl)
    as [r2 [Hr2 [_ [_ Herr]]]].
  exists r2. split.
  - exact (f_equal fst Hr2).
  - apply Herr. intros H. vm_compute in H. discriminate H.
Defined.

(** X26: in a sequential scan with [continueOnError = false] the first
    page that fails ends the scan: when the navigation to the first page
    throws, no page is scanned, no report is generated, and the one
    failure is logged four times, with the phases [page_processing],
    [page_scan], [scanning] and [unknown].  A concurrent scan does not
    read [continueOnError]: it always goes on to the other pages. *)
Theorem first_failure_stops_a_sequential_scan {Data : Type}
    (cfg : config Data) (app : application) (A : pageConfig)
    (rest : list pageConfig) (message : string) (order : list nat) :
  (validateConfiguration cfg = true ->
   pagesToScan cfg = A :: rest ->
   launchApp app = Return tt ->
   getMainWindow app = Return tt ->
   navigate A (visit app A) = Throw message ->
   exists r,
     fst (runTestSuite cfg app (mkOptions (Some 1) false order) new_engine)
     = Return r
     /\ axeResults r = []
     /\ extraResults r = []
     /\ reports r = None
     /\ map phase (errors r)
        = ["page_processing"; "page_scan"; "scanning"; "unknown"]
     /\ Forall (fun err => TestEngine.message err = message) (errors r)
     /\ success r = Some false)
  /\ (forall c e,
        c <> 1 ->
        runTestSuite cfg app (mkOptions (Some c) false order) e
        = runTestSuite cfg app (mkOptions (Some c) true order) e).
Proof.
  split.
  - intros Hvalid Hpages Hlaunch Hwindow Hnav.
    unfold runTestSuite, new_engine, setupPhase.
    rewrite Hvalid, Hlaunch.
    cbn [isRunning testResults_of timestamp axeResults extraResults
         screenshots errors warnings duration success reports negb and_then].
    unfold scanningPhase. rewrite Hpages, Hwindow.
    cbn [List.length Nat.eqb concurrency continueOnError sequential].
    unfold run_to_end, start_scan. rewrite Hpages.
    cbn [map fold_left]. unfold advance. rewrite Hpages.
    cbn [pcs shared advance_at advance_page]. rewrite Hnav.
    destruct (emergencyScreenshot (visit app A));
      cbn [pcs shared advance_at advance_page nth_error];
      eexists; (split; [reflexivity |]); cbn;
      repeat split; repeat constructor.
  - intros c e Hc. unfold runTestSuite, scanningPhase.
    cbn [concurrency continueOnError schedule].
    apply Nat.eqb_neq in Hc. rewrite Hc. reflexivity.
Qed.

(** The theorem on the run over "Settings" first: the scan stops at
    once. *)
Lemma first_failure_stops_a_sequential_scan_witness :
  exists r,
    fst (runTestSuite settings_first settings_unreachable
                      (mkOptions (Some 1) false []) new_engine)
    = Return r
    /\ axeResults r = []
    /\ map phase (errors r)
       = ["page_processing"; "page_scan"; "scanning"; "unknown"].
Proof.
  destruct (proj1 (first_failure_stops_a_sequential_scan
                     settings_first settings_unreachable
                     (mkPageConfig "Settings" "button.settings" true)
                     [mkPageConfig "Home" "a[href='#/main']" true]
                     "locator.waitFor: Timeout 60000ms exceeded" [])
              eq_refl eq_refl eq_refl eq_refl eq_refl)
    as [r [Hr [Ha [_ [_ [He _]]]]]].
  exists r. repeat split; assumption.
Defined.

Section Reports.
Variable Data : Type.
Variable cfg : config Data.
Variable app : application.
Variable r : outcome reportResults string.

Lemma advance_at_reports (i : nat) :
  forall pages ps (t : testResults Data),
    advance_at cfg (with_reports app r) i pages ps t
    = advance_at cfg app i pages ps t.
Proof.
  induction i as [| i IH]; intros pages ps t;
    destruct pages as [| p pages], ps as [| pc ps]; cbn [advance_at];
    try reflexivity.
  now rewrite IH.
Qed.

Lemma advances_reports (l : list nat) :
  forall s : scanState Data,
    fold_left (advance cfg (with_reports app r)) l s
    = fold_left (advance cfg app) l s.
Proof.
  induction l as [| i l IH]; intros s; cbn [fold_left]; [reflexivity |].
  rewrite IH. unfold advance. now rewrite advance_at_reports.
Qed.

Lemma runs_reports (l : list nat) :
  forall s : scanState Data,
    fold_left (run_to_end cfg (with_reports app r)) l s
    = fold_left (run_to_end cfg app) l s.
Proof.
  induction l as [| i l IH]; intros s; cbn [fold_left]; [reflexivity |].
  rewrite IH. unfold run_to_end. now rewrite advances_reports.
Qed.

Lemma sequential_reports (continueOnError : bool) (remaining : nat) :
  forall i (s : scanState Data),
    sequential cfg (with_reports app r) continueOnError i remaining s
    = sequential cfg app continueOnError i remaining s.
Proof.
  induction remaining as [| n IH]; intros i s; cbn [sequential];
    [reflexivity |].
  unfold run_to_end. rewrite advances_reports.
  fold (run_to_end cfg app s i).
  destruct (nth_error (pcs (run_to_end cfg app s i)) i) as [[] |];
    try apply IH.
  destruct continueOnError; [apply IH | reflexivity].
Qed.

Lemma scanningPhase_reports (o : options) (t : testResults Data) :
  scanningPhase cfg (with_reports app r) o t = scanningPhase cfg app o t.
Proof.
  unfold scanningPhase, concurrent.
  cbn [getMainWindow with_reports].
  now rewrite sequential_reports, advances_reports, runs_reports.
Qed.

Lemma setupPhase_reports (t : testResults Data) :
  setupPhase cfg (with_reports app r) t = setupPhase cfg app t.
Proof. reflexivity. Qed.

End Reports.

(** X27: how the reports come out does not decide the success of the
    suite.  Two runs that differ only in what [generateAllReports]
    resolves to, a success or a failure to write some report, end with
    the same errors, the same [success] and the same result lists. *)
Theorem reports_do_not_decide_success {Data : Type} (cfg : config Data)
    (app : application) (o : options) (e : engine Data)
    (written unwritten : reportResults) :
  rr_success written = true ->
  rr_success unwritten = false ->
  isRunning e = false ->
  exists t t',
    fst (runTestSuite cfg (with_reports app (Return written)) o e) = Return t
    /\ fst (runTestSuite cfg (with_reports app (Return unwritten)) o e)
       = Return t'
    /\ errors t = errors t'
    /\ success t = success t'
    /\ axeResults t = axeResults t'
    /\ extraResults t = extraResults t'.
Proof.
  intros Hw Hu Hidle. unfold runTestSuite. rewrite Hidle.
  rewrite !setupPhase_reports. cbn [now with_reports elapsed].
  destruct (setupPhase cfg app _) as [[[] | err] t1].
  2: { do 2 eexists. split; [reflexivity |]. split; [reflexivity |].
       cbn. repeat split. }
  rewrite !scanningPhase_reports.
  destruct (scanningPhase cfg app o t1) as [[[] | err] t2].
  2: { do 2 eexists. split; [reflexivity |]. split; [reflexivity |].
       cbn. repeat split. }
  unfold reportingPhase, cleanupPhase.
  cbn [generateAllReports closeApp with_reports now].
  rewrite Hw, Hu.
  destruct (closeApp app); do 2 eexists;
    (split; [reflexivity |]); (split; [reflexivity |]); cbn;
    repeat split.
Qed.

(** The theorem on the run over "Home" and "Settings": with or without
    its reports the run has the same two errors. *)
Lemma reports_do_not_decide_success_witness :
  exists t t',
    fst (runTestSuite two_pages
           (with_reports settings_unreachable
                         (Return (mkReportResults true 0 [])))
           default_options new_engine) = Return t
    /\ fst (runTestSuite two_pages
              (with_reports settings_unreachable
                            (Return (mkReportResults false 2 [])))
              default_options new_engine) = Return t'
    /\ errors t = errors t'.
Proof.
  destruct (reports_do_not_decide_success two_pages settings_unreachable
              default_options new_engine (mkReportResults true 0 [])
              (mkReportResults false 2 []) eq_refl eq_refl eq_refl)
    as [t [t' [Ht [Ht' [He _]]]]].
  exists t, t'. repeat split; assumption.
Defined.

End SuiteFacts.
